(** * at.st: the legacy gateway (bbs.cgi), its form decoder, the dat-field
      escaper, the visitor-id hash and the rate-limit lock table

    A shallow embedding of
      - [src/frontend/src/routes/bbs.cgi/+server.ts]   (POST, the decoder
        callback, createCgiSuccessResponse, createCgiErrorResponse, GET),
      - [$lib/server/monacoin]                         (createSjisResponse,
        escapeDatField),
      - [src/frontend/src/lib/utils/fingerprint.ts]    (getVisitorId, sha256),
      - [src/backend/migrations/20250731181200_create_rate_limiter_tables.sql]
        (table rate_limit_locks).

    JavaScript strings are sequences of UTF-16 code units, buffers are
    sequences of bytes; both are lists of [Z].  What the language and Node
    fix is written out: [parseInt], the encodings of [Buffer],
    [querystring.parse], [URLSearchParams].  What the code obtains from npm
    packages and from the world (iconv-lite, he, JSON and the values it
    yields, the digest, the backend behind the HTTP client) is an interface:
    a type class, or a variable of a section, whose members the definitions
    call. *)

From Stdlib Require Import String Ascii ZArith List Bool Lia Arith Permutation.
Import ListNotations.
Open Scope Z_scope.

(* ===================================================================== *)
(** * Part I: definitions                                                 *)
(* ===================================================================== *)

(** ** JavaScript values the code manipulates *)

(** A JS string: its UTF-16 code units. *)
Definition jsstring := list Z.

(** A Node [Buffer]: its bytes, each in [0, 256). *)
Definition Buffer := list Z.

(** What a call does: it returns, or it throws. *)
Inductive outcome (A : Type) : Type :=
| Returns (a : A)
| Throws.
Arguments Returns {A} a.
Arguments Throws {A}.

Definition obind {A B} (c : outcome A) (k : A -> outcome B) : outcome B :=
  match c with
  | Returns a => k a
  | Throws => Throws
  end.

(** [try { c } catch { h }] *)
Definition try_catch {A} (c : outcome A) (h : outcome A) : outcome A :=
  match c with
  | Returns a => Returns a
  | Throws => h
  end.

(** [buf.slice(a, b)] for [0 <= a <= b]; the end is clamped to the length. *)
Definition slice {A} (a b : nat) (l : list A) : list A :=
  firstn (b - a) (skipn a l).

(** ** UTF-8 as Node decodes it ([buf.toString('utf-8')])

    The decoder of the Encoding Standard: an ill-formed sequence yields
    U+FFFD and the offending byte is looked at again as a first byte. *)

Record utf8_state := mk_utf8 {
  u_cp : Z;          (* code point so far *)
  u_seen : Z;        (* continuation bytes seen *)
  u_needed : Z;      (* continuation bytes needed *)
  u_lower : Z;
  u_upper : Z
}.

Definition utf8_init : utf8_state := mk_utf8 0 0 0 0x80 0xBF.

(** The UTF-16 code units of a code point. *)
Definition utf16_units (cp : Z) : jsstring :=
  if cp <? 0x10000 then [cp]
  else let c := cp - 0x10000 in
       [0xD800 + Z.shiftr c 10; 0xDC00 + Z.land c 0x3FF].

(** A byte read with no sequence pending. *)
Definition utf8_first (b : Z) : utf8_state * jsstring :=
  if b <? 0x80 then (utf8_init, [b])
  else if (0xC2 <=? b) && (b <=? 0xDF) then
    (mk_utf8 (Z.land b 0x1F) 0 1 0x80 0xBF, [])
  else if (0xE0 <=? b) && (b <=? 0xEF) then
    (mk_utf8 (Z.land b 0xF) 0 2
       (if b =? 0xE0 then 0xA0 else 0x80)
       (if b =? 0xED then 0x9F else 0xBF), [])
  else if (0xF0 <=? b) && (b <=? 0xF4) then
    (mk_utf8 (Z.land b 0x7) 0 3
       (if b =? 0xF0 then 0x90 else 0x80)
       (if b =? 0xF4 then 0x8F else 0xBF), [])
  else (utf8_init, [0xFFFD]).

Definition utf8_step (st : utf8_state) (b : Z) : utf8_state * jsstring :=
  if u_needed st =? 0 then utf8_first b
  else if (u_lower st <=? b) && (b <=? u_upper st) then
    let cp := Z.lor (Z.shiftl (u_cp st) 6) (Z.land b 0x3F) in
    if u_seen st + 1 =? u_needed st then (utf8_init, utf16_units cp)
    else (mk_utf8 cp (u_seen st + 1) (u_needed st) 0x80 0xBF, [])
  else
    let '(st', out) := utf8_first b in (st', 0xFFFD :: out).

Fixpoint utf8_run (st : utf8_state) (bs : Buffer) : jsstring :=
  match bs with
  | [] => if u_needed st =? 0 then [] else [0xFFFD]
  | b :: rest => let '(st', out) := utf8_step st b in out ++ utf8_run st' rest
  end.

(** [buf.toString('utf-8')] *)
Definition toString_utf8 (bs : Buffer) : jsstring := utf8_run utf8_init bs.

(** [buf.toString('latin1')]: every byte is the code unit of that value. *)
Definition toString_latin1 (bs : Buffer) : jsstring := bs.

(** [buf.toString('ascii', a, b)]: as latin1, with the high bit of every
    byte cleared. *)
Definition toString_ascii (a b : nat) (bs : Buffer) : jsstring :=
  map (fun x => Z.land x 0x7F) (slice a b bs).

(** [Buffer.from(str, 'latin1')]: the low byte of every code unit. *)
Definition Buffer_from_latin1 (s : jsstring) : Buffer :=
  map (fun c => Z.land c 0xFF) s.

(** [Buffer.from(numbers)]: every number is taken modulo 256. *)
Definition Buffer_from_array (ns : list Z) : Buffer :=
  map (fun n => n mod 256) ns.

(** The bytes of a source literal, and the JS string a (UTF-8) source
    literal denotes. *)
Fixpoint bytes_of (s : string) : Buffer :=
  match s with
  | EmptyString => []
  | String c r => Z.of_nat (nat_of_ascii c) :: bytes_of r
  end.

Definition js (s : string) : jsstring := toString_utf8 (bytes_of s).

(** The double quote, for the HTML templates. *)
Definition dq : jsstring := [34].

(** [parts.join(sep)] *)
Fixpoint join (sep : jsstring) (parts : list jsstring) : jsstring :=
  match parts with
  | [] => []
  | [p] => p
  | p :: rest => p ++ sep ++ join sep rest
  end.

Fixpoint jsstring_eqb (a b : jsstring) : bool :=
  match a, b with
  | [], [] => true
  | x :: a', y :: b' => (x =? y) && jsstring_eqb a' b'
  | _, _ => false
  end.

(** [s.length === 0], the falsiness of a string. *)
Definition is_empty (s : jsstring) : bool :=
  match s with [] => true | _ => false end.

(** [x || ''] on the result of a lookup that is [null] when absent. *)
Definition or_empty (x : option jsstring) : jsstring :=
  match x with Some s => s | None => [] end.

(** ** [parseInt(s, 16)] (ECMAScript): [None] is NaN *)

Definition is_StrWhiteSpaceChar (c : Z) : bool :=
  (c =? 0x9) || (c =? 0xA) || (c =? 0xB) || (c =? 0xC) || (c =? 0xD)
  || (c =? 0x20) || (c =? 0xA0) || (c =? 0x1680)
  || ((0x2000 <=? c) && (c <=? 0x200A))
  || (c =? 0x2028) || (c =? 0x2029) || (c =? 0x202F) || (c =? 0x205F)
  || (c =? 0x3000) || (c =? 0xFEFF).

Definition hex_digit_value (c : Z) : option Z :=
  if (0x30 <=? c) && (c <=? 0x39) then Some (c - 0x30)
  else if (0x61 <=? c) && (c <=? 0x66) then Some (c - 0x61 + 10)
  else if (0x41 <=? c) && (c <=? 0x46) then Some (c - 0x41 + 10)
  else None.

Fixpoint trim_start (s : jsstring) : jsstring :=
  match s with
  | c :: r => if is_StrWhiteSpaceChar c then trim_start r else s
  | [] => []
  end.

(** The value of the longest prefix of hexadecimal digits; [acc] is [None]
    as long as no digit has been read. *)
Fixpoint parse_hex_prefix (acc : option Z) (s : jsstring) : option Z :=
  match s with
  | c :: r =>
      match hex_digit_value c with
      | Some d =>
          parse_hex_prefix
            (Some (16 * (match acc with Some a => a | None => 0 end) + d)) r
      | None => acc
      end
  | [] => acc
  end.

Definition parseInt16 (s : jsstring) : option Z :=
  let s1 := trim_start s in
  let sign := match s1 with c :: _ => if c =? 0x2D then -1 else 1 | [] => 1 end in
  let s2 := match s1 with
            | c :: r => if (c =? 0x2D) || (c =? 0x2B) then r else s1
            | [] => s1
            end in
  let s3 := match s2 with
            | z :: x :: r =>
                if (z =? 0x30) && ((x =? 0x78) || (x =? 0x58)) then r else s2
            | _ => s2
            end in
  option_map (Z.mul sign) (parse_hex_prefix None s3).

(** ** The decoder callback of POST, first pass: percent-unescaping

    [+server.ts] lines 152-169.  The argument is the part of [buffer] from
    index [i] on; the test [i + 2 < buffer.length] is that two more bytes
    follow the [%]. *)
Fixpoint percent_unescape (buffer : Buffer) : list Z :=
  match buffer with
  | [] => []
  | b :: rest =>
      if b =? 0x25 then
        match rest with
        | h1 :: h2 :: rest' =>
            let hex := toString_ascii 0 2 [h1; h2] in
            match parseInt16 hex with
            | Some byte => byte :: percent_unescape rest'
            | None => b :: percent_unescape rest
            end
        | _ => b :: percent_unescape rest
        end
      else b :: percent_unescape rest
  end.

(** ** The packages the decoder calls *)

(** iconv-lite for the charset Shift_JIS.  The code wraps [iconv.decode] in
    [try]/[catch], so the interface lets it throw. *)
Class IconvLite := {
  iconv_decode : Buffer -> outcome jsstring;
  iconv_encode : jsstring -> Buffer
}.

(** [he.decode], and [querystring.unescape(s, true)], to which
    [querystring.parse] falls back when the decoder it was given throws. *)
Class Entities := {
  he_decode : jsstring -> outcome jsstring;
  qsUnescape : jsstring -> jsstring
}.

(** ** Second pass: the incremental Shift_JIS decode

    [+server.ts] lines 171-194.  The loop variable runs over
    [0 .. buffer.length] where [buffer] is the buffer BEFORE unescaping;
    the window is [sjisCandidateBuffer.slice(0, i)]; what the catch block
    appends is a slice of [buffer]. *)
Section SjisPass.
Context {I : IconvLite}.

Definition sjis_iteration (buffer sjisCandidateBuffer : Buffer)
    (st : jsstring * nat) (i : nat) : jsstring * nat :=
  let '(decodedStr, lastDecodedIndex) := st in
  match iconv_decode (slice 0 i sjisCandidateBuffer) with
  | Returns decodedPart => (decodedPart, i)
  | Throws =>
      if (lastDecodedIndex <? i)%nat then
        (decodedStr ++ toString_utf8 (slice lastDecodedIndex i buffer), i)
      else st
  end.

Definition sjis_loop (buffer sjisCandidateBuffer : Buffer)
    (upto : list nat) (st : jsstring * nat) : jsstring * nat :=
  fold_left (sjis_iteration buffer sjisCandidateBuffer) upto st.

Definition sjis_pass (buffer sjisCandidateBuffer : Buffer) : jsstring :=
  fst (sjis_loop buffer sjisCandidateBuffer
         (seq 0 (S (length buffer))) ([], 0%nat)).

Context {E : Entities}.

(** The [decodeURIComponent] option handed to [querystring.parse]. *)
Definition decodeURIComponent (str : jsstring) : outcome jsstring :=
  let buffer := Buffer_from_latin1 str in
  let bytes := percent_unescape buffer in
  let sjisCandidateBuffer := Buffer_from_array bytes in
  let decodedStr := sjis_pass buffer sjisCandidateBuffer in
  he_decode decodedStr.
End SjisPass.

Notation "x <- c ;; k" := (obind c (fun x => k))
  (at level 61, c at next level, right associativity).

(** ** [querystring.parse(qs, '&', '=', { decodeURIComponent })]

    Node's parser, for the one-character separators and the custom
    decoder POST passes.  It cuts [qs] at every [&]; in each segment the
    key ends at the first [=]; every [+] becomes [%20] before the decoder
    is called; an empty segment adds nothing; at most [maxKeys] segments
    are looked at (the default of the option, 1000). *)

Fixpoint split_on (sep : Z) (s : jsstring) : list jsstring :=
  match s with
  | [] => [[]]
  | c :: r =>
      if c =? sep then [] :: split_on sep r
      else match split_on sep r with
           | seg :: segs => (c :: seg) :: segs
           | [] => [[c]]
           end
  end.

(** The text before the first [=], and the text after it when there is one. *)
Fixpoint break_at_eq (seg : jsstring) : jsstring * option jsstring :=
  match seg with
  | [] => ([], None)
  | c :: r =>
      if c =? 0x3D then ([], Some r)
      else let '(k, v) := break_at_eq r in (c :: k, v)
  end.

Definition plus_to_pct20 (s : jsstring) : jsstring :=
  flat_map (fun c => if c =? 0x2B then [0x25; 0x32; 0x30] else [c]) s.

(** The raw key and value of a segment; [None] for the empty segment. *)
Definition segment_pair (seg : jsstring) : option (jsstring * jsstring) :=
  match break_at_eq seg with
  | (k, Some v) => Some (plus_to_pct20 k, plus_to_pct20 v)
  | (k, None) => if is_empty k then None else Some (plus_to_pct20 k, [])
  end.

Definition maxKeys : nat := 1000.

(** The raw pairs [querystring.parse] adds, in order. *)
Definition raw_pairs (qs : jsstring) : list (jsstring * jsstring) :=
  flat_map (fun e => match e with Some p => [p] | None => [] end)
    (firstn maxKeys (map segment_pair (split_on 0x26 qs))).

(** A property of the parsed object: a string, or an array of strings once
    the key has occurred again. *)
Inductive qsvalue :=
| QString (s : jsstring)
| QArray (l : list jsstring).

(** The parsed object (its prototype is [null]): keys with their values,
    in insertion order. *)
Definition qsobject := list (jsstring * qsvalue).

Fixpoint obj_get (obj : qsobject) (key : jsstring) : option qsvalue :=
  match obj with
  | [] => None
  | (k, v) :: rest => if jsstring_eqb k key then Some v else obj_get rest key
  end.

(** [obj[key] = v]: in place when the key exists, appended otherwise. *)
Fixpoint obj_set (obj : qsobject) (key : jsstring) (v : qsvalue) : qsobject :=
  match obj with
  | [] => [(key, v)]
  | (k, w) :: rest =>
      if jsstring_eqb k key then (k, v) :: rest
      else (k, w) :: obj_set rest key v
  end.

Definition store_value (obj : qsobject) (key value : jsstring) : qsobject :=
  match obj_get obj key with
  | None => obj_set obj key (QString value)
  | Some (QArray l) => obj_set obj key (QArray (l ++ [value]))
  | Some (QString cur) => obj_set obj key (QArray [cur; value])
  end.

Section QueryString.
Context {I : IconvLite} {E : Entities}.

(** [decodeStr]: the decoder under [try]; [querystring.unescape] when it
    throws. *)
Definition decodeStr (s : jsstring) : outcome jsstring :=
  try_catch (decodeURIComponent s) (Returns (qsUnescape s)).

Definition decode_nonempty (s : jsstring) : outcome jsstring :=
  if is_empty s then Returns s else decodeStr s.

Definition addKeyValue (obj : qsobject) (key value : jsstring)
    : outcome qsobject :=
  key' <- decode_nonempty key ;;
  value' <- decode_nonempty value ;;
  Returns (store_value obj key' value').

Fixpoint add_pairs (obj : qsobject) (pairs : list (jsstring * jsstring))
    : outcome qsobject :=
  match pairs with
  | [] => Returns obj
  | (k, v) :: rest => obj' <- addKeyValue obj k v ;; add_pairs obj' rest
  end.

Definition querystring_parse (qs : jsstring) : outcome qsobject :=
  add_pairs [] (raw_pairs qs).
End QueryString.

(** ** [new URLSearchParams(record)] and [get] *)

(** [String(v)]: an array is its elements joined by commas. *)
Definition String_of_qsvalue (v : qsvalue) : jsstring :=
  match v with
  | QString s => s
  | QArray l => join [0x2C] l
  end.

Definition is_high_surrogate (c : Z) : bool := (0xD800 <=? c) && (c <=? 0xDBFF).
Definition is_low_surrogate (c : Z) : bool := (0xDC00 <=? c) && (c <=? 0xDFFF).

(** Conversion to a USVString: lone surrogates become U+FFFD. *)
Fixpoint toUSVString (s : jsstring) : jsstring :=
  match s with
  | [] => []
  | c :: r =>
      if is_high_surrogate c then
        match r with
        | d :: r' =>
            if is_low_surrogate d then c :: d :: toUSVString r'
            else 0xFFFD :: toUSVString r
        | [] => [0xFFFD]
        end
      else if is_low_surrogate c then 0xFFFD :: toUSVString r
      else c :: toUSVString r
  end.

(** An array index: a canonical decimal numeral below 2^32 - 1.  The own
    keys of an object are enumerated with the array indices first, in
    ascending order, then the other keys in insertion order. *)
Definition is_digit (c : Z) : bool := (0x30 <=? c) && (c <=? 0x39).

Definition decimal_value (s : jsstring) : Z :=
  fold_left (fun acc c => 10 * acc + (c - 0x30)) s 0.

Definition array_index (k : jsstring) : option Z :=
  match k with
  | [] => None
  | c :: r =>
      if forallb is_digit k && (negb (c =? 0x30) || is_empty r)
         && (Z.of_nat (List.length k) <=? 10)
         && (decimal_value k <? 4294967295)
      then Some (decimal_value k) else None
  end.

Fixpoint insert_by_index {A} (n : Z) (x : A) (l : list (Z * A)) : list (Z * A) :=
  match l with
  | [] => [(n, x)]
  | (m, y) :: rest =>
      if n <? m then (n, x) :: l else (m, y) :: insert_by_index n x rest
  end.

Definition own_entries (obj : qsobject) : qsobject :=
  let indexed :=
    fold_right (fun kv acc =>
                  match array_index (fst kv) with
                  | Some n => insert_by_index n kv acc
                  | None => acc
                  end) [] obj in
  map snd indexed
  ++ filter (fun kv => match array_index (fst kv) with
                       | Some _ => false | None => true end) obj.

Definition URLSearchParams := list (jsstring * jsstring).

(** The conversion of a record sets a name it has already met, in place,
    and appends any other. *)
Fixpoint params_set (params : URLSearchParams) (name value : jsstring)
    : URLSearchParams :=
  match params with
  | [] => [(name, value)]
  | (k, v) :: rest =>
      if jsstring_eqb k name then (k, value) :: rest
      else (k, v) :: params_set rest name value
  end.

Definition URLSearchParams_of_record (obj : qsobject) : URLSearchParams :=
  fold_left
    (fun params kv =>
       params_set params (toUSVString (fst kv))
         (toUSVString (String_of_qsvalue (snd kv))))
    (own_entries obj) [].

(** [params.get(name)]: the value of the first entry of that name, or
    [null]. *)
Fixpoint params_get (params : URLSearchParams) (name : jsstring)
    : option jsstring :=
  match params with
  | [] => None
  | (k, v) :: rest =>
      if jsstring_eqb k name then Some v else params_get rest name
  end.

(** ** The form decoder of POST: [+server.ts] lines 126-211 *)
Section FormDecoder.
Context {I : IconvLite} {E : Entities}.

Definition decodedFields (buffer : Buffer) : outcome qsobject :=
  querystring_parse (toString_latin1 buffer).

Definition formData (buffer : Buffer) : outcome URLSearchParams :=
  fields <- decodedFields buffer ;;
  Returns (URLSearchParams_of_record fields).
End FormDecoder.

(** ** The JavaScript runtime and the backend, as the gateway uses them *)

(** Values that come out of [JSON.parse] and of FingerprintJS.  [get_prop]
    throws on [null] and [undefined], as property access does, and gives
    [undefined] for a property that is not there.  [JSON.stringify] throws
    on a value that is not JSON data (a cycle, a BigInt). *)
Class JsRuntime := {
  jsvalue : Type;
  Number_ : jsstring -> jsvalue;
  JSON_parse : jsstring -> outcome jsvalue;
  get_prop : jsvalue -> jsstring -> outcome jsvalue;
  truthy : jsvalue -> bool;
  typeof_object : jsvalue -> bool;
  String_ : jsvalue -> jsstring;
  JSON_stringify : jsvalue -> outcome jsstring
}.

(** [n.toString()] for a length. *)
Fixpoint decimal_digits (fuel : nat) (n : Z) : jsstring :=
  match fuel with
  | O => []
  | S fuel' =>
      if n <? 10 then [0x30 + n]
      else decimal_digits fuel' (n / 10) ++ [0x30 + n mod 10]
  end.

Definition Number_toString (n : Z) : jsstring :=
  decimal_digits (S (Z.to_nat n)) n.

Record Response := {
  status : Z;
  headers : list (jsstring * jsstring);
  body : Buffer
}.

(** Header names are compared without regard to ASCII case. *)
Definition ascii_lower (c : Z) : Z :=
  if (0x41 <=? c) && (c <=? 0x5A) then c + 0x20 else c.

Fixpoint headers_get (hs : list (jsstring * jsstring)) (name : jsstring)
    : option jsstring :=
  match hs with
  | [] => None
  | (k, v) :: rest =>
      if jsstring_eqb (map ascii_lower k) (map ascii_lower name) then Some v
      else headers_get rest name
  end.

Definition null_body_status (st : Z) : bool :=
  (st =? 101) || (st =? 103) || (st =? 204) || (st =? 205) || (st =? 304).

(** [new Response(body, { status, headers })] with a body that is not
    [null].  The status is read as an unsigned short; a RangeError when it
    is not within 200..599, a TypeError when it is a status that allows no
    body. *)
Definition new_Response (body_ : Buffer) (status_ : Z)
    (headers_ : list (jsstring * jsstring)) : outcome Response :=
  let st := status_ mod 65536 in
  if (st <? 200) || (599 <? st) then Throws
  else if null_body_status st then Throws
  else Returns {| status := st; headers := headers_; body := body_ |}.

(** ** [createSjisResponse] ($lib/server/monacoin, lines 14-38) *)
Section SjisResponse.
Context {I : IconvLite}.

Definition createSjisResponse (text contentType : jsstring) (status : Z)
    (setCookieHeaders : list jsstring) : Response :=
  let encodedBody := iconv_encode text in
  let contentLength := Number_toString (Z.of_nat (List.length encodedBody)) in
  {| status := status;
     headers :=
       [(js "Content-Type", contentType ++ js "; charset=Shift_JIS");
        (js "Content-Length", contentLength)]
       ++ map (fun cookie => (js "set-cookie", cookie)) setCookieHeaders;
     body := encodedBody |}.
End SjisResponse.

(** ** The gateway: [bbs.cgi/+server.ts] *)

(** The fields POST reads, [formData.get(name) || '']. *)
Definition field (fd : URLSearchParams) (name : string) : jsstring :=
  or_empty (params_get fd (js name)).

Record ApiResponse := {
  statusCode : Z;
  setCookieHeader : option (list jsstring);
  api_body : jsstring
}.

Inductive Method := GET_ | POST_.

Section Gateway.
Context {I : IconvLite} {E : Entities} {J : JsRuntime}.

(** The JSON bodies POST sends. [author_name] is [undefined] when the
    FROM field is empty. *)
Inductive Payload :=
| ThreadPayload (board_id : jsvalue) (title body : jsstring)
    (author_name : option jsstring) (fingerprint : jsstring)
| CommentPayload (post_id : jsvalue) (body : jsstring)
    (author_name : option jsstring) (fingerprint : jsstring).

Record ApiRequest := {
  req_url : jsstring;
  req_method : Method;
  req_headers : list (jsstring * jsstring);
  req_payload : option Payload
}.

(** What a request does to the world outside the handler. *)
Inductive Effect :=
| ApiCall (r : ApiRequest)                  (* nativeHttpRequest *)
| CookiesSet (setCookie : list jsstring).   (* cookies.set, per cookie *)

(** The handler's monad: the effects so far are threaded through; a
    throw keeps them. *)
Definition M (A : Type) : Type := list Effect -> outcome A * list Effect.

Definition ret {A} (a : A) : M A := fun tr => (Returns a, tr).

Definition bind {A B} (c : M A) (k : A -> M B) : M B :=
  fun tr => match c tr with
            | (Returns a, tr') => k a tr'
            | (Throws, tr') => (Throws, tr')
            end.

Definition lift {A} (c : outcome A) : M A := fun tr => (c, tr).

Definition try_catchM {A} (c : M A) (h : M A) : M A :=
  fun tr => match c tr with
            | (Returns a, tr') => (Returns a, tr')
            | (Throws, tr') => h tr'
            end.

(** The backend behind [nativeHttpRequest], for the requests that settle:
    the answer to a request (the promise is resolved when the response
    ends), or a rejected promise (the request fails, or cannot be made).
    The source sets no timeout: a request that never settles leaves POST
    pending, and is outside these definitions. *)
Variable backend : ApiRequest -> outcome ApiResponse.

Definition nativeHttpRequest (r : ApiRequest) : M ApiResponse :=
  fun tr => (backend r, tr ++ [ApiCall r]).

Definition set_cookies (h : option (list jsstring)) : M unit :=
  match h with
  | Some hs => fun tr => (Returns tt, tr ++ [CookiesSet hs])
  | None => ret tt
  end.

Variable PUBLIC_API_BASE_URL : jsstring.

Definition html_headers : list (jsstring * jsstring) :=
  [(js "Content-Type", js "text/html; charset=Shift_JIS")].

(** [createCgiSuccessResponse], lines 348-399. *)
Definition redirectUrl (boardId threadKey : jsstring) : jsstring :=
  js "../read.cgi/" ++ boardId ++ js "/" ++ threadKey ++ js "/".

Definition successHtml (boardId threadKey : jsstring) : jsstring :=
  let redirectUrl := redirectUrl boardId threadKey in
  [0xA]
  ++ js "<!DOCTYPE HTML PUBLIC " ++ dq
  ++ js "-//W3C//DTD HTML 4.01 Transitional//EN" ++ dq ++ js ">" ++ [0xA]
  ++ js "<html>" ++ [0xA]
  ++ js "<head>" ++ [0xA]
  ++ js "<title>書きこみました。</title>" ++ [0xA]
  ++ js "<meta http-equiv=" ++ dq ++ js "refresh" ++ dq
  ++ js " content=" ++ dq ++ js "2;URL=" ++ redirectUrl ++ dq ++ js ">" ++ [0xA]
  ++ js "</head>" ++ [0xA]
  ++ js "<body>" ++ [0xA]
  ++ js "書きこみました。<br><br>" ++ [0xA]
  ++ js "<a href=" ++ dq ++ redirectUrl ++ dq
  ++ js " target=" ++ dq ++ js "_top" ++ dq ++ js ">画面を切り替える</a>" ++ [0xA]
  ++ js "</body>" ++ [0xA]
  ++ js "</html>" ++ [0xA].

Definition createCgiSuccessResponse (message boardId threadKey : jsstring)
    (apiResponse : ApiResponse) : M Response :=
  let responseHtml := successHtml boardId threadKey in
  bind (set_cookies (setCookieHeader apiResponse)) (fun _ =>
  let body := iconv_encode responseHtml in
  lift (new_Response body 200 html_headers)).

(** [createCgiErrorResponse], lines 404-476. *)
Definition api_error_message (defaultMessage : jsstring)
    (apiResponse : ApiResponse) : jsstring :=
  match
    try_catch
      (if is_empty (api_body apiResponse) then Returns defaultMessage
       else
         errorJson <- JSON_parse (api_body apiResponse) ;;
         error <- get_prop errorJson (js "error") ;;
         Returns (if truthy error then String_ error else defaultMessage))
      (Returns (if is_empty (api_body apiResponse) then defaultMessage
                else api_body apiResponse))
  with
  | Returns m => m
  | Throws => defaultMessage
  end.

Definition notVerifiedMessage (origin : jsstring) : jsstring :=
  let authUrl := origin ++ js "/auth/register" in
  js "投稿するためには、<a href=" ++ dq ++ authUrl ++ dq
  ++ js " target=" ++ dq ++ js "_blank" ++ dq ++ js ">" ++ authUrl
  ++ js "</a> にて認証して、専ブラ連携トークンを取得してください".

Definition errorHtml (errorMessage : jsstring) : jsstring :=
  [0xA]
  ++ js "<!DOCTYPE HTML PUBLIC " ++ dq
  ++ js "-//W3C//DTD HTML 4.01 Transitional//EN" ++ dq ++ js ">" ++ [0xA]
  ++ js "<html>" ++ [0xA]
  ++ js "<head>" ++ [0xA]
  ++ js "<title>ERROR!</title>" ++ [0xA]
  ++ js "</head>" ++ [0xA]
  ++ js "<body>" ++ [0xA]
  ++ js "ERROR: " ++ errorMessage ++ js "<br><br>" ++ [0xA]
  ++ js "</body>" ++ [0xA]
  ++ js "</html>" ++ [0xA].

Definition errorStatus (apiResponse : option ApiResponse) : Z :=
  match apiResponse with
  | Some r => statusCode r
  | None => 400
  end.

Definition errorMessageOf (defaultMessage : jsstring)
    (apiResponse : option ApiResponse) (origin : jsstring) : jsstring :=
  let errorMessage :=
    match apiResponse with
    | Some r => api_error_message defaultMessage r
    | None => defaultMessage
    end in
  if errorStatus apiResponse =? 401 then notVerifiedMessage origin
  else errorMessage.

Definition createCgiErrorResponse (defaultMessage boardId : jsstring)
    (apiResponse : option ApiResponse) (origin : jsstring) : M Response :=
  let statusCode := errorStatus apiResponse in
  let responseHtml := errorHtml (errorMessageOf defaultMessage apiResponse origin) in
  bind (set_cookies (match apiResponse with
                     | Some r => setCookieHeader r
                     | None => None
                     end)) (fun _ =>
  let body := iconv_encode responseHtml in
  lift (new_Response body statusCode html_headers)).

(** [GET], lines 334-343. *)
Definition GET : Response :=
  let responseHtml :=
    [0xA; 0x9]
    ++ js "<!DOCTYPE HTML PUBLIC " ++ dq
    ++ js "-//W3C//DTD HTML 4.01 Transitional//EN" ++ dq ++ js ">" ++ [0xA; 0x9]
    ++ js "<html><head><title>Unsupported Method</title></head>" ++ [0xA; 0x9]
    ++ js "<body>GET method is not supported for this endpoint.</body></html>"
    ++ [0xA; 0x9] in
  {| status := 405; headers := html_headers; body := iconv_encode responseHtml |}.

Notation "x <~ c ;; k" := (bind c (fun x => k))
  (at level 61, c at next level, right associativity).

(** What POST reads from the request. *)
Record Request := {
  x_forwarded_for : option jsstring;
  x_real_ip : option jsstring;
  user_agent : option jsstring;
  cookies_getAll : list (jsstring * jsstring);
  arrayBuffer : Buffer;
  url_origin : jsstring
}.

(** A header is forwarded when it is there and not empty. *)
Definition forwarded (name : jsstring) (h : option jsstring)
    : list (jsstring * jsstring) :=
  match h with
  | Some v => if is_empty v then [] else [(name, v)]
  | None => []
  end.

Definition baseHeaders (request : Request) : list (jsstring * jsstring) :=
  forwarded (js "X-Forwarded-For") (x_forwarded_for request)
  ++ forwarded (js "X-Real-IP") (x_real_ip request)
  ++ forwarded (js "User-Agent") (user_agent request)
  ++ match cookies_getAll request with
     | [] => []
     | incomingCookies =>
         [(js "Cookie",
           join (js "; ")
             (map (fun c => fst c ++ js "=" ++ snd c) incomingCookies))]
     end.

Definition jsonHeaders (request : Request) : list (jsstring * jsstring) :=
  (js "Content-Type", js "application/json; charset=utf-8")
  :: baseHeaders request.

Definition optional (s : jsstring) : option jsstring :=
  if is_empty s then None else Some s.

(** The request that creates a thread, lines 234-259. *)
Definition threadRequest (request : Request)
    (boardIdFromForm subject body authorName fingerprint : jsstring)
    : ApiRequest :=
  let payload :=
    ThreadPayload (Number_ boardIdFromForm) subject body
      (optional authorName) fingerprint in
  {| req_url := PUBLIC_API_BASE_URL ++ js "/posts";
     req_method := POST_;
     req_headers := jsonHeaders request;
     req_payload := Some payload |}.

(** The thread branch, lines 233-266. *)
Definition createThread (request : Request)
    (boardIdFromForm subject body authorName fingerprint : jsstring)
    : M Response :=
  apiResponse <~ nativeHttpRequest
    (threadRequest request boardIdFromForm subject body authorName
       fingerprint) ;;
  if 400 <=? statusCode apiResponse then
    createCgiErrorResponse (js "スレッドの作成に失敗しました。")
      boardIdFromForm (Some apiResponse) (url_origin request)
  else
    createdPost <~ lift (JSON_parse (api_body apiResponse)) ;;
    id <~ lift (get_prop createdPost (js "id")) ;;
    createCgiSuccessResponse (js "スレッドを作成しました。")
      boardIdFromForm (String_ id) apiResponse.

(** The lookup of the thread by its timestamp, lines 277-282. *)
Definition lookupRequest (request : Request)
    (boardIdFromForm threadKey : jsstring) : ApiRequest :=
  let getUrl :=
    PUBLIC_API_BASE_URL ++ js "/posts/by-timestamp/" ++ threadKey
    ++ js "?board_id=" ++ boardIdFromForm in
  {| req_url := getUrl;
     req_method := GET_;
     req_headers := baseHeaders request;
     req_payload := None |}.

(** The request that creates a comment, lines 291-315. *)
Definition commentRequest (request : Request) (id : jsvalue)
    (body authorName fingerprint : jsstring) : ApiRequest :=
  let payload :=
    CommentPayload id body (optional authorName) fingerprint in
  {| req_url := PUBLIC_API_BASE_URL ++ js "/comments";
     req_method := POST_;
     req_headers := jsonHeaders request;
     req_payload := Some payload |}.

(** The comment branch, lines 268-321. *)
Definition createComment (request : Request)
    (boardIdFromForm threadKey body authorName fingerprint : jsstring)
    : M Response :=
  if is_empty threadKey then
    createCgiErrorResponse (js "スレッドが指定されていません。")
      boardIdFromForm None (url_origin request)
  else
    postRes <~ nativeHttpRequest
      (lookupRequest request boardIdFromForm threadKey) ;;
    if 400 <=? statusCode postRes then
      let defaultMessage :=
        if statusCode postRes =? 404
        then js "該当のスレッドが見つかりません。"
        else js "スレッド情報の取得に失敗しました。" in
      createCgiErrorResponse defaultMessage boardIdFromForm (Some postRes)
        (url_origin request)
    else
      targetPost <~ lift (JSON_parse (api_body postRes)) ;;
      id <~ lift (get_prop targetPost (js "id")) ;;
      apiResponse <~ nativeHttpRequest
        (commentRequest request id body authorName fingerprint) ;;
      if 400 <=? statusCode apiResponse then
        createCgiErrorResponse (js "レスの投稿に失敗しました。")
          boardIdFromForm (Some apiResponse) (url_origin request)
      else
        createCgiSuccessResponse (js "レスを投稿しました。")
          boardIdFromForm threadKey apiResponse.

(** The device id sent to the backend: the User-Agent, lines 120-123. *)
Definition fingerprintOf (request : Request) : jsstring :=
  let userAgent :=
    match user_agent request with
    | Some ua => if is_empty ua then js "unknown" else ua
    | None => js "unknown"
    end in
  userAgent.

Definition unexpectedError (request : Request) (boardIdFromForm : jsstring)
    : M Response :=
  createCgiErrorResponse (js "サーバーで予期せぬエラーが発生しました。")
    boardIdFromForm None (url_origin request).

(** What POST does once the form is decoded, lines 214-322. *)
Definition dispatch (request : Request) (formData : URLSearchParams)
    : M Response :=
  let fingerprint := fingerprintOf request in
  let boardIdFromForm := field formData "bbs" in
  let threadKey := field formData "key" in
  let body := field formData "MESSAGE" in
  let authorName := field formData "FROM" in
  let subject := field formData "subject" in
  try_catchM
    (if is_empty boardIdFromForm || is_empty body then
       createCgiErrorResponse (js "板IDまたは本文がありません。")
         boardIdFromForm None (url_origin request)
     else if negb (is_empty subject) then
       createThread request boardIdFromForm subject body authorName
         fingerprint
     else
       createComment request boardIdFromForm threadKey body authorName
         fingerprint)
    (unexpectedError request boardIdFromForm).

(** [POST], lines 80-328. *)
Definition POST (request : Request) : M Response :=
  match formData (arrayBuffer request) with
  | Returns formData => dispatch request formData
  | Throws => unexpectedError request []
  end.
End Gateway.

(** ** [escapeDatField] ($lib/server/monacoin) *)

(** [s.replace(/c/g, by)] for a one-character pattern. *)
Definition replace_char (c : Z) (by_ : jsstring) (s : jsstring) : jsstring :=
  flat_map (fun x => if x =? c then by_ else [x]) s.

(** [s.replace(/\r?\n/g, by)]: a match is LF, or CR immediately followed
    by LF; a CR that no LF follows is not matched. *)
Fixpoint replace_newlines (by_ : jsstring) (s : jsstring) : jsstring :=
  match s with
  | [] => []
  | c :: r =>
      if c =? 0xA then by_ ++ replace_newlines by_ r
      else if c =? 0xD then
        match r with
        | d :: r' =>
            if d =? 0xA then by_ ++ replace_newlines by_ r'
            else c :: replace_newlines by_ r
        | [] => [c]
        end
      else c :: replace_newlines by_ r
  end.

(** [escapeDatField], lines 152-161; [None] is [null] or [undefined]. *)
Definition escapeDatField (text : option jsstring) : jsstring :=
  match text with
  | None => []
  | Some t =>
      if is_empty t then []
      else replace_newlines (js " ")
             (replace_char 0x3C (js "&lt;")
                (replace_char 0x26 (js "&amp;") t))
  end.

(** ** [getVisitorId] and [sha256] (lib/utils/fingerprint.ts) *)

Class Crypto := {
  TextEncoder_encode : jsstring -> Buffer;
  subtle_digest_SHA256 : Buffer -> Buffer
}.

Definition hex_digit (d : Z) : Z := if d <? 10 then 0x30 + d else 0x61 + (d - 10).

(** [n.toString(16)] *)
Fixpoint hex_digits (fuel : nat) (n : Z) : jsstring :=
  match fuel with
  | O => []
  | S fuel' =>
      if n <? 16 then [hex_digit n]
      else hex_digits fuel' (n / 16) ++ [hex_digit (n mod 16)]
  end.

Definition toString16 (n : Z) : jsstring := hex_digits (S (Z.to_nat n)) n.

(** [s.padStart(2, '0')] *)
Definition padStart2 (s : jsstring) : jsstring :=
  match s with
  | [] => [0x30; 0x30]
  | [c] => [0x30; c]
  | _ => s
  end.

Definition STABLE_COMPONENTS : list jsstring :=
  [js "webgl"; js "canvas"; js "audio"].

Section Fingerprint.
Context {J : JsRuntime} {C : Crypto}.

(** [sha256], lines 27-36. *)
Definition sha256 (message : jsstring) : jsstring :=
  let msgBuffer := TextEncoder_encode message in
  let hashBuffer := subtle_digest_SHA256 msgBuffer in
  let hashArray := hashBuffer in
  join [] (map (fun b => padStart2 (toString16 b)) hashArray).

(** A component of the FingerprintJS result: its [value] property is
    absent on a component that reports an error. *)
Record Component := { value : option jsvalue }.

(** [result.components], keyed by component name. *)
Definition Components := list (jsstring * Component).

Fixpoint components_get (cs : Components) (key : jsstring)
    : option Component :=
  match cs with
  | [] => None
  | (k, c) :: rest =>
      if jsstring_eqb k key then Some c else components_get rest key
  end.

(** The callback mapped over STABLE_COMPONENTS, lines 56-63. *)
Definition stableValue (components : Components) (key : jsstring)
    : outcome jsstring :=
  match components_get components key with
  | Some component =>
      match value component with
      | Some v =>
          if truthy v then
            if typeof_object v then JSON_stringify v
            else Returns (String_ v)
          else Returns []
      | None => Returns []
      end
  | None => Returns []
  end.

(** [keys.map(callback)]: a callback that throws ends the loop. *)
Fixpoint map_keys (callback : jsstring -> outcome jsstring)
    (keys : list jsstring) : outcome (list jsstring) :=
  match keys with
  | [] => Returns []
  | key :: rest =>
      v <- callback key ;;
      vs <- map_keys callback rest ;;
      Returns (v :: vs)
  end.

(** [getVisitorId], lines 42-68; [browser] is [$app/environment]'s flag. *)
Definition getVisitorId (browser : bool) (components : Components)
    : outcome jsstring :=
  if negb browser then Returns []
  else
    values <- map_keys (stableValue components) STABLE_COMPONENTS ;;
    let stableValues := join (js ";") values in
    Returns (sha256 stableValues).
End Fingerprint.

(** ** The table [rate_limit_locks]
    (migration 20250731181200, lines 40-44) *)

Record Lock := {
  target_key : string;   (* TEXT PRIMARY KEY *)
  rule_id : Z;           (* INTEGER NOT NULL REFERENCES rate_limit_rules(id) *)
  expires_at : Z         (* TIMESTAMPTZ NOT NULL *)
}.

(** The rows of the table. *)
Definition LockTable := list Lock.

Definition has_key (k : string) (l : Lock) : bool := String.eqb (target_key l) k.

Definition rows_of (k : string) (t : LockTable) : LockTable :=
  filter (has_key k) t.

(** [INSERT INTO rate_limit_locks VALUES (...)]: the primary key refuses a
    row whose key is in the table ([None]: unique violation). *)
Definition insert_lock (l : Lock) (t : LockTable) : option LockTable :=
  if existsb (has_key (target_key l)) t then None else Some (t ++ [l]).

(** [DELETE ... WHERE target_key = k], [DELETE ... WHERE expires_at <= now],
    and the cascade from [rate_limit_rules]. *)
Definition delete_key (k : string) (t : LockTable) : LockTable :=
  filter (fun l => negb (has_key k l)) t.

Definition delete_expired (now : Z) (t : LockTable) : LockTable :=
  filter (fun l => now <? expires_at l) t.

Definition delete_rule (rule : Z) (t : LockTable) : LockTable :=
  filter (fun l => negb (rule_id l =? rule)) t.

(** Modelled from the spec: what a conflict on [target_key] leaves in the
    row, in the backend's statement that creates or extends a lock (the
    backend's source is not among the files).  "Latest expiry wins": the
    row keeps whichever of the two locks expires later. *)
Definition later (old new : Lock) : Lock :=
  if expires_at old <? expires_at new then new else old.

(** Modelled from the spec: the backend's statement that creates or
    extends a lock, "upsert-on-conflict" on the unique [target_key]: the
    row of the key is updated in place when there is one, and the lock is
    inserted otherwise. *)
Fixpoint upsert_lock (l : Lock) (t : LockTable) : LockTable :=
  match t with
  | [] => [l]
  | r :: rest =>
      if has_key (target_key l) r then later r l :: rest
      else r :: upsert_lock l rest
  end.

Inductive LockStatement :=
| Insert (l : Lock)
| Upsert (l : Lock)
| DeleteKey (k : string)
| DeleteExpired (now : Z)
| DeleteRule (rule : Z).

Definition execute (s : LockStatement) (t : LockTable) : LockTable :=
  match s with
  | Insert l => match insert_lock l t with Some t' => t' | None => t end
  | Upsert l => upsert_lock l t
  | DeleteKey k => delete_key k t
  | DeleteExpired now => delete_expired now t
  | DeleteRule rule => delete_rule rule t
  end.

(** The states of the table: it is created empty, and every statement,
    from whichever request, is executed on the state the previous one
    left. *)
Inductive reachable : LockTable -> Prop :=
| reachable_created : reachable []
| reachable_execute s t : reachable t -> reachable (execute s t).

(** The locks of a key that have not expired at [now]. *)
Definition active_locks (k : string) (now : Z) (t : LockTable) : LockTable :=
  filter (fun l => has_key k l && (now <? expires_at l)) t.

(** ** Stand-ins for the packages, to run the definitions on examples *)

(** Shift_JIS restricted to ASCII, the half-width katakana (A1-DF) and the
    katakana row (lead byte 83).  Every other sequence, and a lead byte cut
    off at the end, is taken as undecodable: with [strict] the call throws,
    without it the sequence becomes U+FFFD.  These are stand-ins, not
    iconv-lite: iconv-lite never throws, and it decodes more sequences than
    these do (F0 9F and 8E 89, for one, to U+E05E and U+8102). *)
Definition is_sjis_lead (b : Z) : bool :=
  ((0x81 <=? b) && (b <=? 0x9F)) || ((0xE0 <=? b) && (b <=? 0xFC)).

Definition is_sjis_trail (b : Z) : bool :=
  ((0x40 <=? b) && (b <=? 0x7E)) || ((0x80 <=? b) && (b <=? 0xFC)).

Fixpoint sjis_katakana (strict : bool) (bs : Buffer) : outcome jsstring :=
  match bs with
  | [] => Returns []
  | b :: rest =>
      if b <? 0x80 then
        s <- sjis_katakana strict rest ;; Returns (b :: s)
      else if (0xA1 <=? b) && (b <=? 0xDF) then
        s <- sjis_katakana strict rest ;; Returns (0xFF61 + (b - 0xA1) :: s)
      else
        match rest with
        | t :: rest' =>
            if (b =? 0x83) && (0x40 <=? t) && (t <=? 0x7E) then
              s <- sjis_katakana strict rest' ;;
              Returns (0x30A1 + (t - 0x40) :: s)
            else if (b =? 0x83) && (0x80 <=? t) && (t <=? 0x96) then
              s <- sjis_katakana strict rest' ;;
              Returns (0x30A1 + (t - 0x41) :: s)
            else if strict then Throws
            else if is_sjis_lead b && is_sjis_trail t then
              s <- sjis_katakana strict rest' ;; Returns (0xFFFD :: s)
            else
              s <- sjis_katakana strict rest ;; Returns (0xFFFD :: s)
        | [] => if strict then Throws else Returns [0xFFFD]
        end
  end.

(** The encoder is not run on examples. *)
Definition iconv_lenient : IconvLite :=
  {| iconv_decode := sjis_katakana false; iconv_encode := fun s => s |}.

Definition iconv_strict : IconvLite :=
  {| iconv_decode := sjis_katakana true; iconv_encode := fun s => s |}.

(** [he.decode] on texts without [&], which it leaves as they are. *)
Definition entities_plain : Entities :=
  {| he_decode := fun s => Returns s; qsUnescape := fun s => s |}.

(** An [he.decode] that throws on every text: the decoder then runs on
    the fallback of [querystring.parse] alone. *)
Definition entities_throwing : Entities :=
  {| he_decode := fun _ => Throws; qsUnescape := fun s => s |}.

(** A runtime whose only values are strings. *)
Definition runtime_strings : JsRuntime :=
  {| jsvalue := jsstring;
     Number_ := fun s => s;
     JSON_parse := fun s => Returns s;
     get_prop := fun v _ => Returns v;
     truthy := fun v => negb (is_empty v);
     typeof_object := fun _ => false;
     String_ := fun v => v;
     JSON_stringify := fun v => Returns v |}.

(** A runtime with [undefined], strings, and objects of which only the
    JSON text and the [id], when there is one, are kept. *)
Inductive sample_value :=
| Undefined
| Text (s : jsstring)
| Object (json : jsstring) (id : option jsstring).

Definition runtime_objects : JsRuntime :=
  {| jsvalue := sample_value;
     Number_ := Text;
     JSON_parse := fun s =>
       if jsstring_eqb s (js "{}") then Returns (Object s None)
       else Returns (Object s (Some s));
     get_prop := fun v _ =>
       match v with
       | Undefined => Throws
       | Text _ => Returns Undefined
       | Object _ (Some id) => Returns (Text id)
       | Object _ None => Returns Undefined
       end;
     truthy := fun v =>
       match v with
       | Undefined => false
       | Text s => negb (is_empty s)
       | Object _ _ => true
       end;
     typeof_object := fun v =>
       match v with Object _ _ => true | _ => false end;
     String_ := fun v =>
       match v with
       | Undefined => js "undefined"
       | Text s => s
       | Object _ _ => js "[object Object]"
       end;
     JSON_stringify := fun v =>
       match v with
       | Undefined => Throws
       | Text s => Returns (dq ++ s ++ dq)
       | Object json _ => Returns json
       end |}.

(** A digest that keeps 32 bytes of its input; it is not SHA-256. *)
Definition crypto_firstn : Crypto :=
  {| TextEncoder_encode := fun s => map (fun c => Z.land c 0xFF) s;
     subtle_digest_SHA256 := fun bs => firstn 32 (bs ++ repeat 0 32) |}.

(** ** Vocabulary of the properties *)

(** What the catch block hands over: every byte on its own. *)
Definition passthrough (bs : Buffer) : jsstring :=
  flat_map (fun b => toString_utf8 [b]) bs.

(** The field of the end-to-end scenario: the title as percent-escaped
    Shift_JIS around the four UTF-8 bytes of U+1F389. *)
Definition emoji_field : jsstring :=
  bytes_of "%83e" ++ [0xF0; 0x9F; 0x8E; 0x89] ++ bytes_of "%83g".

(** The values a key has received, in order. *)
Definition values_of (name : jsstring) (pairs : list (jsstring * jsstring))
    : list jsstring :=
  map snd (filter (fun p => jsstring_eqb (fst p) name) pairs).

Definition last_value (vs : list jsstring) : option jsstring :=
  match rev vs with
  | v :: _ => Some v
  | [] => None
  end.

(** What a property becomes when one more value arrives for its key. *)
Definition push (cur : option qsvalue) (v : jsstring) : qsvalue :=
  match cur with
  | None => QString v
  | Some (QArray l) => QArray (l ++ [v])
  | Some (QString c) => QArray [c; v]
  end.

Definition store_all (obj : qsobject) (pairs : list (jsstring * jsstring))
    : qsobject :=
  fold_left (fun o p => store_value o (fst p) (snd p)) pairs obj.

Section DecodedPairs.
Context {I : IconvLite} {E : Entities}.

(** The text [addKeyValue] stores for a raw key or value. *)
Definition decoded (s : jsstring) : jsstring :=
  match decode_nonempty s with
  | Returns r => r
  | Throws => s
  end.

(** The pairs of a body, decoded, in order. *)
Definition decoded_pairs (qs : jsstring) : list (jsstring * jsstring) :=
  map (fun p => (decoded (fst p), decoded (snd p))) (raw_pairs qs).

(** C2 as it is worded, at one body: decoding returns a mapping, and no
    field of the body is left out of it: every segment between two [&]
    that is not empty has its decoded key in the mapping. *)
Definition no_field_is_rejected (buffer : Buffer) : Prop :=
  exists fields,
    decodedFields buffer = Returns fields
    /\ forall seg k v,
         In seg (split_on 0x26 (toString_latin1 buffer)) ->
         segment_pair seg = Some (k, v) ->
         obj_get fields (decoded k) <> None.

(** C4 as the spec words it, at one body and one field name: the field
    holds the value of the last pair of that name. *)
Definition last_occurrence_wins (buffer : Buffer) (name : jsstring) : Prop :=
  forall fd,
    formData buffer = Returns fd ->
    params_get fd name
    = option_map toUSVString
        (last_value (values_of name (decoded_pairs (toString_latin1 buffer)))).
End DecodedPairs.

(** [hay] has [needle] as a substring. *)
Definition contains (needle hay : jsstring) : Prop :=
  exists pre post, hay = pre ++ needle ++ post.

(** The redirect of a success page: a refresh after two seconds. *)
Definition metaRefresh (url : jsstring) : jsstring :=
  js "<meta http-equiv=" ++ dq ++ js "refresh" ++ dq
  ++ js " content=" ++ dq ++ js "2;URL=" ++ url ++ dq ++ js ">".

(** [components[key]?.value]: the value of a component, when the component
    is there and has one. *)
Definition component_value {J : JsRuntime} (components : Components)
    (key : jsstring) : option jsvalue :=
  match components_get components key with
  | Some component => value component
  | None => None
  end.

(** The requests among the effects of a handler. *)
Definition api_calls {J : JsRuntime} (tr : list Effect) : list ApiRequest :=
  flat_map (fun e => match e with ApiCall r => [r] | CookiesSet _ => [] end) tr.

Section DispatchClaim.
Context {I : IconvLite} {E : Entities} {J : JsRuntime}.
Variable backend : ApiRequest -> outcome ApiResponse.
Variable PUBLIC_API_BASE_URL : jsstring.

(** The requests POST sends for a request, from no effects. *)
Definition requests_of_POST (request : Request) : list ApiRequest :=
  api_calls (snd (POST backend PUBLIC_API_BASE_URL request [])).

(** C9 as it is worded, at one request: with a subject the first request
    goes to the posts endpoint and carries the subject as title; without
    one and with a key the first request is the lookup by timestamp. *)
Definition subject_decides_route (request : Request) : Prop :=
  forall fd,
    formData (arrayBuffer request) = Returns fd ->
    (field fd "subject" <> [] ->
     exists rest,
       requests_of_POST request
       = threadRequest PUBLIC_API_BASE_URL request (field fd "bbs")
           (field fd "subject") (field fd "MESSAGE") (field fd "FROM")
           (fingerprintOf request) :: rest)
    /\ (field fd "subject" = [] -> field fd "key" <> [] ->
        exists rest,
          requests_of_POST request
          = lookupRequest PUBLIC_API_BASE_URL request (field fd "bbs")
              (field fd "key") :: rest).
End DispatchClaim.

(** A request that carries nothing but its body. *)
Definition bare_request (body : string) : Request :=
  {| x_forwarded_for := None;
     x_real_ip := None;
     user_agent := None;
     cookies_getAll := [];
     arrayBuffer := bytes_of body;
     url_origin := js "https://at.st" |}.

(** C10 as it is worded: the escaped field has no raw [<], no LF and no
    CR. *)
Definition no_raw_lt_or_newline (s : jsstring) : Prop :=
  ~ In 0x3C s /\ ~ In 0xA s /\ ~ In 0xD s.

(** The escaper in one pass, as the amended C10 words it: [&] becomes
    [&amp;], [<] becomes [&lt;], an LF becomes a space, a CR with the LF
    that follows it becomes one space, and everything else, a CR that no
    LF follows included, stays. *)
Fixpoint escape_in_one_pass (t : jsstring) : jsstring :=
  match t with
  | [] => []
  | c :: r =>
      if c =? 0x26 then js "&amp;" ++ escape_in_one_pass r
      else if c =? 0x3C then js "&lt;" ++ escape_in_one_pass r
      else if c =? 0xA then js " " ++ escape_in_one_pass r
      else if c =? 0xD then
        match r with
        | d :: r' =>
            if d =? 0xA then js " " ++ escape_in_one_pass r'
            else c :: escape_in_one_pass r
        | [] => [c]
        end
      else c :: escape_in_one_pass r
  end.

(** The three passes of the source, without the test for the empty text. *)
Definition three_passes (t : jsstring) : jsstring :=
  replace_newlines (js " ")
    (replace_char 0x3C (js "&lt;") (replace_char 0x26 (js "&amp;") t)).

(* ===================================================================== *)
(** * Part I, continued: the rest of the files                            *)
(* ===================================================================== *)

(** The other functions of the files above, and the code that calls them:
      - [$lib/server/monacoin] (src/unnamed/part_003): generateBbsmenuHtml,
        generateSubjectTxt, generateSettingTxt, createFallbackBoard,
        formatDatDate, formatDatLine, generateDat, and getLevelDisplayString
        of [$lib/levelDisplay];
      - the read endpoints that call them: GET of subject.txt
        (src/unnamed/part_006), of SETTING.TXT (src/unnamed/part_005) and of
        the dat files (src/frontend/src/routes/[boardId]/dat/[timestamp].dat);
      - [src/frontend/src/lib/utils/html.ts] (fixDoubleEscaping,
        decodeHtmlEntities) and escapeHtml of the board menu
        (src/frontend/src/routes/boards/bbsmenu.html/+server.ts).

    The threads, comments and boards are read as the interfaces [Post],
    [Comment] and [Board] (src/unnamed/part_001) declare them: a field
    that holds a text holds a text or nothing, a field that holds a number
    holds an integer or nothing. *)

(** ** What a client sends: percent-encoding

    The form bodies the decoder receives are written by the clients.  A
    client writes a byte either as it is or as [%] and its two hexadecimal
    digits, in either case; [keep] says which bytes it writes as they
    are. *)

Definition hex_digit_upper (d : Z) : Z :=
  if d <? 10 then 0x30 + d else 0x41 + (d - 10).

Definition percent_encode_byte (upper : bool) (b : Z) : Buffer :=
  let digit := if upper then hex_digit_upper else hex_digit in
  [0x25; digit (b / 16); digit (b mod 16)].

Definition percent_encode (keep : Z -> bool) (upper : bool) (bs : Buffer)
    : Buffer :=
  flat_map (fun b => if keep b then [b] else percent_encode_byte upper b) bs.

Definition is_byte (b : Z) : Prop := 0 <= b < 256.

Definition is_lower_hex (c : Z) : bool :=
  ((0x30 <=? c) && (c <=? 0x39)) || ((0x61 <=? c) && (c <=? 0x66)).

(** [String(n)] for an integer. *)
Definition Integer_toString (z : Z) : jsstring :=
  if z <? 0 then 0x2D :: Number_toString (- z) else Number_toString z.

(** What a branch of POST hands back, when it returns: a page with the
    status 400 of the gateway's own errors; or an error page with the
    status of an answer of the backend that was 400 or more, as [Response]
    keeps it; or the success page after a creating request that the
    backend answered below 400. *)
Definition answers_truthfully {J : JsRuntime}
    (backend : ApiRequest -> outcome ApiResponse)
    (out : outcome Response) (tr : list Effect) : Prop :=
  match out with
  | Throws => True
  | Returns r =>
      headers r = html_headers
      /\ 200 <= status r <= 599
      /\ (status r = 400
          \/ (exists req resp,
                In req (api_calls tr)
                /\ backend req = Returns resp /\ 400 <= statusCode resp
                /\ status r = statusCode resp mod 65536)
          \/ (status r = 200
              /\ exists req resp,
                   In req (api_calls tr) /\ req_method req = POST_
                   /\ backend req = Returns resp /\ statusCode resp < 400))
  end.

(** ** The text generators of [$lib/server/monacoin] *)

(** [x || d] for a text that may be [null] or [undefined]. *)
Definition or_default (x : option jsstring) (d : jsstring) : jsstring :=
  match x with
  | Some s => if is_empty s then d else s
  | None => d
  end.

(** How often a character occurs in a text. *)
Definition occurrences (c : Z) (s : jsstring) : nat :=
  List.length (filter (Z.eqb c) s).

(** A thread or a comment as the generators read it ([Post | Comment]).
    [created_at] is the time value [new Date(created_at).getTime()], in
    milliseconds, which is an integer of at most 8.64e15 in absolute
    value; [None] is NaN, the invalid date.  The levels are numbers or
    [null]. *)
Record Entity := {
  author_name : option jsstring;
  entity_body : option jsstring;
  created_at : option Z;
  display_user_id : option jsstring;
  level_at_creation : option Z;
  level : option Z;
  is_current_level_hidden : bool
}.

(** The [id] of a thread: a number, or something else, of which only what
    a template prints for it is used. *)
Inductive PostId :=
  | NumberId (n : Z)
  | OtherId (printed : jsstring).

(** A thread: [post_title] is [None] when [title] is not a string,
    [response_count] when it is [null] or [undefined]. *)
Record Post := {
  post_entity : Entity;
  post_id : PostId;
  post_title : option jsstring;
  response_count : option Z
}.

(** [Math.floor(new Date(created_at).getTime() / 1000)], and its text. *)
Definition timestamp_of (e : Entity) : option Z :=
  option_map (fun ms => ms / 1000) (created_at e).

Definition Number_or_NaN_toString (n : option Z) : jsstring :=
  match n with
  | Some z => Integer_toString z
  | None => js "NaN"
  end.

(** [getLevelDisplayString] ($lib/levelDisplay). *)
Definition getLevelDisplayString (entity : option Entity) : jsstring :=
  match entity with
  | None => []
  | Some entity =>
      match level_at_creation entity with
      | None => []
      | Some created =>
          let baseDisplay := js "Lv:" ++ Integer_toString created in
          match level entity with
          | Some current =>
              if negb (current =? created)
              then baseDisplay ++ js "→" ++ Integer_toString current
              else if is_current_level_hidden entity
                   then baseDisplay ++ js "→?"
                   else baseDisplay
          | None =>
              if is_current_level_hidden entity
              then baseDisplay ++ js "→?"
              else baseDisplay
          end
      end
  end.

(** The line of a thread in subject.txt. *)
Definition subjectLine (post : Post) : jsstring :=
  let timestamp := timestamp_of (post_entity post) in
  let responseCount :=
    match response_count post with Some n => n | None => 1 end in
  Number_or_NaN_toString timestamp ++ js ".dat<>"
  ++ escapeDatField (post_title post)
  ++ js " (" ++ Integer_toString responseCount ++ js ")".

(** The filter of [generateSubjectTxt]: the entry is not [null], its [id]
    is a number and its [title] a string. *)
Definition kept_posts (posts : list (option Post)) : list Post :=
  flat_map
    (fun entry =>
       match entry with
       | Some post =>
           match post_id post, post_title post with
           | NumberId _, Some _ => [post]
           | _, _ => []
           end
       | None => []
       end) posts.

(** [generateSubjectTxt], lines 64-84. *)
Definition generateSubjectTxt (posts : list (option Post)) : jsstring :=
  join [0xA] (map subjectLine (kept_posts posts)) ++ [0xA].

(** A board as the generators read it. *)
Record Board := {
  board_id : Z;
  board_name : option jsstring;
  board_default_name : option jsstring;
  board_description : option jsstring
}.

(** [generateBbsmenuHtml], lines 45-57. *)
Definition generateBbsmenuHtml (boards : list Board) : jsstring :=
  let boardLinks :=
    join (js "<br>" ++ [0xA])
      (map (fun board =>
              js "<A HREF=" ++ dq ++ js "/boards/"
              ++ Integer_toString (board_id board) ++ js "/" ++ dq ++ js ">"
              ++ escapeDatField (board_name board) ++ js "</A>") boards) in
  let body := js "<B>カテゴリ</B><br>" ++ [0xA] ++ boardLinks in
  js "<HTML><HEAD><TITLE>BBS MENU</TITLE></HEAD><BODY>" ++ body
  ++ js "</BODY></HTML>".

(** [generateSettingTxt], lines 92-116. *)
Definition settingsOf (board : Board) : list (jsstring * jsstring) :=
  [(js "BBS_TITLE",
    or_default (board_name board)
      (js "名称未設定の板: " ++ Integer_toString (board_id board)));
   (js "BBS_NONAME_NAME", or_default (board_default_name board) (js "野球民"));
   (js "BBS_LINE_NUMBER", js "20");
   (js "BBS_SUBJECT_COUNT", js "400");
   (js "BBS_NAME_COUNT", js "40");
   (js "BBS_MAIL_COUNT", js "20");
   (js "BBS_MESSAGE_COUNT", js "3000")].

Definition generateSettingTxt (board : Board) : jsstring :=
  join [0xA] (map (fun kv => fst kv ++ js "=" ++ snd kv) (settingsOf board))
  ++ [0xA].

(** [parseInt(s, 10)]: no prefix is stripped; [None] is NaN.  The value is
    the integer the digits write; [parseInt] gives the double next to it,
    which is that integer up to 2^53. *)
Fixpoint parse_decimal_prefix (acc : option Z) (s : jsstring) : option Z :=
  match s with
  | c :: r =>
      if is_digit c then
        parse_decimal_prefix
          (Some (10 * (match acc with Some a => a | None => 0 end)
                 + (c - 0x30))) r
      else acc
  | [] => acc
  end.

Definition parseInt10 (s : jsstring) : option Z :=
  let s1 := trim_start s in
  let sign := match s1 with c :: _ => if c =? 0x2D then -1 else 1 | [] => 1 end in
  let s2 := match s1 with
            | c :: r => if (c =? 0x2D) || (c =? 0x2B) then r else s1
            | [] => s1
            end in
  option_map (Z.mul sign) (parse_decimal_prefix None s2).

(** [createFallbackBoard], lines 124-144: the fields the generators
    read. *)
Definition createFallbackBoard (boardId : jsstring) : Board :=
  {| board_id := match parseInt10 boardId with
                 | Some n => if n =? 0 then 0 else n
                 | None => 0
                 end;
     board_name := Some (js "（板が見つかりません）");
     board_default_name := Some (js "野球民");
     board_description :=
       Some (js "この板は存在しないか、取得できませんでした。") |}.

(** ** [formatDatDate], [formatDatLine] and [generateDat] *)

(** [Date.prototype.toLocaleString('ja-JP', { timeZone: 'Asia/Tokyo', ... })]
    with the options of [formatDatDate], on a time value. *)
Class Intl := {
  toLocaleString_ja_JP : option Z -> jsstring
}.

(** An element of a destructured array in a template: the text
    [undefined] when the array is too short. *)
Definition element_text (l : list jsstring) (n : nat) : jsstring :=
  nth n l (js "undefined").

(** [s.padStart(n, '0')] *)
Definition padStart0 (n : nat) (s : jsstring) : jsstring :=
  repeat 0x30 (n - List.length s) ++ s.

(** [utcDate.getMilliseconds().toString().padStart(3, '0').slice(0, 2)] *)
Definition centiseconds_text (time : option Z) : jsstring :=
  let milliseconds :=
    match time with
    | Some ms => Number_toString (ms mod 1000)
    | None => js "NaN"
    end in
  firstn 2 (padStart0 3 milliseconds).

(** [formatDatDate], lines 168-188.  It throws when the locale text has no
    space: [timePart] is then [undefined]. *)
Definition formatDatDate {L : Intl} (utcDate : option Z) : outcome jsstring :=
  let jstString := toLocaleString_ja_JP utcDate in
  let parts := split_on 0x20 jstString in
  let datePart := nth 0 parts [] in
  match nth_error parts 1 with
  | None => Throws
  | Some timePart =>
      let dateParts := split_on 0x2F datePart in
      let timeParts := split_on 0x3A timePart in
      Returns
        (element_text dateParts 0 ++ js "/" ++ element_text dateParts 1
         ++ js "/" ++ element_text dateParts 2 ++ js " "
         ++ element_text timeParts 0 ++ js ":" ++ element_text timeParts 1
         ++ js ":" ++ element_text timeParts 2 ++ js "."
         ++ centiseconds_text utcDate)
  end.

(** [s] without the prefix [p], when it has it. *)
Fixpoint strip_prefix (p s : jsstring) : option jsstring :=
  match p, s with
  | [], _ => Some s
  | x :: p', y :: s' => if x =? y then strip_prefix p' s' else None
  | _ :: _, [] => None
  end.

(** The longest prefix without [&], and what follows it. *)
Fixpoint span_not_amp (s : jsstring) : jsstring * jsstring :=
  match s with
  | [] => ([], [])
  | c :: r =>
      if c =? 0x26 then ([], s)
      else let '(x, rest) := span_not_amp r in (c :: x, rest)
  end.

(** A match, at the head of [s], of the pattern of line 232: [&lt;], an
    optional slash, [a] or [br], any characters but [&], then [&gt;].  It
    gives the text of group 1 and what follows the match. *)
Definition match_escaped_tag (s : jsstring) : option (jsstring * jsstring) :=
  match strip_prefix (js "&lt;") s with
  | None => None
  | Some s1 =>
      let '(slash, s2) :=
        match s1 with
        | c :: r => if c =? 0x2F then ([0x2F], r) else ([], s1)
        | [] => ([], s1)
        end in
      let name :=
        match s2 with
        | a :: r =>
            if a =? 0x61 then Some ([0x61], r)
            else match r with
                 | b :: r' =>
                     if (a =? 0x62) && (b =? 0x72)
                     then Some ([0x62; 0x72], r') else None
                 | [] => None
                 end
        | [] => None
        end in
      match name with
      | None => None
      | Some (tag, s3) =>
          let '(attributes, s4) := span_not_amp s3 in
          match strip_prefix (js "&gt;") s4 with
          | Some rest => Some (slash ++ tag ++ attributes, rest)
          | None => None
          end
      end
  end.

(** The replacement of line 232, of every such match by [<], group 1 and
    [>]; the fuel is the length of the text. *)
Fixpoint decode_tags_upto (fuel : nat) (s : jsstring) : jsstring :=
  match fuel with
  | O => s
  | S fuel' =>
      match s with
      | [] => []
      | c :: r =>
          match match_escaped_tag s with
          | Some (group1, rest) =>
              js "<" ++ group1 ++ js ">" ++ decode_tags_upto fuel' rest
          | None => c :: decode_tags_upto fuel' r
          end
      end
  end.

Definition decode_tags (s : jsstring) : jsstring :=
  decode_tags_upto (List.length s) s.

(** [s.replace(/pat/g, by)] for a pattern that is a text with at least one
    character. *)
Fixpoint replace_text_upto (fuel : nat) (pat by_ s : jsstring) : jsstring :=
  match fuel with
  | O => s
  | S fuel' =>
      match s with
      | [] => []
      | c :: r =>
          match strip_prefix pat s with
          | Some rest => by_ ++ replace_text_upto fuel' pat by_ rest
          | None => c :: replace_text_upto fuel' pat by_ r
          end
      end
  end.

Definition replace_text (pat by_ s : jsstring) : jsstring :=
  replace_text_upto (List.length s) pat by_ s.

(** One [br] tag of the pattern of line 238, without regard to case: [<br],
    white space, an optional slash, [>], white space.  It gives what
    follows. *)
Definition match_br (s : jsstring) : option jsstring :=
  match s with
  | lt :: b :: r :: s1 =>
      if (lt =? 0x3C) && ((b =? 0x62) || (b =? 0x42))
         && ((r =? 0x72) || (r =? 0x52)) then
        let s2 := trim_start s1 in
        let s3 := match s2 with
                  | c :: t => if c =? 0x2F then t else s2
                  | [] => s2
                  end in
        match s3 with
        | c :: t => if c =? 0x3E then Some (trim_start t) else None
        | [] => None
        end
      else None
  | _ => None
  end.

(** As many [<br>] in a row as there are: their number and what follows
    them. *)
Fixpoint match_brs (fuel : nat) (s : jsstring) : nat * jsstring :=
  match fuel with
  | O => (O, s)
  | S fuel' =>
      match match_br s with
      | Some rest =>
          let '(n, after) := match_brs fuel' rest in (S n, after)
      | None => (O, s)
      end
  end.

(** The replacement of line 238: two [br] tags or more in a row become
    one [<br>]. *)
Fixpoint collapse_brs_upto (fuel : nat) (s : jsstring) : jsstring :=
  match fuel with
  | O => s
  | S fuel' =>
      match s with
      | [] => []
      | c :: r =>
          let '(n, after) := match_brs (List.length s) s in
          if (2 <=? n)%nat then js "<br>" ++ collapse_brs_upto fuel' after
          else c :: collapse_brs_upto fuel' r
      end
  end.

Definition collapse_brs (s : jsstring) : jsstring :=
  collapse_brs_upto (List.length s) s.

(** The content of a dat line, lines 230-238. *)
Definition datContent (body : option jsstring) : jsstring :=
  let content := or_empty body in
  let content := decode_tags content in
  let content := replace_text (js "&amp;") (js "&") content in
  let content := replace_newlines (js "<br>") content in
  collapse_brs content.

(** The name and the id of a dat line, lines 201-222. *)
Definition datNameAndId (entity : Entity) : jsstring * jsstring :=
  let name := escapeDatField (Some (or_default (author_name entity)
                                      (js "名無しさん"))) in
  let idParts := split_on 0x2D (or_empty (display_user_id entity)) in
  if (List.length idParts =? 3)%nat then
    (name ++ js " (" ++ element_text idParts 1 ++ js "-"
     ++ element_text idParts 2 ++ js ")",
     element_text idParts 0)
  else
    (name ++ js " (" ++ or_default (display_user_id entity) (js "????")
     ++ js ")",
     js "????").

(** [title ? escapeDatField(title) : ''] *)
Definition escapedTitle (title : option jsstring) : jsstring :=
  match title with
  | Some t => if is_empty t then [] else escapeDatField title
  | None => []
  end.

(** [formatDatLine], lines 196-242. *)
Definition formatDatLine {L : Intl} (entity : Entity) (title : option jsstring)
    : outcome jsstring :=
  let '(name, idForDate) := datNameAndId entity in
  let mail := getLevelDisplayString (Some entity) in
  date <- formatDatDate (created_at entity) ;;
  let dateAndId := date ++ js " ID:" ++ idForDate in
  let content := datContent (entity_body entity) in
  Returns (name ++ js "<>" ++ mail ++ js "<>" ++ dateAndId ++ js "<> "
           ++ content ++ js " <>" ++ escapedTitle title).

Fixpoint formatDatLines {L : Intl} (comments : list Entity)
    : outcome (list jsstring) :=
  match comments with
  | [] => Returns []
  | comment :: rest =>
      line <- formatDatLine comment None ;;
      lines <- formatDatLines rest ;;
      Returns (line :: lines)
  end.

(** [generateDat], lines 250-257. *)
Definition generateDat {L : Intl} (post : Post) (comments : list Entity)
    : outcome jsstring :=
  postLine <- formatDatLine (post_entity post) (post_title post) ;;
  commentLines <- formatDatLines comments ;;
  Returns (join [0xA] (postLine :: commentLines) ++ [0xA]).

(** What follows a match is the end of the text that was matched. *)
Definition ends_with (s rest : jsstring) : Prop :=
  exists before, s = before ++ rest.

(** A locale text that does not depend on the date, to run the
    definitions. *)
Definition intl_fixed : Intl :=
  {| toLocaleString_ja_JP := fun _ => js "2024/07/27(土) 15:00:00" |}.

(** A comment and a thread, to run the definitions. *)
Definition sample_comment : Entity :=
  {| author_name := None;
     entity_body := Some (js "&gt;&gt;1" ++ [0xD; 0xA; 0xA] ++ js "ok");
     created_at := Some 1722060000123;
     display_user_id := Some (js "abcd-efgh-ijkl");
     level_at_creation := Some 3;
     level := Some 4;
     is_current_level_hidden := false |}.

Definition sample_post : Post :=
  {| post_entity :=
       {| author_name := Some (js "a<b");
          entity_body := Some (js "first" ++ [0xA] ++ js "&lt;a href=x&gt;x&lt;/a&gt;");
          created_at := Some 1722059000000;
          display_user_id := None;
          level_at_creation := None;
          level := None;
          is_current_level_hidden := false |};
     post_id := NumberId 7;
     post_title := Some (js "title" ++ [0xA] ++ js "<>");
     response_count := Some 2 |}.

(** ** [Headers] as the runtime checks them *)

Definition is_http_whitespace (c : Z) : bool :=
  (c =? 0x9) || (c =? 0xA) || (c =? 0xD) || (c =? 0x20).

Fixpoint strip_leading (s : jsstring) : jsstring :=
  match s with
  | c :: r => if is_http_whitespace c then strip_leading r else s
  | [] => []
  end.

Definition strip_http_whitespace (s : jsstring) : jsstring :=
  rev (strip_leading (rev (strip_leading s))).

(** The value that [headers.set] or [headers.append] stores.  The text is
    turned into a byte string, a TypeError when a code unit is above 255;
    the tabs, line feeds, carriage returns and spaces at its two ends are
    taken off; what is left must have no NUL, no line feed and no carriage
    return, a TypeError otherwise. *)
Definition header_value (value : jsstring) : outcome jsstring :=
  if forallb (fun c => c <=? 255) value then
    let normalized := strip_http_whitespace value in
    if forallb (fun c => negb ((c =? 0) || (c =? 0xA) || (c =? 0xD)))
         normalized
    then Returns normalized
    else Throws
  else Throws.

Fixpoint header_values (values : list jsstring) : outcome (list jsstring) :=
  match values with
  | [] => Returns []
  | value :: rest =>
      v <- header_value value ;;
      vs <- header_values rest ;;
      Returns (v :: vs)
  end.

(** [createSjisResponse], lines 14-38, with the checks of [Headers] and
    of [new Response], which [createSjisResponse] above leaves out. *)
Definition createSjisResponse_checked {I : IconvLite}
    (text contentType : jsstring) (status_ : Z)
    (setCookieHeaders : list jsstring) : outcome Response :=
  let encodedBody := iconv_encode text in
  let contentLength := Number_toString (Z.of_nat (List.length encodedBody)) in
  ct <- header_value (contentType ++ js "; charset=Shift_JIS") ;;
  cl <- header_value contentLength ;;
  cs <- header_values setCookieHeaders ;;
  new_Response encodedBody status_
    ([(js "Content-Type", ct); (js "Content-Length", cl)]
     ++ map (fun cookie => (js "set-cookie", cookie)) cs).

(** ** The read endpoints: subject.txt, SETTING.TXT and the dat files *)

(** What [fetch] resolved to.  The status is an unsigned short; [ok] is
    that it is within 200..299; reading the body may be rejected. *)
Record Fetched := {
  fetched_status : Z;
  fetched_text : outcome jsstring
}.

Definition fetched_ok (r : Fetched) : bool :=
  (200 <=? fetched_status r) && (fetched_status r <=? 299).

(** The backend as the read endpoints see it.  [fetch] is rejected or
    resolves.  The three readers are [JSON.parse] followed by the reading
    of the value that the handlers and the generators do:
    - [posts_of_json] throws when the text is not JSON or the value is no
      array; an entry that is [null] is [None];
    - [comments_of_json] is [commentsData.map((item) => item.comment)]; it
      throws when the value is no array and when an item or its comment is
      [null] or [undefined], which makes [generateDat] throw in the same
      [try];
    - [board_of_json] is [JSON.parse(responseText).board]; [None] when it
      is [null] or [undefined].
    The readers give the values as the interfaces [Post], [Comment] and
    [Board] of the source type them, which the source does not check: an
    answer in which a field has another type (a board whose [name] is an
    array, say) is outside these definitions. *)
Class Upstream := {
  fetch : jsstring -> outcome Fetched;
  posts_of_json : jsstring -> outcome (list (option Post));
  comments_of_json : jsstring -> outcome (list Entity);
  board_of_json : jsstring -> outcome (option Board)
}.

(** A handler runs with the [Cache-Control] that [setHeaders] has set so
    far; [setHeaders] throws when the header is set already. *)
Definition Handler (A : Type) : Type :=
  option jsstring -> outcome A * option jsstring.

Definition hret {A} (a : A) : Handler A := fun cache => (Returns a, cache).

Definition hbind {A B} (c : Handler A) (k : A -> Handler B) : Handler B :=
  fun cache =>
    match c cache with
    | (Returns a, cache') => k a cache'
    | (Throws, cache') => (Throws, cache')
    end.

Definition hlift {A} (c : outcome A) : Handler A := fun cache => (c, cache).

Definition try_catchH {A} (c : Handler A) (h : Handler A) : Handler A :=
  fun cache =>
    match c cache with
    | (Returns a, cache') => (Returns a, cache')
    | (Throws, cache') => h cache'
    end.

Definition setHeaders (cacheControl : jsstring) : Handler unit :=
  fun cache =>
    match cache with
    | None => (Returns tt, Some cacheControl)
    | Some _ => (Throws, cache)
    end.

(** [s.replace(pat, by)] for a pattern that is a text: the first
    occurrence only. *)
Fixpoint replace_first (pat by_ s : jsstring) : jsstring :=
  match strip_prefix pat s with
  | Some rest => by_ ++ rest
  | None =>
      match s with
      | [] => []
      | c :: r => c :: replace_first pat by_ r
      end
  end.

(** [`${post.id}`] *)
Definition id_text (post : Post) : jsstring :=
  match post_id post with
  | NumberId n => Integer_toString n
  | OtherId printed => printed
  end.

(** [parseInt(timestamp.replace('.dat', ''), 10)]; [None] is NaN. *)
Definition requestedTimestamp (timestamp : jsstring) : option Z :=
  parseInt10 (replace_first (js ".dat") [] timestamp).

(** [posts.find((p) => Math.floor(new Date(p.created_at).getTime() / 1000)
    === requestedTimestamp)]: the first thread with the timestamp; reading
    an entry that is [null] throws. *)
Fixpoint find_post (requested : Z) (posts : list (option Post))
    : outcome (option Post) :=
  match posts with
  | [] => Returns None
  | None :: _ => Throws
  | Some p :: rest =>
      match timestamp_of (post_entity p) with
      | Some t => if t =? requested then Returns (Some p)
                  else find_post requested rest
      | None => find_post requested rest
      end
  end.

(** [posts[0].title], which the subject.txt handler logs when the array is
    not empty. *)
Definition first_title (posts : list (option Post)) : outcome unit :=
  match posts with
  | None :: _ => Throws
  | _ => Returns tt
  end.

Section ReadEndpoints.
Context {I : IconvLite} {L : Intl} {U : Upstream}.
Variable PUBLIC_API_BASE_URL : jsstring.

Local Notation "x <~ c ;; k" := (hbind c (fun x => k))
  (at level 61, c at next level, right associativity).

(** GET of [[boardId]/subject.txt]. *)
Definition GET_subject (boardId : jsstring) : Handler Response :=
  try_catchH
    (postsRes <~ hlift (fetch (PUBLIC_API_BASE_URL ++ js "/boards/"
                               ++ boardId ++ js "/posts")) ;;
     _ <~ setHeaders (js "public, max-age=60, s-maxage=60") ;;
     if negb (fetched_ok postsRes) then
       hlift (createSjisResponse_checked [] (js "text/plain") 200 [])
     else
       responseText <~ hlift (fetched_text postsRes) ;;
       posts <~ hlift (posts_of_json responseText) ;;
       _ <~ hlift (first_title posts) ;;
       hlift (createSjisResponse_checked (generateSubjectTxt posts)
                (js "text/plain") 200 []))
    (hlift (createSjisResponse_checked [] (js "text/plain") 200 [])).

(** GET of [[boardId]/SETTING.TXT]. *)
Definition GET_setting (boardId : jsstring) : Handler Response :=
  try_catchH
    (boardRes <~ hlift (fetch (PUBLIC_API_BASE_URL ++ js "/boards/"
                               ++ boardId)) ;;
     _ <~ setHeaders (js "public, max-age=300, s-maxage=300") ;;
     boardData <~
       (if negb (fetched_ok boardRes) then
          hret (Some (createFallbackBoard boardId))
        else
          responseText <~ hlift (fetched_text boardRes) ;;
          hlift (board_of_json responseText)) ;;
     match boardData with
     | None => hlift Throws
     | Some board =>
         hlift (createSjisResponse_checked (generateSettingTxt board)
                  (js "text/plain") 200 [])
     end)
    (hlift (createSjisResponse_checked
              (js "BBS_TITLE=サーバーエラー" ++ [0xA]) (js "text/plain") 500 [])).

(** GET of [[boardId]/dat/[timestamp].dat]. *)
Definition GET_dat (boardId timestamp : jsstring) : Handler Response :=
  match (if is_empty boardId then None else requestedTimestamp timestamp) with
  | None =>
      hlift (createSjisResponse_checked
               (js "エラー: 板IDまたはスレッドIDが指定されていません。" ++ [0xA])
               (js "text/plain") 400 [])
  | Some requested =>
      try_catchH
        (boardPostsRes <~ hlift (fetch (js "/api/boards/" ++ boardId
                                        ++ js "/posts")) ;;
         if negb (fetched_ok boardPostsRes) then
           hlift (createSjisResponse_checked
                    (js "エラー: 板のスレッド一覧が取得できませんでした (Code: "
                     ++ Integer_toString (fetched_status boardPostsRes)
                     ++ js ")" ++ [0xA])
                    (js "text/plain") (fetched_status boardPostsRes) [])
         else
           responseText <~ hlift (fetched_text boardPostsRes) ;;
           posts <~ hlift (posts_of_json responseText) ;;
           targetPost <~ hlift (find_post requested posts) ;;
           match targetPost with
           | None =>
               hlift (createSjisResponse_checked
                        (js "エラー: 指定されたスレッドが見つかりません。" ++ [0xA])
                        (js "text/plain") 404 [])
           | Some targetPost =>
               commentsRes <~ hlift (fetch (js "/api/posts/"
                                            ++ id_text targetPost
                                            ++ js "/comments")) ;;
               if negb (fetched_ok commentsRes) then
                 hlift (createSjisResponse_checked
                          (js "エラー: コメントの読み込みに失敗しました (Code: "
                           ++ Integer_toString (fetched_status commentsRes)
                           ++ js ")" ++ [0xA])
                          (js "text/plain") (fetched_status commentsRes) [])
               else
                 commentsText <~ hlift (fetched_text commentsRes) ;;
                 comments <~ hlift (comments_of_json commentsText) ;;
                 datText <~ hlift (generateDat targetPost comments) ;;
                 _ <~ setHeaders (js "public, max-age=60, s-maxage=60") ;;
                 hlift (createSjisResponse_checked datText
                          (js "text/plain") 200 [])
           end)
        (hlift (createSjisResponse_checked
                  (js "エラー: サーバー内部で問題が発生しました" ++ [0xA])
                  (js "text/plain") 500 []))
  end.
End ReadEndpoints.

(** A backend with one board and one thread, to run the definitions. *)
Definition upstream_sample : Upstream :=
  {| fetch := fun url =>
       if jsstring_eqb url (js "/api/boards/1/posts")
       then Returns {| fetched_status := 200; fetched_text := Returns (js "posts") |}
       else if jsstring_eqb url (js "/api/posts/7/comments")
       then Returns {| fetched_status := 200; fetched_text := Returns (js "comments") |}
       else Returns {| fetched_status := 404; fetched_text := Returns [] |};
     posts_of_json := fun text =>
       if jsstring_eqb text (js "posts") then Returns [Some sample_post]
       else Throws;
     comments_of_json := fun text =>
       if jsstring_eqb text (js "comments") then Returns [sample_comment]
       else Throws;
     board_of_json := fun _ => Throws |}.

(** ** [fixDoubleEscaping] and [decodeHtmlEntities] (lib/utils/html.ts),
       [escapeHtml] (boards/bbsmenu.html/+server.ts) *)

(** [escapeHtml], lines 45-51 of the board menu. *)
Definition escapeHtml (text : option jsstring) : jsstring :=
  match text with
  | None => []
  | Some t =>
      if is_empty t then []
      else replace_char 0x3E (js "&gt;")
             (replace_char 0x3C (js "&lt;")
                (replace_char 0x26 (js "&amp;") t))
  end.

(** [fixDoubleEscaping], lines 6-10. *)
Definition fixDoubleEscaping (html : option jsstring) : jsstring :=
  match html with
  | None => []
  | Some h =>
      if is_empty h then []
      else replace_text (js "&amp;amp;") (js "&amp;")
             (replace_text (js "&amp;lt;") (js "&lt;")
                (replace_text (js "&amp;gt;") (js "&gt;") h))
  end.

(** [decodeHtmlEntities], lines 18-27.  [document] is [None] on the
    server; in a browser it gives the value of a [textarea] whose
    [innerHTML] is the text. *)
Definition decodeHtmlEntities (document : option (jsstring -> jsstring))
    (text : option jsstring) : jsstring :=
  match text with
  | None => []
  | Some t =>
      if is_empty t then []
      else match document with
           | Some textarea_value => textarea_value t
           | None =>
               replace_text (js "&amp;") (js "&")
                 (replace_text (js "&#39;") (js "'")
                    (replace_text (js "&quot;") dq
                       (replace_text (js "&lt;") (js "<")
                          (replace_text (js "&gt;") (js ">") t))))
           end
  end.

(** The three characters [&], [<] and [>] replaced in one pass. *)
Definition escape_with (amp lt gt : jsstring) (t : jsstring) : jsstring :=
  flat_map (fun c => if c =? 0x26 then amp
                     else if c =? 0x3C then lt
                     else if c =? 0x3E then gt
                     else [c]) t.

(** Every [<] of the text is followed by [a], [b] or [/]. *)
Definition opens_tag (h : Z) : bool :=
  (h =? 0x61) || (h =? 0x62) || (h =? 0x2F).

Fixpoint lt_opens_tags (s : jsstring) : bool :=
  match s with
  | [] => true
  | c :: r =>
      (if c =? 0x3C
       then match r with
            | h :: _ => opens_tag h
            | [] => false
            end
       else true)
      && lt_opens_tags r
  end.

(* ===================================================================== *)
(** * Part II: properties                                                 *)
(* ===================================================================== *)

(** ** Lists, slices and strings *)

(** A character is not in a text that is given in full. *)
Ltac not_in_text :=
  let H := fresh "H" in
  intros H; vm_compute in H;
  repeat (destruct H as [H|H]; [discriminate|]); exact H.

Lemma jsstring_eqb_eq (a b : jsstring) : jsstring_eqb a b = true <-> a = b.
Proof.
  revert b; induction a as [|x a IH]; intros [|y b]; simpl; split;
    try congruence; try reflexivity.
  - intros H. apply andb_true_iff in H as [Hx Hab].
    apply Z.eqb_eq in Hx. apply IH in Hab. congruence.
  - intros H. injection H as -> ->.
    rewrite Z.eqb_refl. simpl. now apply IH.
Qed.

Lemma jsstring_eqb_refl (a : jsstring) : jsstring_eqb a a = true.
Proof. now apply jsstring_eqb_eq. Qed.

Lemma jsstring_eqb_neq (a b : jsstring) : jsstring_eqb a b = false <-> a <> b.
Proof.
  split.
  - intros H E. apply jsstring_eqb_eq in E. congruence.
  - intros H. destruct (jsstring_eqb a b) eqn:E; [|reflexivity].
    apply jsstring_eqb_eq in E. contradiction.
Qed.

Lemma slice_from_zero {A} (n : nat) (l : list A) : slice 0 n l = firstn n l.
Proof. unfold slice. now rewrite Nat.sub_0_r. Qed.

Lemma slice_to_end {A} (k : nat) (l : list A) :
  slice k (List.length l) l = skipn k l.
Proof.
  unfold slice. apply firstn_all2. rewrite length_skipn. lia.
Qed.

Lemma slice_empty {A} (k : nat) (l : list A) : slice k k l = [].
Proof. unfold slice. now rewrite Nat.sub_diag. Qed.

Lemma slice_one {A} (m : nat) (l : list A) :
  (m < List.length l)%nat -> exists b, slice m (S m) l = [b].
Proof.
  intros H. unfold slice. replace (S m - m)%nat with 1%nat by lia.
  destruct (skipn m l) as [|b r] eqn:E.
  - assert (List.length (skipn m l) = 0)%nat by now rewrite E.
    rewrite length_skipn in *. lia.
  - exists b. reflexivity.
Qed.

Lemma firstn_S_skipn {A} (n : nat) (l : list A) :
  firstn (S n) l = firstn n l ++ firstn 1 (skipn n l).
Proof.
  revert l; induction n as [|n IH]; intros [|x l]; try reflexivity.
  change (x :: firstn (S n) l = x :: firstn n l ++ firstn 1 (skipn n l)).
  now rewrite IH.
Qed.

Lemma skipn_plus {A} (a b : nat) (l : list A) :
  skipn a (skipn b l) = skipn (b + a) l.
Proof.
  revert l; induction b as [|b IH]; intros l; [reflexivity|].
  destruct l as [|x l]; simpl; [now rewrite skipn_nil | apply IH].
Qed.

Lemma slice_snoc {A} (k m : nat) (l : list A) :
  (k <= m)%nat ->
  slice k (S m) l = slice k m l ++ slice m (S m) l.
Proof.
  intros H. unfold slice.
  replace (S m - k)%nat with (S (m - k))%nat by lia.
  replace (S m - m)%nat with 1%nat by lia.
  rewrite firstn_S_skipn. f_equal.
  rewrite skipn_plus. now replace (k + (m - k))%nat with m by lia.
Qed.

(** ** Percent-unescaping *)

Lemma hex_digit_value_ascii (c d : Z) :
  hex_digit_value c = Some d -> Z.land c 0x7F = c /\ 0 <= d < 16.
Proof.
  unfold hex_digit_value.
  destruct ((0x30 <=? c) && (c <=? 0x39)) eqn:E1;
    [|destruct ((0x61 <=? c) && (c <=? 0x66)) eqn:E2;
      [|destruct ((0x41 <=? c) && (c <=? 0x46)) eqn:E3; [|discriminate]]];
    intros [= <-];
    match goal with
    | H : (_ && _) = true |- _ =>
        apply andb_true_iff in H as [Hl Hu];
        apply Z.leb_le in Hl; apply Z.leb_le in Hu
    end;
    (split; [|lia]);
    change 0x7F with (Z.ones 7); rewrite Z.land_ones by lia;
    change (2 ^ 7) with 128; apply Z.mod_small; lia.
Qed.

Lemma hex_digit_not_space (c d : Z) :
  hex_digit_value c = Some d ->
  is_StrWhiteSpaceChar c = false /\ (c =? 0x2D) = false /\ (c =? 0x2B) = false
  /\ (c =? 0x78) = false /\ (c =? 0x58) = false.
Proof.
  unfold hex_digit_value, is_StrWhiteSpaceChar.
  destruct ((0x30 <=? c) && (c <=? 0x39)) eqn:E1;
    [|destruct ((0x61 <=? c) && (c <=? 0x66)) eqn:E2;
      [|destruct ((0x41 <=? c) && (c <=? 0x46)) eqn:E3; [|discriminate]]];
    intros _;
    match goal with
    | H : (_ && _) = true |- _ =>
        apply andb_true_iff in H as [Hl Hu];
        apply Z.leb_le in Hl; apply Z.leb_le in Hu
    end;
    repeat split;
    repeat (apply orb_false_iff; split);
    try (apply Z.eqb_neq; lia);
    apply andb_false_iff; left; apply Z.leb_gt; lia.
Qed.

(** [parseInt] of two hexadecimal digits is their value. *)
Lemma parseInt16_two_digits (h l vh vl : Z) :
  hex_digit_value h = Some vh -> hex_digit_value l = Some vl ->
  parseInt16 [h; l] = Some (16 * vh + vl).
Proof.
  intros Hh Hl.
  destruct (hex_digit_not_space _ _ Hh) as (Hws & Hm & Hp & _).
  destruct (hex_digit_not_space _ _ Hl) as (_ & _ & _ & Hx & HX).
  unfold parseInt16. simpl trim_start. rewrite Hws.
  cbv beta iota zeta. rewrite Hm, Hp. simpl orb. cbv iota.
  rewrite Hx, HX. simpl orb. rewrite andb_false_r.
  cbn [parse_hex_prefix]. rewrite Hh. cbn [parse_hex_prefix]. rewrite Hl.
  cbn [parse_hex_prefix option_map]. f_equal. lia.
Qed.

(** A well-formed triplet [%XX] resolves to the byte 0xXX. *)
Lemma percent_unescape_triplet (h l vh vl : Z) (rest : Buffer) :
  hex_digit_value h = Some vh -> hex_digit_value l = Some vl ->
  percent_unescape (0x25 :: h :: l :: rest)
  = (16 * vh + vl) :: percent_unescape rest.
Proof.
  intros Hh Hl.
  destruct (hex_digit_value_ascii _ _ Hh) as [Ha _].
  destruct (hex_digit_value_ascii _ _ Hl) as [Hb _].
  change (percent_unescape (0x25 :: h :: l :: rest))
    with (match parseInt16 (toString_ascii 0 2 [h; l]) with
          | Some byte => byte :: percent_unescape rest
          | None => 0x25 :: percent_unescape (h :: l :: rest)
          end).
  unfold toString_ascii, slice. simpl firstn. simpl map.
  rewrite Ha, Hb.
  now rewrite (parseInt16_two_digits h l vh vl Hh Hl).
Qed.

(** A byte other than [%] passes through. *)
Lemma percent_unescape_literal (b : Z) (rest : Buffer) :
  b <> 0x25 -> percent_unescape (b :: rest) = b :: percent_unescape rest.
Proof.
  intros H. simpl. apply Z.eqb_neq in H. now rewrite H.
Qed.

(** Unescaping never lengthens: the window of the second pass reaches the
    end of the unescaped bytes. *)
Lemma percent_unescape_length (buffer : Buffer) :
  (List.length (percent_unescape buffer) <= List.length buffer)%nat.
Proof.
  assert (H : forall n (b : Buffer), (List.length b <= n)%nat ->
            (List.length (percent_unescape b) <= List.length b)%nat).
  { induction n as [|n IH]; intros b Hn.
    - destruct b; simpl in *; lia.
    - destruct b as [|x rest]; [simpl; lia|].
      simpl in Hn. simpl percent_unescape.
      destruct (x =? 37).
      + destruct rest as [|h1 [|h2 rest']].
        * simpl. lia.
        * simpl. destruct (h1 =? 37); simpl; lia.
        * destruct (parseInt16 (toString_ascii 0 2 [h1; h2])).
          -- simpl. specialize (IH rest'). simpl in Hn.
             assert (List.length rest' <= n)%nat by lia.
             specialize (IH H). lia.
          -- specialize (IH (h1 :: h2 :: rest')). simpl in IH |- *.
             simpl in Hn. assert (S (S (List.length rest')) <= n)%nat by lia.
             specialize (IH H). lia.
      + specialize (IH rest). simpl.
        assert (List.length rest <= n)%nat by lia. specialize (IH H). lia. }
  apply (H (List.length buffer)). lia.
Qed.

(** C3 (code bug).  The field [%1x] is not a well-formed escape, and the
    comment above the fallback (lines 165-166) says that a malformed
    sequence is added to the bytes as it is.  [parseInt] however accepts the
    longest prefix of hexadecimal digits: the three bytes become the single
    byte 0x01 and the [x] is lost, where the claim has the bytes [%], [1],
    [x].  A sign or a blank before one digit is accepted too, and a byte
    above 0x7F is read with its high bit cleared. *)
Theorem percent_unescape_accepts_partial_hex :
  percent_unescape (bytes_of "%1x") = [0x01]
  /\ percent_unescape (bytes_of "%1x") <> bytes_of "%1x"
  /\ Buffer_from_array (percent_unescape (bytes_of "%-1")) = [0xFF]
  /\ percent_unescape (0x25 :: [0xB8; 0xB3]) = [0x83].
Proof.
  repeat split; try reflexivity. discriminate.
Qed.

(** ** The incremental Shift_JIS pass *)

(** A single byte read as UTF-8 is itself when it is ASCII, and U+FFFD
    otherwise: a multi-byte character never survives. *)
Lemma toString_utf8_single (b : Z) :
  toString_utf8 [b] = if b <? 0x80 then [b] else [0xFFFD].
Proof.
  unfold toString_utf8. cbn [utf8_run].
  unfold utf8_step. cbn [u_needed utf8_init]. cbn [Z.eqb].
  unfold utf8_first.
  destruct (b <? 0x80); [reflexivity|].
  destruct ((0xC2 <=? b) && (b <=? 0xDF)); [reflexivity|].
  destruct ((0xE0 <=? b) && (b <=? 0xEF)); [reflexivity|].
  destruct ((0xF0 <=? b) && (b <=? 0xF4)); reflexivity.
Qed.

Section SjisPassFacts.
Context {I : IconvLite}.
Variables buffer sjis : Buffer.

Lemma sjis_loop_snoc (n : nat) (st : jsstring * nat) :
  sjis_loop buffer sjis (seq 0 (S n)) st
  = sjis_iteration buffer sjis (sjis_loop buffer sjis (seq 0 n) st) n.
Proof.
  unfold sjis_loop. rewrite seq_S. rewrite fold_left_app. reflexivity.
Qed.

(** After iteration [i] the index of the last commit is [i]: what the
    catch block appends is the one byte [buffer[i-1]]. *)
Lemma sjis_loop_index (n : nat) :
  snd (sjis_loop buffer sjis (seq 0 (S n)) ([], 0%nat)) = n.
Proof.
  induction n as [|n IH].
  - cbn. destruct (iconv_decode _); reflexivity.
  - rewrite sjis_loop_snoc.
    destruct (sjis_loop buffer sjis (seq 0 (S n)) ([], 0%nat)) as [s last].
    simpl in IH. subst last. unfold sjis_iteration.
    destruct (iconv_decode _); [reflexivity|].
    assert (H : (n <? S n)%nat = true) by (apply Nat.ltb_lt; lia).
    now rewrite H.
Qed.

(** When the whole window decodes, the result is that decoding, whatever
    happened before: earlier pass-through is overwritten. *)
Lemma sjis_pass_last_window (s : jsstring) :
  iconv_decode (slice 0 (List.length buffer) sjis) = Returns s ->
  sjis_pass buffer sjis = s.
Proof.
  intros H. unfold sjis_pass. rewrite sjis_loop_snoc.
  destruct (sjis_loop buffer sjis _ _) as [s0 last].
  unfold sjis_iteration. now rewrite H.
Qed.

(** When the window decodes up to [k] and no longer window does, the
    bytes from [k] on are never decoded again: each is passed through on
    its own, and it is taken from [buffer], not from the unescaped
    bytes. *)
Lemma sjis_loop_after_last_success (k : nat) (s : jsstring) :
  iconv_decode (slice 0 k sjis) = Returns s ->
  forall m, (k <= m <= List.length buffer)%nat ->
  (forall i, (k < i <= m)%nat -> iconv_decode (slice 0 i sjis) = Throws) ->
  sjis_loop buffer sjis (seq 0 (S m)) ([], 0%nat)
  = (s ++ passthrough (slice k m buffer), m).
Proof.
  intros Hk m. induction m as [|m IH]; intros Hm Hfail.
  - assert (k = 0)%nat by lia. subst k.
    cbn. rewrite slice_from_zero in Hk. cbn in Hk. rewrite Hk.
    now rewrite app_nil_r.
  - rewrite sjis_loop_snoc.
    destruct (Nat.eq_dec k (S m)) as [->|Hne].
    + destruct (sjis_loop buffer sjis _ _) as [s0 last].
      unfold sjis_iteration. rewrite Hk. rewrite slice_empty.
      cbn. now rewrite app_nil_r.
    + rewrite IH by (try lia; intros i Hi; apply Hfail; lia).
      unfold sjis_iteration. rewrite (Hfail (S m)) by lia.
      assert (H : (m <? S m)%nat = true) by (apply Nat.ltb_lt; lia).
      rewrite H. f_equal.
      rewrite (slice_snoc k m) by lia.
      destruct (slice_one m buffer) as [b Hb]; [lia|].
      rewrite Hb. unfold passthrough. rewrite flat_map_app. cbn.
      now rewrite app_nil_r, <- app_assoc.
Qed.

Lemma sjis_pass_after_last_success (k : nat) (s : jsstring) :
  (k <= List.length buffer)%nat ->
  iconv_decode (slice 0 k sjis) = Returns s ->
  (forall i, (k < i <= List.length buffer)%nat ->
             iconv_decode (slice 0 i sjis) = Throws) ->
  sjis_pass buffer sjis = s ++ passthrough (skipn k buffer).
Proof.
  intros Hk Hs Hfail. unfold sjis_pass.
  rewrite (sjis_loop_after_last_success k s Hs) by (auto; lia).
  cbn [fst]. now rewrite slice_to_end.
Qed.
(** Whatever the decoder does, the result is the decoding of some window
    followed by passed-through bytes, and a passed-through byte is an ASCII
    character or U+FFFD: no character outside ASCII comes out of the pass
    unless [iconv.decode] itself produced it. *)
Lemma sjis_loop_shape (m : nat) :
  (m <= List.length buffer)%nat ->
  exists s t,
    sjis_loop buffer sjis (seq 0 (S m)) ([], 0%nat) = (s ++ t, m)
    /\ (s = [] \/ exists k, (k <= m)%nat
                            /\ iconv_decode (slice 0 k sjis) = Returns s)
    /\ Forall (fun c => c < 0x80 \/ c = 0xFFFD) t.
Proof.
  induction m as [|m IH]; intros Hm.
  - unfold sjis_loop. cbn [seq fold_left]. unfold sjis_iteration.
    change (0 <? 0)%nat with false. cbv iota.
    destruct (iconv_decode (slice 0 0 sjis)) as [s|] eqn:E.
    + exists s, []. rewrite app_nil_r. split; [reflexivity|].
      split; [|constructor]. right. exists 0%nat. split; [lia | exact E].
    + exists [], []. split; [reflexivity|]. split; [now left | constructor].
  - destruct IH as (s & t & Hloop & Hs & Ht); [lia|].
    rewrite sjis_loop_snoc, Hloop. unfold sjis_iteration.
    destruct (iconv_decode (slice 0 (S m) sjis)) as [s'|] eqn:E.
    + exists s', []. rewrite app_nil_r. split; [reflexivity|].
      split; [|constructor]. right. exists (S m). split; [lia | exact E].
    + assert (H : (m <? S m)%nat = true) by (apply Nat.ltb_lt; lia).
      rewrite H.
      destruct (slice_one m buffer) as [b Hb]; [lia|]. rewrite Hb.
      exists s, (t ++ toString_utf8 [b]). rewrite app_assoc.
      split; [reflexivity|]. split.
      * destruct Hs as [Hs|(k & Hk & Hdec)]; [now left|].
        right. exists k. split; [lia | exact Hdec].
      * apply Forall_app. split; [exact Ht|].
        rewrite toString_utf8_single.
        destruct (b <? 0x80) eqn:Eb.
        -- constructor; [left; now apply Z.ltb_lt | constructor].
        -- constructor; [now right | constructor].
Qed.

Lemma sjis_pass_shape :
  exists s t,
    sjis_pass buffer sjis = s ++ t
    /\ (s = [] \/ exists k, iconv_decode (slice 0 k sjis) = Returns s)
    /\ Forall (fun c => c < 0x80 \/ c = 0xFFFD) t.
Proof.
  destruct (sjis_loop_shape (List.length buffer)) as (s & t & Hloop & Hs & Ht);
    [lia|].
  exists s, t. unfold sjis_pass. rewrite Hloop. split; [reflexivity|].
  split; [|exact Ht].
  destruct Hs as [Hs|(k & _ & Hdec)]; [now left | right; now exists k].
Qed.
End SjisPassFacts.

(** An iconv that never throws (iconv-lite's [decode] substitutes U+FFFD
    and returns) makes the pass a plain Shift_JIS decoding of all the
    unescaped bytes: no byte is passed through. *)
Lemma decodeURIComponent_when_iconv_returns
    {I : IconvLite} {E : Entities} (str s : jsstring) :
  (iconv_decode
     (Buffer_from_array (percent_unescape (Buffer_from_latin1 str)))
   = Returns s) ->
  decodeURIComponent str = he_decode s.
Proof.
  intros H. unfold decodeURIComponent. f_equal.
  apply sjis_pass_last_window.
  rewrite slice_from_zero, firstn_all2; [exact H|].
  unfold Buffer_from_array. rewrite length_map.
  apply percent_unescape_length.
Qed.

(** Text that is Shift_JIS throughout is decoded: the title of the
    end-to-end scenario. *)
Lemma title_is_decoded :
  @decodeURIComponent iconv_lenient entities_plain (bytes_of "%83e%83X%83g")
  = Returns (js "テスト")
  /\ @decodeURIComponent iconv_strict entities_plain (bytes_of "%83e%83X%83g")
     = Returns (js "テスト").
Proof. split; vm_compute; reflexivity. Qed.

(** C1 (code bug).  The comment at lines 175-176 states the claim: what
    decodes is decoded as Shift_JIS, what does not is kept as its original
    bytes read as UTF-8.  The loop does not do that.  Its window always
    starts at byte 0, so after a failure no later text is decoded unless the
    whole prefix decodes, in which case the pass-through is overwritten; the
    bytes it passes through come one at a time from the buffer before
    unescaping, so a multi-byte UTF-8 character always becomes U+FFFD.
    For every decoder the result is therefore the decoding of one window
    followed by ASCII characters and U+FFFD.  On the field [%83e] U+1F389
    [%83g]: with a decoder that never throws the emoji bytes are decoded as
    Shift_JIS; with a decoder that throws on them, the emoji becomes four
    U+FFFD, the text [3e] of the first escape is repeated and the second
    escape stays undecoded.  Neither result is the text with the emoji. *)
Theorem emoji_field_is_not_preserved :
  (forall (I : IconvLite) (buffer sjisCandidateBuffer : Buffer),
     exists s t,
       sjis_pass buffer sjisCandidateBuffer = s ++ t
       /\ (s = [] \/ exists k, iconv_decode (slice 0 k sjisCandidateBuffer)
                                = Returns s)
       /\ Forall (fun c => c < 0x80 \/ c = 0xFFFD) t)
  /\ @decodeURIComponent iconv_lenient entities_plain emoji_field
     = Returns (js "テ" ++ [0xFFFD; 0xFFFD] ++ js "ト")
  /\ @decodeURIComponent iconv_strict entities_plain emoji_field
     = Returns (js "テ3e" ++ [0xFFFD; 0xFFFD; 0xFFFD; 0xFFFD] ++ js "%83g")
  /\ @decodeURIComponent iconv_lenient entities_plain emoji_field
     <> Returns (js "テ🎉ト")
  /\ @decodeURIComponent iconv_strict entities_plain emoji_field
     <> Returns (js "テ🎉ト").
Proof.
  split; [intros I buffer sjis; apply sjis_pass_shape|].
  repeat split; try (vm_compute; reflexivity); vm_compute; discriminate.
Qed.

(** ** The parsed object *)

Lemma obj_get_obj_set (obj : qsobject) (k k' : jsstring) (v : qsvalue) :
  obj_get (obj_set obj k v) k'
  = if jsstring_eqb k k' then Some v else obj_get obj k'.
Proof.
  induction obj as [|[k0 w] rest IH]; simpl.
  - destruct (jsstring_eqb k k'); reflexivity.
  - destruct (jsstring_eqb k0 k) eqn:E0; simpl.
    + apply jsstring_eqb_eq in E0. subst k0.
      destruct (jsstring_eqb k k'); reflexivity.
    + rewrite IH. destruct (jsstring_eqb k0 k') eqn:E1; [|reflexivity].
      apply jsstring_eqb_eq in E1. subst k0.
      destruct (jsstring_eqb k k') eqn:E2; [|reflexivity].
      apply jsstring_eqb_eq in E2. subst k.
      rewrite jsstring_eqb_refl in E0. discriminate.
Qed.

Lemma obj_get_store_value (obj : qsobject) (k v k' : jsstring) :
  obj_get (store_value obj k v) k'
  = if jsstring_eqb k k' then Some (push (obj_get obj k) v)
    else obj_get obj k'.
Proof.
  unfold store_value, push.
  destruct (obj_get obj k) as [[c|l]|]; now rewrite obj_get_obj_set.
Qed.

Lemma obj_get_store_all (pairs : list (jsstring * jsstring)) :
  forall (obj : qsobject) (k' : jsstring),
  obj_get (store_all obj pairs) k'
  = fold_left (fun cur v => Some (push cur v)) (values_of k' pairs)
      (obj_get obj k').
Proof.
  induction pairs as [|[k v] rest IH]; intros obj k'; [reflexivity|].
  unfold store_all in *. cbn [fold_left fst snd]. rewrite IH.
  rewrite obj_get_store_value. unfold values_of. cbn [filter fst].
  destruct (jsstring_eqb k k') eqn:Ek; [|reflexivity].
  apply jsstring_eqb_eq in Ek. subst k'. reflexivity.
Qed.

Lemma fold_push_array (vs l : list jsstring) :
  fold_left (fun cur v => Some (push cur v)) vs (Some (QArray l))
  = Some (QArray (l ++ vs)).
Proof.
  revert l; induction vs as [|v vs IH]; intros l; simpl.
  - now rewrite app_nil_r.
  - rewrite IH. now rewrite <- app_assoc.
Qed.

(** A key that occurred once holds its value; a key that occurred again
    holds the array of all its values; either way its text is the values
    joined by commas. *)
Lemma String_of_pushed (v : jsstring) (vs : list jsstring) :
  option_map String_of_qsvalue
    (fold_left (fun cur v => Some (push cur v)) (v :: vs) None)
  = Some (join [0x2C] (v :: vs)).
Proof.
  cbn [fold_left push]. destruct vs as [|w vs]; [reflexivity|].
  cbn [fold_left push]. rewrite fold_push_array. reflexivity.
Qed.

Lemma pushed_is_some (vs : list jsstring) (cur : option qsvalue) :
  cur <> None ->
  fold_left (fun cur v => Some (push cur v)) vs cur <> None.
Proof.
  revert cur; induction vs as [|v vs IH]; intros cur H; [exact H|].
  simpl. apply IH. discriminate.
Qed.

Lemma map_fst_obj_set (obj : qsobject) (k : jsstring) (v : qsvalue) :
  map fst (obj_set obj k v)
  = if existsb (fun kv => jsstring_eqb (fst kv) k) obj then map fst obj
    else map fst obj ++ [k].
Proof.
  induction obj as [|[k0 w] rest IH]; [reflexivity|].
  simpl. destruct (jsstring_eqb k0 k) eqn:E0; simpl; [reflexivity|].
  rewrite IH. now destruct (existsb _ rest).
Qed.

Lemma keys_obj_set_NoDup (obj : qsobject) (k : jsstring) (v : qsvalue) :
  NoDup (map fst obj) -> NoDup (map fst (obj_set obj k v)).
Proof.
  intros H. rewrite map_fst_obj_set.
  destruct (existsb _ obj) eqn:Ex; [exact H|].
  apply NoDup_app; [exact H | repeat constructor; intros [] |].
  intros x Hx [Hkx|[]]. subst x.
  apply in_map_iff in Hx as [[k0 w] [Hk Hin]]. simpl in Hk. subst k0.
  assert (existsb (fun kv => jsstring_eqb (fst kv) k) obj = true).
  { apply existsb_exists. exists (k, w). split; [exact Hin|].
    apply jsstring_eqb_refl. }
  congruence.
Qed.

Lemma keys_store_all_NoDup (pairs : list (jsstring * jsstring)) :
  forall obj, NoDup (map fst obj) -> NoDup (map fst (store_all obj pairs)).
Proof.
  induction pairs as [|[k v] rest IH]; intros obj H; [exact H|].
  unfold store_all in *. cbn [fold_left fst snd]. apply IH.
  unfold store_value. destruct (obj_get obj k) as [[c|l]|];
    now apply keys_obj_set_NoDup.
Qed.

(** ** The decoder returns *)

Section FormDecoderFacts.
Context {I : IconvLite} {E : Entities}.

(** [decodeStr] catches whatever the callback throws. *)
Lemma decodeStr_returns (s : jsstring) : exists r, decodeStr s = Returns r.
Proof.
  unfold decodeStr, try_catch.
  destruct (decodeURIComponent s) as [r|]; eauto.
Qed.

Lemma decode_nonempty_decoded (s : jsstring) :
  decode_nonempty s = Returns (decoded s).
Proof.
  unfold decoded. unfold decode_nonempty at 1 2.
  destruct (is_empty s); [reflexivity|].
  destruct (decodeStr_returns s) as [r Hr]. now rewrite Hr.
Qed.

Lemma add_pairs_store_all (pairs : list (jsstring * jsstring)) :
  forall obj,
  add_pairs obj pairs
  = Returns (store_all obj
               (map (fun p => (decoded (fst p), decoded (snd p))) pairs)).
Proof.
  induction pairs as [|[k v] rest IH]; intros obj; [reflexivity|].
  cbn [add_pairs]. unfold addKeyValue.
  rewrite !decode_nonempty_decoded. cbn [obind]. now rewrite IH.
Qed.

Lemma querystring_parse_returns (qs : jsstring) :
  querystring_parse qs = Returns (store_all [] (decoded_pairs qs)).
Proof. unfold querystring_parse. apply add_pairs_store_all. Qed.

Lemma formData_returns (buffer : Buffer) :
  formData buffer
  = Returns (URLSearchParams_of_record
               (store_all [] (decoded_pairs (toString_latin1 buffer)))).
Proof.
  unfold formData, decodedFields. now rewrite querystring_parse_returns.
Qed.
End FormDecoderFacts.

(** A segment that is not empty is a pair. *)
Lemma segment_pair_nonempty (seg : jsstring) :
  seg <> [] -> segment_pair seg <> None.
Proof.
  intros Hseg. unfold segment_pair.
  destruct seg as [|c r]; [contradiction|]. cbn [break_at_eq].
  destruct (c =? 0x3D); [discriminate|].
  destruct (break_at_eq r) as [k [v|]]; discriminate.
Qed.

(** The raw pairs are the pairs of the first [maxKeys] segments. *)
Lemma raw_pairs_segments (qs : jsstring) (k v : jsstring) :
  In (k, v) (raw_pairs qs)
  <-> exists seg,
        In seg (firstn 1000 (split_on 0x26 qs))
        /\ segment_pair seg = Some (k, v).
Proof.
  unfold raw_pairs, maxKeys. rewrite firstn_map, in_flat_map. split.
  - intros (e & He & Hin). apply in_map_iff in He as (seg & <- & Hseg).
    exists seg. split; [exact Hseg|].
    destruct (segment_pair seg) as [p|]; [|destruct Hin].
    destruct Hin as [->|[]]. reflexivity.
  - intros (seg & Hseg & Hp). exists (Some (k, v)). split; [|now left].
    apply in_map_iff. now exists seg.
Qed.

Section FormDecoderFields.
Context {I : IconvLite} {E : Entities}.

(** The keys of the object are the decoded keys of the raw pairs. *)
Lemma obj_get_decoded_pairs (qs : jsstring) (key : jsstring) :
  obj_get (store_all [] (decoded_pairs qs)) key <> None
  <-> exists k v, In (k, v) (raw_pairs qs) /\ key = decoded k.
Proof.
  rewrite obj_get_store_all. cbn [obj_get]. split.
  - intros Hsome.
    destruct (values_of key (decoded_pairs qs)) as [|v0 vs] eqn:Hv;
      [now contradiction Hsome|].
    assert (Hin : In v0 (values_of key (decoded_pairs qs)))
      by (rewrite Hv; now left).
    unfold values_of, decoded_pairs in Hin.
    apply in_map_iff in Hin as ([k' v'] & _ & Hin).
    apply filter_In in Hin as [Hin Hk]. cbn [fst] in Hk.
    apply jsstring_eqb_eq in Hk. subst k'.
    apply in_map_iff in Hin as ([k v] & Heq & Hin).
    cbn [fst snd] in Heq. injection Heq as Hk _.
    exists k, v. split; [exact Hin | now symmetry].
  - intros (k & v & Hin & ->).
    assert (Hv : In (decoded v) (values_of (decoded k) (decoded_pairs qs))).
    { unfold values_of, decoded_pairs. apply in_map_iff.
      exists (decoded k, decoded v). split; [reflexivity|].
      apply filter_In. split.
      - apply in_map_iff. exists (k, v). split; [reflexivity | exact Hin].
      - apply jsstring_eqb_refl. }
    destruct (values_of _ _) as [|v0 vs]; [destruct Hv|].
    cbn [fold_left]. apply pushed_is_some. discriminate.
Qed.
End FormDecoderFields.

(** C2, counterexample.  A body of a thousand segments [x] followed by
    [bbs=2]: [querystring.parse] stops after the thousandth segment (the
    default of its [maxKeys] option), and the mapping has no [bbs]. *)
Lemma field_past_the_thousandth_segment_is_dropped :
  let buffer := concat (repeat (bytes_of "x&") 1000) ++ bytes_of "bbs=2" in
  (exists fd,
     @formData iconv_lenient entities_plain buffer = Returns fd
     /\ params_get fd (js "bbs") = None)
  /\ ~ @no_field_is_rejected iconv_lenient entities_plain buffer.
Proof.
  intros buffer. split.
  - assert (H : (fd <- @formData iconv_lenient entities_plain buffer ;;
                 Returns (params_get fd (js "bbs"))) = Returns None)
      by now vm_compute.
    destruct (@formData iconv_lenient entities_plain buffer) as [fd|];
      [|discriminate].
    exists fd. split; [reflexivity|]. cbn [obind] in H. congruence.
  - intros (fields & Hfields & Hall).
    assert (H : (fields <- @decodedFields iconv_lenient entities_plain buffer ;;
                 Returns (obj_get fields
                            (@decoded iconv_lenient entities_plain (js "bbs"))))
                = Returns None)
      by now vm_compute.
    rewrite Hfields in H. cbn [obind] in H.
    apply (Hall (js "bbs=2") (js "bbs") (js "2")).
    + apply (nth_error_In _ 1000). now vm_compute.
    + now vm_compute.
    + congruence.
Qed.

(** C2, amended.  For every body, whatever iconv-lite and he do (they may
    throw on any input), the form decoder returns: [decodedFields] is an
    object and [formData] the mapping made of it.  The callback's own loops
    have no failing step; what [iconv.decode] throws is caught in the loop,
    and what [he.decode] throws is caught by [querystring.parse], which
    then stores the plainly unescaped text.  No field among the first 1000
    segments of the body is refused: every such segment that is not empty
    is a pair, and its decoded key is in the object.  The segments after
    the thousandth are not read: the object has no other keys. *)
Theorem form_decoder_never_throws
    {I : IconvLite} {E : Entities} (buffer : Buffer) :
  exists fields,
    decodedFields buffer = Returns fields
    /\ formData buffer = Returns (URLSearchParams_of_record fields)
    /\ (forall seg, seg <> [] -> segment_pair seg <> None)
    /\ (forall seg k v,
          In seg (firstn 1000 (split_on 0x26 (toString_latin1 buffer))) ->
          segment_pair seg = Some (k, v) ->
          obj_get fields (decoded k) <> None)
    /\ (forall key,
          obj_get fields key <> None ->
          exists seg k v,
            In seg (firstn 1000 (split_on 0x26 (toString_latin1 buffer)))
            /\ segment_pair seg = Some (k, v)
            /\ key = decoded k).
Proof.
  exists (store_all [] (decoded_pairs (toString_latin1 buffer))).
  split; [apply querystring_parse_returns|].
  split; [apply formData_returns|].
  split; [apply segment_pair_nonempty|].
  split.
  - intros seg k v Hseg Hpair. apply obj_get_decoded_pairs.
    exists k, v. split; [|reflexivity].
    apply raw_pairs_segments. now exists seg.
  - intros key Hkey. apply obj_get_decoded_pairs in Hkey as (k & v & Hin & ->).
    apply raw_pairs_segments in Hin as (seg & Hseg & Hpair).
    now exists seg, k, v.
Qed.

(** A body of lone and doubled [%] and a cut escape, an iconv that throws
    on what it cannot decode and an [he] that always throws: the decoder
    returns, and the field is there. *)
Lemma form_decoder_never_throws_witness :
  let buffer := bytes_of "%=%%&bbs=%83e%1" in
  In (js "bbs=%83e%1") (firstn 1000 (split_on 0x26 (toString_latin1 buffer)))
  /\ segment_pair (js "bbs=%83e%1") = Some (js "bbs", js "%83e%1")
  /\ exists fields,
       @decodedFields iconv_strict entities_throwing buffer = Returns fields
       /\ obj_get fields (js "bbs") <> None.
Proof.
  intros buffer.
  assert (Hin : In (js "bbs=%83e%1")
                  (firstn 1000 (split_on 0x26 (toString_latin1 buffer)))).
  { vm_compute. right. left. reflexivity. }
  assert (Hpair : segment_pair (js "bbs=%83e%1")
                  = Some (js "bbs", js "%83e%1")) by now vm_compute.
  split; [exact Hin|]. split; [exact Hpair|].
  destruct (@form_decoder_never_throws iconv_strict entities_throwing buffer)
    as (fields & Hf & _ & _ & Hall & _).
  exists fields. split; [exact Hf|]. exact (Hall _ _ _ Hin Hpair).
Defined.

(** ** [URLSearchParams]: one string per name *)

Lemma toUSVString_unchanged_upto (n : nat) :
  forall k, (List.length k <= n)%nat ->
  ~ In 0xFFFD (toUSVString k) -> toUSVString k = k.
Proof.
  induction n as [|n IH]; intros k Hn Hno.
  - destruct k; [reflexivity | simpl in Hn; lia].
  - destruct k as [|c r]; [reflexivity|].
    simpl in Hn. simpl in Hno |- *.
    destruct (is_high_surrogate c).
    + destruct r as [|d r'].
      * exfalso. apply Hno. now left.
      * destruct (is_low_surrogate d).
        -- f_equal. f_equal. apply IH; [simpl in Hn; lia|].
           intros H. apply Hno. right. now right.
        -- exfalso. apply Hno. now left.
    + destruct (is_low_surrogate c).
      * exfalso. apply Hno. now left.
      * f_equal. apply IH; [lia|]. intros H. apply Hno. now right.
Qed.

(** A string that comes out of the conversion without U+FFFD went in
    unchanged. *)
Lemma toUSVString_unchanged (k : jsstring) :
  ~ In 0xFFFD (toUSVString k) -> toUSVString k = k.
Proof. apply (toUSVString_unchanged_upto (List.length k)). lia. Qed.

Lemma toUSVString_eqb_name (k name : jsstring) :
  toUSVString name = name -> ~ In 0xFFFD name ->
  jsstring_eqb (toUSVString k) name = jsstring_eqb k name.
Proof.
  intros Hwf Hno.
  destruct (jsstring_eqb k name) eqn:Ek.
  - apply jsstring_eqb_eq in Ek. subst k. rewrite Hwf.
    apply jsstring_eqb_refl.
  - apply jsstring_eqb_neq. intros Heq. apply jsstring_eqb_neq in Ek.
    apply Ek. rewrite <- Heq. symmetry. apply toUSVString_unchanged.
    now rewrite Heq.
Qed.

Lemma params_get_params_set (params : URLSearchParams) (k v n : jsstring) :
  params_get (params_set params k v) n
  = if jsstring_eqb k n then Some v else params_get params n.
Proof.
  induction params as [|[k0 w] rest IH]; simpl.
  - destruct (jsstring_eqb k n); reflexivity.
  - destruct (jsstring_eqb k0 k) eqn:E0; simpl.
    + apply jsstring_eqb_eq in E0. subst k0.
      destruct (jsstring_eqb k n); reflexivity.
    + rewrite IH. destruct (jsstring_eqb k0 n) eqn:E1; [|reflexivity].
      apply jsstring_eqb_eq in E1. subst k0.
      destruct (jsstring_eqb k n) eqn:E2; [|reflexivity].
      apply jsstring_eqb_eq in E2. subst k.
      rewrite jsstring_eqb_refl in E0. discriminate.
Qed.

(** What [get(name)] finds in the converted record: the value of the last
    entry whose key is [name]. *)
Lemma params_get_of_entries (entries : qsobject) (name : jsstring) :
  toUSVString name = name -> ~ In 0xFFFD name ->
  forall params,
  params_get
    (fold_left
       (fun params kv =>
          params_set params (toUSVString (fst kv))
            (toUSVString (String_of_qsvalue (snd kv)))) entries params) name
  = fold_left
      (fun found kv =>
         if jsstring_eqb (fst kv) name
         then Some (toUSVString (String_of_qsvalue (snd kv))) else found)
      entries (params_get params name).
Proof.
  intros Hwf Hno. induction entries as [|[k v] rest IH]; intros params;
    [reflexivity|].
  cbn [fold_left fst snd]. rewrite IH, params_get_params_set.
  now rewrite toUSVString_eqb_name by assumption.
Qed.

Lemma no_entry_found (entries : qsobject) (name : jsstring)
    (found : option jsstring) :
  ~ In name (map fst entries) ->
  fold_left
    (fun found kv =>
       if jsstring_eqb (fst kv) name
       then Some (toUSVString (String_of_qsvalue (snd kv))) else found)
    entries found
  = found.
Proof.
  revert found. induction entries as [|[k v] rest IH]; intros found H;
    [reflexivity|].
  cbn [fold_left fst snd].
  destruct (jsstring_eqb k name) eqn:Ek.
  - exfalso. apply H. left. now apply jsstring_eqb_eq.
  - apply IH. intros Hin. apply H. now right.
Qed.

(** With distinct keys the last entry of a name is the only one. *)
Lemma entry_found_once (entries : qsobject) (name : jsstring) :
  NoDup (map fst entries) ->
  fold_left
    (fun found kv =>
       if jsstring_eqb (fst kv) name
       then Some (toUSVString (String_of_qsvalue (snd kv))) else found)
    entries None
  = option_map (fun v => toUSVString (String_of_qsvalue v))
      (obj_get entries name).
Proof.
  induction entries as [|[k v] rest IH]; intros Hnd; [reflexivity|].
  inversion Hnd as [|? ? Hnotin Hnd']; subst.
  cbn [fold_left fst snd obj_get].
  destruct (jsstring_eqb k name) eqn:Ek.
  - apply jsstring_eqb_eq in Ek. subst k.
    now rewrite no_entry_found.
  - now apply IH.
Qed.

Lemma insert_by_index_perm {A} (n : Z) (x : A) (l : list (Z * A)) :
  Permutation (map snd (insert_by_index n x l)) (x :: map snd l).
Proof.
  induction l as [|[m y] rest IH]; simpl; [reflexivity|].
  destruct (n <? m); simpl; [reflexivity|].
  rewrite IH. apply perm_swap.
Qed.

Lemma filter_split_perm {A} (p : A -> bool) (l : list A) :
  Permutation (filter p l ++ filter (fun x => negb (p x)) l) l.
Proof.
  induction l as [|x l IH]; simpl; [reflexivity|].
  destruct (p x); simpl.
  - now apply perm_skip.
  - rewrite <- Permutation_middle. now apply perm_skip.
Qed.

(** The enumeration of the own keys reorders the entries and loses none. *)
Lemma own_entries_perm (obj : qsobject) : Permutation (own_entries obj) obj.
Proof.
  unfold own_entries.
  set (p := fun kv : jsstring * qsvalue =>
              match array_index (fst kv) with Some _ => true | None => false end).
  assert (Hidx : Permutation
            (map snd (fold_right
               (fun kv acc => match array_index (fst kv) with
                              | Some n => insert_by_index n kv acc
                              | None => acc
                              end) [] obj))
            (filter p obj)).
  { induction obj as [|kv rest IH]; simpl; [reflexivity|].
    unfold p at 1. destruct (array_index (fst kv)); [|exact IH].
    rewrite insert_by_index_perm. now apply perm_skip. }
  rewrite Hidx.
  assert (Hf : filter (fun kv : jsstring * qsvalue =>
                 match array_index (fst kv) with
                 | Some _ => false | None => true end) obj
               = filter (fun kv => negb (p kv)) obj).
  { apply filter_ext. intros kv. unfold p.
    now destruct (array_index (fst kv)). }
  rewrite Hf. apply filter_split_perm.
Qed.

Lemma obj_get_In (obj : qsobject) (k : jsstring) (v : qsvalue) :
  NoDup (map fst obj) -> (obj_get obj k = Some v <-> In (k, v) obj).
Proof.
  induction obj as [|[k0 w] rest IH]; intros Hnd; simpl.
  - split; [discriminate | intros []].
  - inversion Hnd as [|? ? Hnotin Hnd']; subst.
    destruct (jsstring_eqb k0 k) eqn:E0.
    + apply jsstring_eqb_eq in E0. subst k0. split.
      * intros [= ->]. now left.
      * intros [[= ->]|Hin]; [reflexivity|].
        exfalso. apply Hnotin. apply in_map_iff. now exists (k, v).
    + apply jsstring_eqb_neq in E0. rewrite (IH Hnd'). split.
      * intros H. now right.
      * intros [[= -> ->]|Hin]; [contradiction | exact Hin].
Qed.

Lemma obj_get_perm (l obj : qsobject) (k : jsstring) :
  NoDup (map fst obj) -> Permutation l obj -> obj_get l k = obj_get obj k.
Proof.
  intros Hnd Hp.
  assert (Hnd' : NoDup (map fst l)).
  { apply (Permutation_NoDup (l := map fst obj)); [|exact Hnd].
    apply Permutation_map. now symmetry. }
  destruct (obj_get obj k) as [v|] eqn:Eo.
  - apply (obj_get_In _ _ _ Hnd'). apply (Permutation_in _ (Permutation_sym Hp)).
    now apply (obj_get_In _ _ _ Hnd).
  - destruct (obj_get l k) as [v|] eqn:El; [|reflexivity].
    apply (obj_get_In _ _ _ Hnd') in El.
    apply (Permutation_in _ Hp) in El.
    apply (obj_get_In _ _ _ Hnd) in El. congruence.
Qed.

(** C4, counterexample.  The body [bbs=1&bbs=2]: [querystring.parse]
    collects the two values in an array, [URLSearchParams] turns the array
    into the text [1,2], and that, not [2], is what [get('bbs')] returns. *)
Lemma duplicate_field_is_not_last_wins :
  @formData iconv_lenient entities_plain (bytes_of "bbs=1&bbs=2")
  = Returns [(js "bbs", js "1,2")]
  /\ ~ @last_occurrence_wins iconv_lenient entities_plain
         (bytes_of "bbs=1&bbs=2") (js "bbs").
Proof.
  split; [vm_compute; reflexivity|].
  intros H. specialize (H _ eq_refl). vm_compute in H. discriminate.
Qed.

(** C4, amended.  For every body the decoder returns a mapping that gives
    a field name at most one string.  A name that no pair has is absent; a
    name that one pair has holds its decoded value; a name that several
    pairs have holds all their decoded values, in order, joined by commas:
    no occurrence is discarded.  The pairs are those of the first
    [maxKeys] segments; the name is any string without lone surrogates and
    without U+FFFD (for which [URLSearchParams] keeps names apart). *)
Theorem duplicate_fields_are_joined
    {I : IconvLite} {E : Entities} (buffer : Buffer) (name : jsstring) :
  toUSVString name = name -> ~ In 0xFFFD name ->
  exists fd,
    formData buffer = Returns fd
    /\ params_get fd name
       = match values_of name (decoded_pairs (toString_latin1 buffer)) with
         | [] => None
         | vs => Some (toUSVString (join (js ",") vs))
         end.
Proof.
  intros Hwf Hno. eexists. split; [apply formData_returns|].
  unfold URLSearchParams_of_record.
  rewrite params_get_of_entries by assumption. cbn [params_get].
  pose proof (keys_store_all_NoDup
                (decoded_pairs (toString_latin1 buffer)) [] (NoDup_nil _))
    as Hnd.
  rewrite entry_found_once.
  2:{ apply (Permutation_NoDup (l := map fst (store_all []
                (decoded_pairs (toString_latin1 buffer))))); [|exact Hnd].
      apply Permutation_map. symmetry. apply own_entries_perm. }
  rewrite (obj_get_perm _ _ _ Hnd (own_entries_perm _)).
  rewrite obj_get_store_all. cbn [obj_get].
  destruct (values_of name _) as [|v vs]; [reflexivity|].
  pose proof (String_of_pushed v vs) as Hs.
  destruct (fold_left _ (v :: vs) None) as [q|]; [|discriminate].
  cbn [option_map] in Hs |- *. injection Hs as Hs. now rewrite Hs.
Qed.

(** The hypotheses hold of the names POST asks for; on the body with two
    [bbs] pairs the field is the two values joined. *)
Lemma duplicate_fields_are_joined_witness :
  toUSVString (js "bbs") = js "bbs"
  /\ ~ In 0xFFFD (js "bbs")
  /\ exists fd,
       @formData iconv_lenient entities_plain (bytes_of "bbs=1&bbs=2")
       = Returns fd
       /\ params_get fd (js "bbs") = Some (js "1,2").
Proof.
  assert (Hwf : toUSVString (js "bbs") = js "bbs") by reflexivity.
  assert (Hno : ~ In 0xFFFD (js "bbs")).
  { not_in_text. }
  split; [exact Hwf|]. split; [exact Hno|].
  destruct (@duplicate_fields_are_joined iconv_lenient entities_plain
              (bytes_of "bbs=1&bbs=2") (js "bbs") Hwf Hno) as [fd [Hfd Hget]].
  exists fd. split; [exact Hfd|]. rewrite Hget. vm_compute. reflexivity.
Defined.

(** ** The responses of the gateway *)

Lemma successHtml_has_refresh (boardId threadKey : jsstring) :
  contains (metaRefresh (redirectUrl boardId threadKey))
    (successHtml boardId threadKey).
Proof.
  unfold contains, successHtml, metaRefresh.
  exists ([0xA]
          ++ js "<!DOCTYPE HTML PUBLIC " ++ dq
          ++ js "-//W3C//DTD HTML 4.01 Transitional//EN" ++ dq ++ js ">" ++ [0xA]
          ++ js "<html>" ++ [0xA]
          ++ js "<head>" ++ [0xA]
          ++ js "<title>書きこみました。</title>" ++ [0xA]).
  eexists. cbv zeta. repeat rewrite <- app_assoc. reflexivity.
Qed.

Lemma errorHtml_has_message (errorMessage : jsstring) :
  contains (js "ERROR: " ++ errorMessage) (errorHtml errorMessage).
Proof.
  unfold contains, errorHtml.
  exists ([0xA]
          ++ js "<!DOCTYPE HTML PUBLIC " ++ dq
          ++ js "-//W3C//DTD HTML 4.01 Transitional//EN" ++ dq ++ js ">" ++ [0xA]
          ++ js "<html>" ++ [0xA]
          ++ js "<head>" ++ [0xA]
          ++ js "<title>ERROR!</title>" ++ [0xA]
          ++ js "</head>" ++ [0xA]
          ++ js "<body>" ++ [0xA]).
  eexists. repeat rewrite <- app_assoc. reflexivity.
Qed.

Lemma notVerifiedMessage_has_link (origin : jsstring) :
  contains (js "<a href=" ++ dq ++ origin ++ js "/auth/register" ++ dq)
    (notVerifiedMessage origin).
Proof.
  unfold contains, notVerifiedMessage.
  exists (js "投稿するためには、").
  exists (js " target=" ++ dq ++ js "_blank" ++ dq ++ js ">"
          ++ origin ++ js "/auth/register"
          ++ js "</a> にて認証して、専ブラ連携トークンを取得してください").
  cbv zeta. repeat rewrite <- app_assoc.
  change (js "投稿するためには、<a href=")
    with (js "投稿するためには、" ++ js "<a href=").
  repeat rewrite <- app_assoc. reflexivity.
Qed.

Lemma new_Response_returns (b : Buffer) (st : Z) (hs : list (jsstring * jsstring)) :
  200 <= st <= 599 -> null_body_status st = false ->
  new_Response b st hs = Returns {| status := st; headers := hs; body := b |}.
Proof.
  intros Hst Hnull. unfold new_Response. cbv zeta.
  rewrite (Z.mod_small st 65536) by lia. rewrite Hnull.
  replace ((st <? 200) || (599 <? st)) with false by lia. reflexivity.
Qed.

Lemma new_Response_status (b : Buffer) (st : Z) (hs : list (jsstring * jsstring))
    (r : Response) :
  new_Response b st hs = Returns r ->
  status r = st mod 65536 /\ 200 <= status r <= 599
  /\ null_body_status (status r) = false /\ body r = b.
Proof.
  unfold new_Response. cbv zeta.
  destruct ((st mod 65536 <? 200) || (599 <? st mod 65536)) eqn:E;
    [discriminate|].
  destruct (null_body_status (st mod 65536)) eqn:N; [discriminate|].
  intros [= <-]. cbn [status body]. repeat split; auto; lia.
Qed.

Lemma new_Response_cases (b : Buffer) (st : Z) (hs : list (jsstring * jsstring)) :
  new_Response b st hs = Throws
  \/ new_Response b st hs
     = Returns {| status := st mod 65536; headers := hs; body := b |}.
Proof.
  unfold new_Response. cbv zeta.
  destruct ((st mod 65536 <? 200) || (599 <? st mod 65536)); [now left|].
  destruct (null_body_status (st mod 65536)); [now left | now right].
Qed.

(** The success page, status 200, after the cookies of the answer have
    been set. *)
Lemma createCgiSuccessResponse_page
    {I : IconvLite} {J : JsRuntime}
    (message boardId threadKey : jsstring) (apiResponse : ApiResponse)
    (tr : list Effect) :
  exists tr',
    createCgiSuccessResponse message boardId threadKey apiResponse tr
    = (Returns {| status := 200;
                  headers := html_headers;
                  body := iconv_encode (successHtml boardId threadKey) |}, tr').
Proof.
  unfold createCgiSuccessResponse, set_cookies, bind, ret, lift.
  rewrite new_Response_returns by (lia || reflexivity).
  destruct (setCookieHeader apiResponse); eauto.
Qed.

(** C5 (code bug).  The pages are as the claim says: a success page is the
    fixed template with a 2-second refresh to [../read.cgi/], the board and
    the thread key it was given, an error page shows the reason, status 401
    replaces the reason by the pointer to the verification page, and the
    body is the page encoded as Shift_JIS.  The status of an error page is
    that of the backend; [new Response] throws when it is not within
    200..599, and the catch block of POST then answers.  Two things are
    not as the claim says.  The header: both constructors of bbs.cgi, and
    its GET, send [Content-Type] alone, where [createSjisResponse], which
    the read endpoints use, sets [Content-Length] and says why (old clients
    cannot read a chunked body).  And the pointer after the creation of a
    thread: the key that line 266 gives the success page is the id of the
    created post, where read.cgi, like the dat endpoint, reads the key as
    the timestamp of the thread. *)
Theorem cgi_responses_lack_content_length
    {I : IconvLite} {E : Entities} {J : JsRuntime}
    (backend : ApiRequest -> outcome ApiResponse)
    (PUBLIC_API_BASE_URL : jsstring) (request : Request)
    (message defaultMessage boardId threadKey origin : jsstring)
    (subject text author fingerprint : jsstring)
    (apiResponse : ApiResponse) (apiError : option ApiResponse)
    (tr : list Effect) :
  (exists tr',
     createCgiSuccessResponse message boardId threadKey apiResponse tr
     = (Returns {| status := 200;
                   headers := html_headers;
                   body := iconv_encode (successHtml boardId threadKey) |}, tr'))
  /\ contains
       (metaRefresh
          (js "../read.cgi/" ++ boardId ++ js "/" ++ threadKey ++ js "/"))
       (successHtml boardId threadKey)
  /\ (exists tr',
        createCgiErrorResponse defaultMessage boardId apiError origin tr
        = (new_Response
             (iconv_encode
                (errorHtml (errorMessageOf defaultMessage apiError origin)))
             (errorStatus apiError) html_headers,
           tr'))
  /\ (forall page st,
        new_Response page st html_headers = Throws
        \/ new_Response page st html_headers
           = Returns {| status := st mod 65536;
                        headers := html_headers;
                        body := page |})
  /\ contains (js "ERROR: " ++ errorMessageOf defaultMessage apiError origin)
       (errorHtml (errorMessageOf defaultMessage apiError origin))
  /\ (forall setCookie body,
        errorMessageOf defaultMessage
          (Some {| statusCode := 401;
                   setCookieHeader := setCookie;
                   api_body := body |}) origin
        = notVerifiedMessage origin)
  /\ contains (js "<a href=" ++ dq ++ origin ++ js "/auth/register" ++ dq)
       (notVerifiedMessage origin)
  /\ headers_get html_headers (js "Content-Length") = None
  /\ headers_get (headers GET) (js "Content-Length") = None
  /\ (forall text contentType st cookies,
        headers_get (headers (createSjisResponse text contentType st cookies))
          (js "Content-Length")
        = Some (Number_toString (Z.of_nat (List.length (iconv_encode text)))))
  /\ (forall created createdPost id,
        backend (threadRequest PUBLIC_API_BASE_URL request boardId subject
                   text author fingerprint) = Returns created ->
        statusCode created < 400 ->
        JSON_parse (api_body created) = Returns createdPost ->
        get_prop createdPost (js "id") = Returns id ->
        exists tr',
          createThread backend PUBLIC_API_BASE_URL request boardId subject
            text author fingerprint tr
          = (Returns {| status := 200;
                        headers := html_headers;
                        body := iconv_encode
                                  (successHtml boardId (String_ id)) |},
             tr')).
Proof.
  split; [apply createCgiSuccessResponse_page|].
  split; [apply successHtml_has_refresh|].
  split.
  { unfold createCgiErrorResponse, set_cookies, bind, ret, lift.
    destruct apiError as [r|]; [destruct (setCookieHeader r)|]; eauto. }
  split; [intros; apply new_Response_cases|].
  split; [apply errorHtml_has_message|].
  split; [intros; reflexivity|].
  split; [apply notVerifiedMessage_has_link|].
  split; [reflexivity|]. split; [reflexivity|].
  split; [intros; reflexivity|].
  intros created createdPost id Hcreated Hstatus Hparse Hid.
  unfold createThread, bind, nativeHttpRequest, lift.
  rewrite Hcreated.
  replace (400 <=? statusCode created) with false by lia.
  rewrite Hparse, Hid.
  apply createCgiSuccessResponse_page.
Qed.

(** A thread is created for a client without cookies: the page points to
    read.cgi with the id of the post as the key. *)
Lemma cgi_responses_lack_content_length_witness :
  let request := bare_request "bbs=1&MESSAGE=hi&subject=t" in
  let created :=
    {| statusCode := 201; setCookieHeader := None; api_body := js "7" |} in
  exists tr',
    @createThread iconv_lenient runtime_strings (fun _ => Returns created)
      (js "http://backend") request (js "1") (js "t") (js "hi") []
      (js "unknown") []
    = (Returns {| status := 200;
                  headers := html_headers;
                  body := @iconv_encode iconv_lenient
                            (successHtml (js "1") (js "7")) |}, tr').
Proof.
  intros request created.
  assert (H := @cgi_responses_lack_content_length
                 iconv_lenient entities_plain runtime_strings
                 (fun _ => Returns created) (js "http://backend") request
                 [] [] (js "1") [] [] (js "t") (js "hi") [] (js "unknown")
                 created None []).
  destruct H as (_ & _ & _ & _ & _ & _ & _ & _ & _ & _ & Hthread).
  apply (Hthread created (js "7") (js "7")).
  - reflexivity.
  - cbn [statusCode created]. lia.
  - reflexivity.
  - reflexivity.
Defined.

(** ** The visitor id *)

(** C6.  The visitor id is the hexadecimal digest of the texts of the
    [webgl], [canvas] and [audio] values, in this order, joined by [;]:
    the [JSON.stringify] text of an object value, [String(value)] of any
    other, and the empty text for a component that is missing, has no
    value or has a falsy one.  So two results whose three values are the
    same yield the same id, whatever else they hold; a component without a
    value contributes the empty text and does not stop the computation;
    a result stripped of all three has an id, the digest of [;;], whatever
    [JSON.stringify] does; and the text of an object value is what enters
    the digest.  The digest is written out as two lower-case hexadecimal
    digits for each of its bytes. *)
Theorem getVisitorId_deterministic_total
    {J : JsRuntime} {C : Crypto} (components1 components2 : Components) :
  let text := fun key =>
    match component_value components1 key with
    | Some v =>
        if truthy v then
          if typeof_object v then JSON_stringify v else Returns (String_ v)
        else Returns []
    | None => Returns []
    end in
  getVisitorId true components1
  = (webgl <- text (js "webgl") ;;
     canvas <- text (js "canvas") ;;
     audio <- text (js "audio") ;;
     Returns (sha256 (webgl ++ js ";" ++ canvas ++ js ";" ++ audio)))
  /\ (forall message,
        sha256 message
        = join [] (map (fun b => padStart2 (toString16 b))
                     (subtle_digest_SHA256 (TextEncoder_encode message))))
  /\ ((forall key, In key STABLE_COMPONENTS ->
         component_value components1 key = component_value components2 key) ->
      getVisitorId true components1 = getVisitorId true components2)
  /\ (forall key, component_value components1 key = None ->
        stableValue components1 key = Returns [])
  /\ ((forall key, In key STABLE_COMPONENTS ->
         component_value components1 key = None) ->
      getVisitorId true components1 = Returns (sha256 (js ";;")))
  /\ (forall webgl json,
        truthy webgl = true -> typeof_object webgl = true ->
        JSON_stringify webgl = Returns json ->
        getVisitorId true [(js "webgl", {| value := Some webgl |})]
        = Returns (sha256 (json ++ js ";;"))).
Proof.
  intros text.
  assert (Hs : forall cs key,
            stableValue cs key
            = match component_value cs key with
              | Some v =>
                  if truthy v then
                    if typeof_object v then JSON_stringify v
                    else Returns (String_ v)
                  else Returns []
              | None => Returns []
              end).
  { intros cs key. unfold component_value, stableValue.
    destruct (components_get cs key) as [c|]; reflexivity. }
  assert (Hid : forall cs,
            getVisitorId true cs
            = (webgl <- stableValue cs (js "webgl") ;;
               canvas <- stableValue cs (js "canvas") ;;
               audio <- stableValue cs (js "audio") ;;
               Returns (sha256 (webgl ++ js ";" ++ canvas ++ js ";" ++ audio)))).
  { intros cs. unfold getVisitorId, STABLE_COMPONENTS.
    cbn [negb map_keys].
    destruct (stableValue cs (js "webgl")) as [webgl|]; [|reflexivity].
    cbn [obind].
    destruct (stableValue cs (js "canvas")) as [canvas|]; [|reflexivity].
    cbn [obind].
    destruct (stableValue cs (js "audio")) as [audio|]; reflexivity. }
  split; [|split; [|split; [|split; [|split]]]].
  - rewrite Hid, !Hs. reflexivity.
  - reflexivity.
  - intros H. rewrite !Hid, !Hs.
    rewrite !H by (unfold STABLE_COMPONENTS; cbn [In]; auto).
    reflexivity.
  - intros key Hkey. now rewrite Hs, Hkey.
  - intros H. rewrite Hid, !Hs.
    rewrite !H by (unfold STABLE_COMPONENTS; cbn [In]; auto).
    reflexivity.
  - intros webgl json Htruthy Hobject Hjson.
    rewrite Hid, !Hs.
    assert (Ew : component_value [(js "webgl", {| value := Some webgl |})]
                   (js "webgl") = Some webgl) by now vm_compute.
    assert (Ec : component_value [(js "webgl", {| value := Some webgl |})]
                   (js "canvas") = None) by now vm_compute.
    assert (Ea : component_value [(js "webgl", {| value := Some webgl |})]
                   (js "audio") = None) by now vm_compute.
    rewrite Ew, Ec, Ea, Htruthy, Hobject, Hjson.
    cbn [obind]. do 2 f_equal.
Qed.

(** Two results that agree on the three components and differ elsewhere
    have the same id; a result without the three has the digest of [;;];
    an object value enters as its JSON text. *)
Lemma getVisitorId_deterministic_total_witness :
  let cs1 : @Components runtime_objects :=
    [(js "webgl", @Build_Component runtime_objects
                    (Some (Object (js "{gpu}") None)));
     (js "fonts", @Build_Component runtime_objects (Some (Text (js "a"))))] in
  let cs2 : @Components runtime_objects :=
    [(js "fonts", @Build_Component runtime_objects (Some (Text (js "b"))));
     (js "audio", @Build_Component runtime_objects None);
     (js "webgl", @Build_Component runtime_objects
                    (Some (Object (js "{gpu}") None)))] in
  @getVisitorId runtime_objects crypto_firstn true cs1
  = @getVisitorId runtime_objects crypto_firstn true cs2
  /\ @stableValue runtime_objects cs1 (js "canvas") = Returns []
  /\ @getVisitorId runtime_objects crypto_firstn true
       [(js "fonts", @Build_Component runtime_objects (Some (Text (js "a"))))]
     = Returns (@sha256 crypto_firstn (js ";;"))
  /\ @getVisitorId runtime_objects crypto_firstn true
       [(js "webgl", @Build_Component runtime_objects
                       (Some (Object (js "{gpu}") None)))]
     = Returns (@sha256 crypto_firstn (js "{gpu}" ++ js ";;")).
Proof.
  intros cs1 cs2.
  destruct (@getVisitorId_deterministic_total runtime_objects crypto_firstn
              cs1 cs2) as (_ & _ & Hsame & Hmissing & _ & Hobject).
  destruct (@getVisitorId_deterministic_total runtime_objects crypto_firstn
              [(js "fonts",
                @Build_Component runtime_objects (Some (Text (js "a"))))]
              []) as (_ & _ & _ & _ & Hstripped & _).
  split; [|split; [|split]].
  - apply Hsame. intros key [<-|[<-|[<-|[]]]]; reflexivity.
  - apply Hmissing. reflexivity.
  - apply Hstripped. intros key [<-|[<-|[<-|[]]]]; reflexivity.
  - apply (Hobject (Object (js "{gpu}") None) (js "{gpu}")); reflexivity.
Defined.

(** ** POST: validation and dispatch *)

Section PostFacts.
Context {I : IconvLite} {E : Entities} {J : JsRuntime}.
Variable backend : ApiRequest -> outcome ApiResponse.
Variable PUBLIC_API_BASE_URL : jsstring.

Lemma api_calls_app (tr1 tr2 : list Effect) :
  api_calls (tr1 ++ tr2) = api_calls tr1 ++ api_calls tr2.
Proof. unfold api_calls. apply flat_map_app. Qed.

(** An error page built without an API response has status 400, shows
    the default message and has no effect. *)
Lemma validation_error (defaultMessage boardId origin : jsstring)
    (tr : list Effect) :
  createCgiErrorResponse defaultMessage boardId None origin tr
  = (Returns {| status := 400;
                headers := html_headers;
                body := iconv_encode (errorHtml defaultMessage) |}, tr).
Proof.
  unfold createCgiErrorResponse, set_cookies, bind, ret, lift.
  cbn [errorStatus errorMessageOf].
  now rewrite new_Response_returns by (lia || reflexivity).
Qed.

(** The two constructors send no request; the error page throws when
    [new Response] refuses the status. *)
Lemma createCgiErrorResponse_calls (defaultMessage boardId origin : jsstring)
    (apiResponse : option ApiResponse) (tr : list Effect) :
  exists out tr',
    createCgiErrorResponse defaultMessage boardId apiResponse origin tr
    = (out, tr')
    /\ api_calls tr' = api_calls tr.
Proof.
  unfold createCgiErrorResponse, set_cookies, bind, ret, lift.
  destruct apiResponse as [a|]; [destruct (setCookieHeader a)|];
    (do 2 eexists; split; [reflexivity|]);
    rewrite ?api_calls_app; cbn; now rewrite ?app_nil_r.
Qed.

Lemma createCgiSuccessResponse_calls (message boardId threadKey : jsstring)
    (apiResponse : ApiResponse) (tr : list Effect) :
  exists r tr',
    createCgiSuccessResponse message boardId threadKey apiResponse tr
    = (Returns r, tr')
    /\ api_calls tr' = api_calls tr.
Proof.
  unfold createCgiSuccessResponse, set_cookies, bind, ret, lift.
  rewrite new_Response_returns by (lia || reflexivity).
  destruct (setCookieHeader apiResponse);
    (do 2 eexists; split; [reflexivity|]);
    rewrite ?api_calls_app; cbn; now rewrite ?app_nil_r.
Qed.

Lemma nativeHttpRequest_calls (r : ApiRequest) (tr : list Effect) :
  nativeHttpRequest backend r tr = (backend r, tr ++ [ApiCall r])
  /\ api_calls (tr ++ [ApiCall r]) = api_calls tr ++ [r].
Proof. split; [reflexivity|]. now rewrite api_calls_app. Qed.

(** The thread branch sends one request: the creation of the thread. *)
Lemma createThread_calls (request : Request)
    (bbs subject message author fingerprint : jsstring) (tr : list Effect) :
  exists out tr',
    createThread backend PUBLIC_API_BASE_URL request bbs subject message
      author fingerprint tr = (out, tr')
    /\ api_calls tr'
       = api_calls tr
         ++ [threadRequest PUBLIC_API_BASE_URL request bbs subject message
               author fingerprint].
Proof.
  unfold createThread, bind.
  destruct (nativeHttpRequest_calls
              (threadRequest PUBLIC_API_BASE_URL request bbs subject message
                 author fingerprint) tr) as [-> Hcalls].
  destruct (backend _) as [apiResponse|]; [|eauto].
  destruct (400 <=? statusCode apiResponse).
  - destruct (createCgiErrorResponse_calls (js "スレッドの作成に失敗しました。")
                bbs (url_origin request) (Some apiResponse)
                (tr ++ [ApiCall (threadRequest PUBLIC_API_BASE_URL request
                                   bbs subject message author fingerprint)]))
      as (r & tr' & -> & Hc).
    do 2 eexists. split; [reflexivity|]. now rewrite Hc.
  - unfold lift.
    destruct (JSON_parse (api_body apiResponse)) as [createdPost|]; [|eauto].
    destruct (get_prop createdPost (js "id")) as [id|]; [|eauto].
    destruct (createCgiSuccessResponse_calls (js "スレッドを作成しました。")
                bbs (String_ id) apiResponse
                (tr ++ [ApiCall (threadRequest PUBLIC_API_BASE_URL request
                                   bbs subject message author fingerprint)]))
      as (r & tr' & -> & Hc).
    do 2 eexists. split; [reflexivity|]. now rewrite Hc.
Qed.

(** The comment branch with a key: the lookup comes first; the comment
    is sent only when the lookup answered below 400 with a body that
    parses and has an [id], and it carries that id. *)
Lemma createComment_calls (request : Request)
    (bbs key message author fingerprint : jsstring) (tr : list Effect) :
  key <> [] ->
  exists out tr',
    createComment backend PUBLIC_API_BASE_URL request bbs key message
      author fingerprint tr = (out, tr')
    /\ (api_calls tr'
        = api_calls tr ++ [lookupRequest PUBLIC_API_BASE_URL request bbs key]
        \/ exists postRes targetPost id,
             backend (lookupRequest PUBLIC_API_BASE_URL request bbs key)
             = Returns postRes
             /\ statusCode postRes < 400
             /\ JSON_parse (api_body postRes) = Returns targetPost
             /\ get_prop targetPost (js "id") = Returns id
             /\ api_calls tr'
                = api_calls tr
                  ++ [lookupRequest PUBLIC_API_BASE_URL request bbs key;
                      commentRequest PUBLIC_API_BASE_URL request id message
                        author fingerprint]).
Proof.
  intros Hkey. unfold createComment.
  destruct key as [|c key']; [contradiction|]. cbn [is_empty].
  set (key := c :: key') in *. unfold bind.
  destruct (nativeHttpRequest_calls
              (lookupRequest PUBLIC_API_BASE_URL request bbs key) tr)
    as [-> Hcalls].
  set (tr1 := tr ++ [ApiCall (lookupRequest PUBLIC_API_BASE_URL request bbs key)])
    in *.
  destruct (backend (lookupRequest PUBLIC_API_BASE_URL request bbs key))
    as [postRes|] eqn:Hlookup; [|eauto].
  destruct (400 <=? statusCode postRes) eqn:Hstatus.
  - destruct (createCgiErrorResponse_calls
                (if statusCode postRes =? 404
                 then js "該当のスレッドが見つかりません。"
                 else js "スレッド情報の取得に失敗しました。")
                bbs (url_origin request) (Some postRes) tr1)
      as (r & tr' & -> & Hc).
    do 2 eexists. split; [reflexivity|]. left. now rewrite Hc.
  - apply Z.leb_gt in Hstatus. unfold lift.
    destruct (JSON_parse (api_body postRes)) as [targetPost|] eqn:Hparse;
      [|eauto].
    destruct (get_prop targetPost (js "id")) as [id|] eqn:Hid; [|eauto].
    destruct (nativeHttpRequest_calls
                (commentRequest PUBLIC_API_BASE_URL request id message
                   author fingerprint) tr1) as [-> Hcalls2].
    set (tr2 := tr1 ++ [ApiCall (commentRequest PUBLIC_API_BASE_URL request
                                   id message author fingerprint)]) in *.
    assert (Hboth : api_calls tr2
              = api_calls tr
                ++ [lookupRequest PUBLIC_API_BASE_URL request bbs key;
                    commentRequest PUBLIC_API_BASE_URL request id message
                      author fingerprint]).
    { rewrite Hcalls2, Hcalls, <- app_assoc. reflexivity. }
    destruct (backend (commentRequest _ _ _ _ _ _)) as [apiResponse|].
    + destruct (400 <=? statusCode apiResponse).
      * destruct (createCgiErrorResponse_calls (js "レスの投稿に失敗しました。")
                    bbs (url_origin request) (Some apiResponse) tr2)
          as (r & tr' & -> & Hc).
        do 2 eexists. split; [reflexivity|]. right.
        exists postRes, targetPost, id. rewrite Hc. auto.
      * destruct (createCgiSuccessResponse_calls (js "レスを投稿しました。")
                    bbs key apiResponse tr2) as (r & tr' & -> & Hc).
        do 2 eexists. split; [reflexivity|]. right.
        exists postRes, targetPost, id. rewrite Hc. auto.
    + do 2 eexists. split; [reflexivity|]. right.
      exists postRes, targetPost, id. auto.
Qed.

(** The requests of the comment branch with a key, case by case. *)
Lemma createComment_requests (request : Request)
    (bbs key message author fingerprint : jsstring) (tr : list Effect) :
  key <> [] ->
  let lookup := lookupRequest PUBLIC_API_BASE_URL request bbs key in
  exists out tr',
    createComment backend PUBLIC_API_BASE_URL request bbs key message
      author fingerprint tr = (out, tr')
    /\ api_calls tr'
       = api_calls tr
         ++ match backend lookup with
            | Returns postRes =>
                if 400 <=? statusCode postRes then [lookup]
                else
                  match JSON_parse (api_body postRes) with
                  | Returns targetPost =>
                      match get_prop targetPost (js "id") with
                      | Returns id =>
                          [lookup;
                           commentRequest PUBLIC_API_BASE_URL request id
                             message author fingerprint]
                      | Throws => [lookup]
                      end
                  | Throws => [lookup]
                  end
            | Throws => [lookup]
            end.
Proof.
  intros Hkey lookup. unfold createComment.
  destruct key as [|c key']; [contradiction|]. cbn [is_empty].
  set (key := c :: key') in *. unfold bind.
  destruct (nativeHttpRequest_calls lookup tr) as [Hrequest Hcalls].
  fold lookup. rewrite Hrequest.
  set (tr1 := tr ++ [ApiCall lookup]) in *.
  destruct (backend lookup) as [postRes|]; [|eauto].
  destruct (400 <=? statusCode postRes).
  - destruct (createCgiErrorResponse_calls
                (if statusCode postRes =? 404
                 then js "該当のスレッドが見つかりません。"
                 else js "スレッド情報の取得に失敗しました。")
                bbs (url_origin request) (Some postRes) tr1)
      as (r & tr' & -> & Hc).
    do 2 eexists. split; [reflexivity|]. now rewrite Hc.
  - unfold lift.
    destruct (JSON_parse (api_body postRes)) as [targetPost|]; [|eauto].
    destruct (get_prop targetPost (js "id")) as [id|]; [|eauto].
    destruct (nativeHttpRequest_calls
                (commentRequest PUBLIC_API_BASE_URL request id message
                   author fingerprint) tr1) as [-> Hcalls2].
    set (tr2 := tr1 ++ [ApiCall (commentRequest PUBLIC_API_BASE_URL request
                                   id message author fingerprint)]) in *.
    assert (Hboth : api_calls tr2
              = api_calls tr
                ++ [lookup;
                    commentRequest PUBLIC_API_BASE_URL request id message
                      author fingerprint]).
    { rewrite Hcalls2, Hcalls, <- app_assoc. reflexivity. }
    destruct (backend (commentRequest _ _ _ _ _ _)) as [apiResponse|];
      [|eauto].
    destruct (400 <=? statusCode apiResponse).
    + destruct (createCgiErrorResponse_calls (js "レスの投稿に失敗しました。")
                  bbs (url_origin request) (Some apiResponse) tr2)
        as (r & tr' & -> & Hc).
      do 2 eexists. split; [reflexivity|]. now rewrite Hc.
    + destruct (createCgiSuccessResponse_calls (js "レスを投稿しました。")
                  bbs key apiResponse tr2) as (r & tr' & -> & Hc).
      do 2 eexists. split; [reflexivity|]. now rewrite Hc.
Qed.

(** The catch block of POST adds no request. *)
Lemma try_catch_unexpected_calls (request : Request) (bbs : jsstring)
    (c : M Response) (tr : list Effect) (out : outcome Response)
    (tr' : list Effect) :
  c tr = (out, tr') ->
  exists r tr'',
    try_catchM c (unexpectedError request bbs) tr = (Returns r, tr'')
    /\ api_calls tr'' = api_calls tr'.
Proof.
  intros Hc. unfold try_catchM. rewrite Hc.
  destruct out as [r|]; [eauto|].
  unfold unexpectedError. rewrite validation_error. eauto.
Qed.
End PostFacts.

Lemma is_empty_true (s : jsstring) : is_empty s = true <-> s = [].
Proof. destruct s; simpl; split; congruence. Qed.

Lemma is_empty_false (s : jsstring) : is_empty s = false <-> s <> [].
Proof. destruct s; simpl; split; congruence. Qed.

(** C7.  When the decoded form has no board id or no body, or has neither
    a subject nor a thread key, POST answers at once with the error page of
    the validation, status 400, and the effects are what they were before:
    no request has gone to the backend and no cookie has been set.  (An
    absent field and an empty one are the same to POST: both read as the
    empty text.) *)
Theorem missing_field_is_rejected_without_calls
    {I : IconvLite} {E : Entities} {J : JsRuntime}
    (backend : ApiRequest -> outcome ApiResponse)
    (PUBLIC_API_BASE_URL : jsstring)
    (request : Request) (fd : URLSearchParams) (tr : list Effect) :
  formData (arrayBuffer request) = Returns fd ->
  (field fd "bbs" = [] \/ field fd "MESSAGE" = []
   \/ (field fd "subject" = [] /\ field fd "key" = [])) ->
  exists reason,
    POST backend PUBLIC_API_BASE_URL request tr
    = (Returns {| status := 400;
                  headers := html_headers;
                  body := iconv_encode (errorHtml reason) |}, tr)
    /\ (reason = js "板IDまたは本文がありません。"
        \/ reason = js "スレッドが指定されていません。").
Proof.
  intros Hfd Hmissing. unfold POST. rewrite Hfd. unfold dispatch, try_catchM.
  cbv zeta.
  destruct (is_empty (field fd "bbs") || is_empty (field fd "MESSAGE")) eqn:Hreq.
  - exists (js "板IDまたは本文がありません。").
    rewrite validation_error. split; [reflexivity | now left].
  - apply orb_false_iff in Hreq as [Hb Hm].
    apply is_empty_false in Hb, Hm.
    destruct Hmissing as [H|[H|[Hs Hk]]]; try contradiction.
    rewrite Hs. cbn [is_empty negb]. unfold createComment.
    rewrite Hk. cbn [is_empty].
    exists (js "スレッドが指定されていません。").
    rewrite validation_error. split; [reflexivity | now right].
Qed.

Lemma missing_field_is_rejected_without_calls_witness :
  let request := bare_request "subject=t&FROM=a" in
  let fd := [(js "subject", js "t"); (js "FROM", js "a")] in
  @formData iconv_lenient entities_plain (arrayBuffer request) = Returns fd
  /\ field fd "bbs" = []
  /\ exists reason,
       @POST iconv_lenient entities_plain runtime_strings
         (fun _ => Throws) (js "http://backend") request []
       = (Returns {| status := 400;
                     headers := html_headers;
                     body := @iconv_encode iconv_lenient (errorHtml reason) |},
          []).
Proof.
  intros request fd.
  assert (Hfd : @formData iconv_lenient entities_plain (arrayBuffer request)
                = Returns fd) by (vm_compute; reflexivity).
  assert (Hbbs : field fd "bbs" = []) by reflexivity.
  split; [exact Hfd|]. split; [exact Hbbs|].
  destruct (@missing_field_is_rejected_without_calls
              iconv_lenient entities_plain runtime_strings
              (fun _ => Throws) (js "http://backend") request fd []
              Hfd (or_introl Hbbs)) as [reason [HPOST _]].
  exists reason. exact HPOST.
Defined.

(** C9, counterexample.  A submission with a subject and nothing else:
    the validation of lines 226-229 answers first, and no request goes to
    the posts endpoint. *)
Lemma subject_without_body_is_not_routed :
  @requests_of_POST iconv_lenient entities_plain runtime_strings
    (fun _ => Throws) (js "http://backend") (bare_request "subject=t") = []
  /\ ~ @subject_decides_route iconv_lenient entities_plain runtime_strings
         (fun _ => Throws) (js "http://backend") (bare_request "subject=t").
Proof.
  split; [vm_compute; reflexivity|].
  intros H.
  destruct (H [(js "subject", js "t")]) as [Hthread _];
    [vm_compute; reflexivity|].
  destruct Hthread as [rest Hrest]; [vm_compute; discriminate|].
  vm_compute in Hrest. discriminate.
Qed.

(** C9, amended.  For every decoded submission that has a board id and
    a body.  With a subject, POST sends exactly one request, the creation
    of the thread at the posts endpoint, with the subject as title.
    Without a subject it is a comment, which needs a key: without a key
    nothing is sent; with a key the first request is the lookup by
    timestamp, and the comment endpoint is called after it exactly when
    the lookup answered with a status below 400 and a body that
    [JSON.parse] accepts and from which [id] can be read.  The comment
    carries what was read as its post id: nothing checks that the answer
    has an [id], and a body without one has the comment sent with
    [undefined]. *)
Theorem validated_submission_is_routed_by_subject
    {I : IconvLite} {E : Entities} {J : JsRuntime}
    (backend : ApiRequest -> outcome ApiResponse)
    (PUBLIC_API_BASE_URL : jsstring)
    (request : Request) (fd : URLSearchParams) :
  formData (arrayBuffer request) = Returns fd ->
  field fd "bbs" <> [] -> field fd "MESSAGE" <> [] ->
  (field fd "subject" <> [] ->
   requests_of_POST backend PUBLIC_API_BASE_URL request
   = [threadRequest PUBLIC_API_BASE_URL request (field fd "bbs")
        (field fd "subject") (field fd "MESSAGE") (field fd "FROM")
        (fingerprintOf request)])
  /\ (field fd "subject" = [] -> field fd "key" = [] ->
      requests_of_POST backend PUBLIC_API_BASE_URL request = [])
  /\ (field fd "subject" = [] -> field fd "key" <> [] ->
      let lookup :=
        lookupRequest PUBLIC_API_BASE_URL request (field fd "bbs")
          (field fd "key") in
      requests_of_POST backend PUBLIC_API_BASE_URL request
      = match backend lookup with
        | Returns postRes =>
            if 400 <=? statusCode postRes then [lookup]
            else
              match JSON_parse (api_body postRes) with
              | Returns targetPost =>
                  match get_prop targetPost (js "id") with
                  | Returns id =>
                      [lookup;
                       commentRequest PUBLIC_API_BASE_URL request id
                         (field fd "MESSAGE") (field fd "FROM")
                         (fingerprintOf request)]
                  | Throws => [lookup]
                  end
              | Throws => [lookup]
              end
        | Throws => [lookup]
        end).
Proof.
  intros Hfd Hbbs Hmsg.
  apply is_empty_false in Hbbs, Hmsg.
  unfold requests_of_POST, POST. rewrite Hfd. unfold dispatch. cbv zeta.
  rewrite Hbbs, Hmsg. cbn [orb].
  split; [|split].
  - intros Hsubject. apply is_empty_false in Hsubject. rewrite Hsubject.
    cbn [negb].
    destruct (createThread_calls backend PUBLIC_API_BASE_URL request
                (field fd "bbs") (field fd "subject") (field fd "MESSAGE")
                (field fd "FROM") (fingerprintOf request) [])
      as (out & tr' & Hc & Hcalls).
    destruct (try_catch_unexpected_calls request (field fd "bbs") _ _ _ _ Hc)
      as (r & tr'' & -> & Hcalls'').
    cbn [snd]. now rewrite Hcalls'', Hcalls.
  - intros Hsubject Hkey. rewrite Hsubject. cbn [is_empty negb].
    unfold createComment. rewrite Hkey. cbn [is_empty].
    unfold try_catchM. rewrite validation_error. reflexivity.
  - intros Hsubject Hkey. rewrite Hsubject. cbn [is_empty negb].
    destruct (createComment_requests backend PUBLIC_API_BASE_URL request
                (field fd "bbs") (field fd "key") (field fd "MESSAGE")
                (field fd "FROM") (fingerprintOf request) [] Hkey)
      as (out & tr' & Hc & Hcalls).
    destruct (try_catch_unexpected_calls request (field fd "bbs") _ _ _ _ Hc)
      as (r & tr'' & -> & Hcalls'').
    cbn [snd]. rewrite Hcalls''. exact Hcalls.
Qed.

(** A submission with a subject creates a thread.  A submission with a
    key and a lookup that answers [{}]: the comment is sent, and its post
    id is [undefined]. *)
Lemma validated_submission_is_routed_by_subject_witness :
  let answer :=
    {| statusCode := 200; setCookieHeader := None; api_body := js "{}" |} in
  let thread := bare_request "bbs=1&MESSAGE=hi&subject=t" in
  let comment := bare_request "bbs=1&MESSAGE=hi&key=5" in
  @requests_of_POST iconv_lenient entities_plain runtime_objects
    (fun _ => Returns answer) (js "http://backend") thread
  = [@threadRequest runtime_objects (js "http://backend") thread
       (js "1") (js "t") (js "hi") [] (js "unknown")]
  /\ @requests_of_POST iconv_lenient entities_plain runtime_objects
       (fun _ => Returns answer) (js "http://backend") comment
     = [@lookupRequest runtime_objects (js "http://backend") comment
          (js "1") (js "5");
        @commentRequest runtime_objects (js "http://backend") comment
          Undefined (js "hi") [] (js "unknown")].
Proof.
  intros answer thread comment. split.
  - set (fd := [(js "bbs", js "1"); (js "MESSAGE", js "hi");
                (js "subject", js "t")]).
    assert (Hfd : @formData iconv_lenient entities_plain (arrayBuffer thread)
                  = Returns fd) by (vm_compute; reflexivity).
    assert (Hbbs : field fd "bbs" <> []) by (vm_compute; discriminate).
    assert (Hmsg : field fd "MESSAGE" <> []) by (vm_compute; discriminate).
    assert (Hsub : field fd "subject" <> []) by (vm_compute; discriminate).
    destruct (@validated_submission_is_routed_by_subject
                iconv_lenient entities_plain runtime_objects
                (fun _ => Returns answer) (js "http://backend") thread fd
                Hfd Hbbs Hmsg) as [Hthread _].
    exact (Hthread Hsub).
  - set (fd := [(js "bbs", js "1"); (js "MESSAGE", js "hi");
                (js "key", js "5")]).
    assert (Hfd : @formData iconv_lenient entities_plain (arrayBuffer comment)
                  = Returns fd) by (vm_compute; reflexivity).
    assert (Hbbs : field fd "bbs" <> []) by (vm_compute; discriminate).
    assert (Hmsg : field fd "MESSAGE" <> []) by (vm_compute; discriminate).
    assert (Hsub : field fd "subject" = []) by (vm_compute; reflexivity).
    assert (Hkey : field fd "key" <> []) by (vm_compute; discriminate).
    destruct (@validated_submission_is_routed_by_subject
                iconv_lenient entities_plain runtime_objects
                (fun _ => Returns answer) (js "http://backend") comment fd
                Hfd Hbbs Hmsg) as (_ & _ & Hcomment).
    exact (Hcomment Hsub Hkey).
Defined.

(** ** The dat-field escaper *)

Lemma three_passes_cons_amp (r : jsstring) :
  three_passes (0x26 :: r) = js "&amp;" ++ three_passes r.
Proof. reflexivity. Qed.

Lemma three_passes_cons_lt (r : jsstring) :
  three_passes (0x3C :: r) = js "&lt;" ++ three_passes r.
Proof. reflexivity. Qed.

Lemma three_passes_cons_lf (r : jsstring) :
  three_passes (0xA :: r) = js " " ++ three_passes r.
Proof. reflexivity. Qed.

Lemma three_passes_cons_other (c : Z) (r : jsstring) :
  c <> 0x26 -> c <> 0x3C -> c <> 0xA -> c <> 0xD ->
  three_passes (c :: r) = c :: three_passes r.
Proof.
  intros H1 H2 H3 H4. unfold three_passes, replace_char. cbn [flat_map].
  apply Z.eqb_neq in H1, H2, H3, H4.
  rewrite H1. cbn [app flat_map]. rewrite H2. cbn [app replace_newlines].
  now rewrite H3, H4.
Qed.

Lemma replace_char_cons_other (x : Z) (by_ : jsstring) (c : Z) (r : jsstring) :
  c <> x -> replace_char x by_ (c :: r) = c :: replace_char x by_ r.
Proof.
  intros H. unfold replace_char. cbn [flat_map].
  apply Z.eqb_neq in H. now rewrite H.
Qed.

(** A CR is dropped exactly when the text goes on with an LF. *)
Lemma three_passes_cr (r : jsstring) :
  three_passes (0xD :: r)
  = match r with
    | d :: r' =>
        if d =? 0xA then js " " ++ three_passes r'
        else 0xD :: three_passes r
    | [] => [0xD]
    end.
Proof.
  destruct r as [|d r']; [reflexivity|].
  destruct (Z.eq_dec d 0x26) as [->|H1]; [reflexivity|].
  destruct (Z.eq_dec d 0x3C) as [->|H2]; [reflexivity|].
  destruct (Z.eq_dec d 0xA) as [->|H3]; [reflexivity|].
  pose proof H3 as H3'. apply Z.eqb_neq in H3'. rewrite H3'.
  unfold three_passes.
  rewrite (replace_char_cons_other 0x26 _ 0xD) by discriminate.
  rewrite (replace_char_cons_other 0x26 _ d) by exact H1.
  rewrite (replace_char_cons_other 0x3C _ 0xD) by discriminate.
  rewrite (replace_char_cons_other 0x3C _ d) by exact H2.
  set (rest := replace_char 0x3C (js "&lt;") (replace_char 0x26 (js "&amp;") r')).
  change (replace_newlines (js " ") (0xD :: d :: rest))
    with (if d =? 0xA then js " " ++ replace_newlines (js " ") rest
          else 0xD :: replace_newlines (js " ") (d :: rest)).
  now rewrite H3'.
Qed.

(** The three passes are the one pass. *)
Lemma three_passes_one_pass (t : jsstring) :
  three_passes t = escape_in_one_pass t.
Proof.
  assert (H : forall n t, (List.length t <= n)%nat ->
            three_passes t = escape_in_one_pass t).
  { clear t. induction n as [|n IH]; intros t Hn.
    - destruct t; [reflexivity | simpl in Hn; lia].
    - destruct t as [|c r]; [reflexivity|]. simpl in Hn.
      cbn [escape_in_one_pass].
      destruct (Z.eq_dec c 0x26) as [->|H1].
      { rewrite three_passes_cons_amp, IH by lia. reflexivity. }
      destruct (Z.eq_dec c 0x3C) as [->|H2].
      { rewrite three_passes_cons_lt, IH by lia. reflexivity. }
      destruct (Z.eq_dec c 0xA) as [->|H3].
      { rewrite three_passes_cons_lf, IH by lia. reflexivity. }
      destruct (Z.eq_dec c 0xD) as [->|H4].
      { rewrite three_passes_cr. cbn [Z.eqb].
        destruct r as [|d r']; [reflexivity|].
        simpl in Hn. destruct (d =? 0xA).
        - rewrite IH by lia. reflexivity.
        - rewrite IH by (simpl; lia). reflexivity. }
      rewrite three_passes_cons_other, IH by (assumption || lia).
      apply Z.eqb_neq in H1, H2, H3, H4. now rewrite H1, H2, H3, H4. }
  apply (H (List.length t)). lia.
Qed.

(** A replacement text has none of the three characters. *)
Lemma replacement_prefix (p out src : jsstring) :
  ~ In 0x3C p -> ~ In 0xA p -> filter (fun c => c =? 0x3E) p = [] ->
  ~ In 0x3C out /\ ~ In 0xA out
  /\ filter (fun c => c =? 0x3E) out = filter (fun c => c =? 0x3E) src ->
  ~ In 0x3C (p ++ out) /\ ~ In 0xA (p ++ out)
  /\ filter (fun c => c =? 0x3E) (p ++ out) = filter (fun c => c =? 0x3E) src.
Proof.
  intros P1 P2 P3 (A1 & A2 & A3). repeat split.
  - intros H. apply in_app_iff in H. tauto.
  - intros H. apply in_app_iff in H. tauto.
  - now rewrite filter_app, P3, A3.
Qed.

Lemma kept_character (c : Z) (out src : jsstring) :
  c <> 0x3C -> c <> 0xA ->
  ~ In 0x3C out /\ ~ In 0xA out
  /\ filter (fun c => c =? 0x3E) out = filter (fun c => c =? 0x3E) src ->
  ~ In 0x3C (c :: out) /\ ~ In 0xA (c :: out)
  /\ filter (fun c => c =? 0x3E) (c :: out)
     = filter (fun c => c =? 0x3E) (c :: src).
Proof.
  intros C1 C2 (A1 & A2 & A3). repeat split.
  - intros [H|H]; [congruence | tauto].
  - intros [H|H]; [congruence | tauto].
  - cbn [filter]. now rewrite A3.
Qed.

Lemma amp_is_clean :
  ~ In 0x3C (js "&amp;") /\ ~ In 0xA (js "&amp;")
  /\ filter (fun c => c =? 0x3E) (js "&amp;") = [].
Proof.
  repeat split; try reflexivity; not_in_text.
Qed.

Lemma lt_is_clean :
  ~ In 0x3C (js "&lt;") /\ ~ In 0xA (js "&lt;")
  /\ filter (fun c => c =? 0x3E) (js "&lt;") = [].
Proof.
  repeat split; try reflexivity; not_in_text.
Qed.

Lemma space_is_clean :
  ~ In 0x3C (js " ") /\ ~ In 0xA (js " ")
  /\ filter (fun c => c =? 0x3E) (js " ") = [].
Proof.
  repeat split; try reflexivity; not_in_text.
Qed.

Lemma escape_in_one_pass_facts (t : jsstring) :
  ~ In 0x3C (escape_in_one_pass t)
  /\ ~ In 0xA (escape_in_one_pass t)
  /\ filter (fun c => c =? 0x3E) (escape_in_one_pass t)
     = filter (fun c => c =? 0x3E) t.
Proof.
  assert (H : forall n t, (List.length t <= n)%nat ->
            ~ In 0x3C (escape_in_one_pass t)
            /\ ~ In 0xA (escape_in_one_pass t)
            /\ filter (fun c => c =? 0x3E) (escape_in_one_pass t)
               = filter (fun c => c =? 0x3E) t).
  { clear t. induction n as [|n IH]; intros t Hn.
    - destruct t; [|simpl in Hn; lia]. simpl. tauto.
    - destruct t as [|c r]; [simpl; tauto|]. simpl in Hn.
      assert (Hr : (List.length r <= n)%nat) by lia.
      pose proof (IH r Hr) as A.
      destruct amp_is_clean as (P1 & P2 & P3).
      destruct lt_is_clean as (Q1 & Q2 & Q3).
      destruct space_is_clean as (S1 & S2 & S3).
      cbn [escape_in_one_pass].
      destruct (Z.eq_dec c 0x26) as [->|H1].
      { change (0x26 =? 0x26) with true. cbv iota.
        change (filter (fun c => c =? 0x3E) (0x26 :: r))
          with (filter (fun c => c =? 0x3E) r).
        now apply replacement_prefix. }
      destruct (Z.eq_dec c 0x3C) as [->|H2].
      { change (0x3C =? 0x26) with false. change (0x3C =? 0x3C) with true.
        cbv iota.
        change (filter (fun c => c =? 0x3E) (0x3C :: r))
          with (filter (fun c => c =? 0x3E) r).
        now apply replacement_prefix. }
      destruct (Z.eq_dec c 0xA) as [->|H3].
      { change (0xA =? 0x26) with false. change (0xA =? 0x3C) with false.
        change (0xA =? 0xA) with true. cbv iota.
        change (filter (fun c => c =? 0x3E) (0xA :: r))
          with (filter (fun c => c =? 0x3E) r).
        now apply replacement_prefix. }
      pose proof H1 as E1. pose proof H2 as E2. pose proof H3 as E3.
      apply Z.eqb_neq in E1, E2, E3. rewrite E1, E2, E3.
      destruct (c =? 0xD) eqn:E4; [|now apply kept_character].
      apply Z.eqb_eq in E4. subst c.
      destruct r as [|d r'].
      + repeat split; try reflexivity;
          intros [H|[]]; discriminate.
      + destruct (d =? 0xA) eqn:Ed; [|now apply kept_character].
        apply Z.eqb_eq in Ed. subst d. simpl in Hr.
        change (filter (fun c => c =? 0x3E) (0xD :: 0xA :: r'))
          with (filter (fun c => c =? 0x3E) r').
        apply replacement_prefix; auto. apply IH. lia. }
  apply (H (List.length t)). lia.
Qed.

(** C10, counterexample.  A CR that no LF follows is not matched by
    [/\r?\n/g]: the field comes back with the CR in it. *)
Lemma lone_carriage_return_survives :
  escapeDatField (Some (js "a" ++ [0xD] ++ js "b")) = js "a" ++ [0xD] ++ js "b"
  /\ ~ no_raw_lt_or_newline (escapeDatField (Some (js "a" ++ [0xD] ++ js "b"))).
Proof.
  split; [reflexivity|].
  intros (_ & _ & H). apply H. vm_compute. right. now left.
Qed.

(** C10, amended.  [null] and [undefined] give the empty text.  On every
    text the three replacements amount to one pass in which [&] becomes
    [&amp;], [<] becomes [&lt;], every LF becomes a space, a CR followed
    by an LF becomes, with it, one space, and every other character, [>]
    and a CR that no LF follows included, stays.  So no field the escaper
    produces has a raw [<] or an LF, and its [>] are those of the text. *)
Theorem escapeDatField_escapes (t : jsstring) :
  escapeDatField None = []
  /\ escapeDatField (Some t) = escape_in_one_pass t
  /\ ~ In 0x3C (escapeDatField (Some t))
  /\ ~ In 0xA (escapeDatField (Some t))
  /\ filter (fun c => c =? 0x3E) (escapeDatField (Some t))
     = filter (fun c => c =? 0x3E) t.
Proof.
  assert (He : escapeDatField (Some t) = escape_in_one_pass t).
  { unfold escapeDatField. destruct t as [|c r]; [reflexivity|].
    cbn [is_empty]. apply (three_passes_one_pass (c :: r)). }
  split; [reflexivity|]. split; [exact He|]. rewrite He.
  apply escape_in_one_pass_facts.
Qed.

(** ** The lock table *)

Lemma has_key_eq (k : string) (l : Lock) : has_key k l = true <-> target_key l = k.
Proof. unfold has_key. apply String.eqb_eq. Qed.

Lemma keys_filter_NoDup (p : Lock -> bool) (t : LockTable) :
  NoDup (map target_key t) -> NoDup (map target_key (filter p t)).
Proof.
  induction t as [|r rest IH]; intros H; [constructor|].
  inversion H as [|? ? Hnotin Hrest]; subst. simpl.
  destruct (p r); [|now apply IH].
  simpl. constructor; [|now apply IH].
  intros Hin. apply Hnotin. apply in_map_iff in Hin as [x [Hx Hf]].
  apply filter_In in Hf as [Hf _]. apply in_map_iff. now exists x.
Qed.

Lemma later_key (r l : Lock) :
  target_key l = target_key r -> target_key (later r l) = target_key r.
Proof. unfold later. now destruct (expires_at r <? expires_at l). Qed.

Lemma later_expiry (r l : Lock) :
  expires_at (later r l) = Z.max (expires_at r) (expires_at l).
Proof.
  unfold later. destruct (expires_at r <? expires_at l) eqn:E.
  - apply Z.ltb_lt in E. lia.
  - apply Z.ltb_ge in E. lia.
Qed.

Lemma keys_upsert (l : Lock) (t : LockTable) :
  map target_key (upsert_lock l t)
  = if existsb (has_key (target_key l)) t then map target_key t
    else map target_key t ++ [target_key l].
Proof.
  induction t as [|r rest IH]; [reflexivity|].
  simpl. destruct (has_key (target_key l) r) eqn:E; simpl.
  - apply has_key_eq in E. now rewrite later_key.
  - rewrite IH. now destruct (existsb _ rest).
Qed.

Lemma key_absent (k : string) (t : LockTable) :
  existsb (has_key k) t = false -> ~ In k (map target_key t).
Proof.
  intros H Hin. apply in_map_iff in Hin as [r [Hr Hin]].
  assert (existsb (has_key k) t = true).
  { apply existsb_exists. exists r. split; [exact Hin|]. now apply has_key_eq. }
  congruence.
Qed.

Lemma keys_snoc_NoDup (k : string) (t : LockTable) :
  NoDup (map target_key t) -> existsb (has_key k) t = false ->
  NoDup (map target_key t ++ [k]).
Proof.
  intros Hnd Habs. apply NoDup_app; [exact Hnd | repeat constructor; intros [] |].
  intros x Hx [Hkx|[]]. subst x. now apply (key_absent k t).
Qed.

(** Every statement keeps the keys of the table distinct: the primary key
    refuses the insert that would not, and the upsert updates in place. *)
Lemma execute_keeps_keys_distinct (s : LockStatement) (t : LockTable) :
  NoDup (map target_key t) -> NoDup (map target_key (execute s t)).
Proof.
  intros H. destruct s as [l|l|k|now|rule]; simpl.
  - unfold insert_lock.
    destruct (existsb (has_key (target_key l)) t) eqn:E; [exact H|].
    rewrite map_app. now apply keys_snoc_NoDup.
  - rewrite keys_upsert.
    destruct (existsb (has_key (target_key l)) t) eqn:E; [exact H|].
    now apply keys_snoc_NoDup.
  - now apply keys_filter_NoDup.
  - now apply keys_filter_NoDup.
  - now apply keys_filter_NoDup.
Qed.

Lemma reachable_keys_distinct (t : LockTable) :
  reachable t -> NoDup (map target_key t).
Proof.
  induction 1 as [|s t Hr IH]; [constructor|].
  now apply execute_keeps_keys_distinct.
Qed.

Lemma rows_of_absent (k : string) (t : LockTable) :
  ~ In k (map target_key t) -> rows_of k t = [].
Proof.
  intros H. unfold rows_of. induction t as [|r rest IH]; [reflexivity|].
  simpl. destruct (has_key k r) eqn:E.
  - exfalso. apply H. left. now apply has_key_eq.
  - apply IH. intros Hin. apply H. now right.
Qed.

(** With distinct keys a key has at most one row. *)
Lemma rows_of_at_most_one (k : string) (t : LockTable) :
  NoDup (map target_key t) -> (List.length (rows_of k t) <= 1)%nat.
Proof.
  induction t as [|r rest IH]; intros H; [simpl; lia|].
  inversion H as [|? ? Hnotin Hrest]; subst.
  unfold rows_of in *. simpl. destruct (has_key k r) eqn:E.
  - apply has_key_eq in E. subst k.
    change (filter (has_key (target_key r)) rest)
      with (rows_of (target_key r) rest).
    rewrite rows_of_absent by exact Hnotin. simpl. lia.
  - now apply IH.
Qed.

Lemma active_locks_among_rows (k : string) (now : Z) (t : LockTable) :
  (List.length (active_locks k now t) <= List.length (rows_of k t))%nat.
Proof.
  unfold active_locks, rows_of. induction t as [|r rest IH]; [simpl; lia|].
  simpl. destruct (has_key k r); simpl; [|exact IH].
  destruct (now <? expires_at r); simpl; lia.
Qed.

(** After an upsert the key has exactly one row, and its expiry is the
    later of the stored one, if there was one, and the new one. *)
Lemma rows_of_upsert (l : Lock) (t : LockTable) :
  NoDup (map target_key t) ->
  exists row,
    rows_of (target_key l) (upsert_lock l t) = [row]
    /\ expires_at row
       = match rows_of (target_key l) t with
         | r :: _ => Z.max (expires_at r) (expires_at l)
         | [] => expires_at l
         end.
Proof.
  induction t as [|r rest IH]; intros H.
  - exists l. unfold rows_of. simpl.
    assert (E : has_key (target_key l) l = true) by now apply has_key_eq.
    now rewrite E.
  - inversion H as [|? ? Hnotin Hrest]; subst.
    unfold rows_of in *. simpl.
    destruct (has_key (target_key l) r) eqn:E; simpl.
    + pose proof E as Ek. apply has_key_eq in Ek.
      assert (E' : has_key (target_key l) (later r l) = true).
      { apply has_key_eq. rewrite later_key; auto. }
      rewrite E'. exists (later r l).
      change (filter (has_key (target_key l)) rest)
        with (rows_of (target_key l) rest).
      rewrite rows_of_absent by (rewrite <- Ek; exact Hnotin).
      split; [reflexivity | apply later_expiry].
    + rewrite E. now apply IH.
Qed.

(** C8.  In every state the table can reach by inserts (which the primary
    key on [target_key] refuses when the key is there), upserts, deletions
    and the cascade, the keys of the rows are distinct; so a key has at most
    one lock that has not expired, at any time.  Two requests that both
    create a lock for one key, in either order, leave one row for it, and
    its expiry is the latest of those written, the same in both orders. *)
Theorem one_lock_per_target_key (t : LockTable) :
  reachable t ->
  NoDup (map target_key t)
  /\ (forall k now, (List.length (active_locks k now t) <= 1)%nat)
  /\ (forall l1 l2, target_key l1 = target_key l2 ->
        exists row12 row21,
          rows_of (target_key l1) (execute (Upsert l2) (execute (Upsert l1) t))
          = [row12]
          /\ rows_of (target_key l1) (execute (Upsert l1) (execute (Upsert l2) t))
             = [row21]
          /\ expires_at row12 = expires_at row21
          /\ Z.max (expires_at l1) (expires_at l2) <= expires_at row12).
Proof.
  intros Hr. pose proof (reachable_keys_distinct t Hr) as Hnd.
  split; [exact Hnd|]. split.
  - intros k now.
    pose proof (active_locks_among_rows k now t).
    pose proof (rows_of_at_most_one k t Hnd). lia.
  - intros l1 l2 Hk. cbn [execute].
    destruct l2 as [k2 rule2 e2]. cbn [target_key expires_at] in *. subst k2.
    set (l2 := {| target_key := target_key l1; rule_id := rule2;
                  expires_at := e2 |}).
    pose proof (execute_keeps_keys_distinct (Upsert l1) t Hnd) as Hnd1.
    pose proof (execute_keeps_keys_distinct (Upsert l2) t Hnd) as Hnd2.
    cbn [execute] in Hnd1, Hnd2.
    destruct (rows_of_upsert l1 t Hnd) as (r1 & Hr1 & He1).
    destruct (rows_of_upsert l2 t Hnd) as (r2 & Hr2 & He2).
    destruct (rows_of_upsert l2 (upsert_lock l1 t) Hnd1) as (r12 & Hr12 & He12).
    destruct (rows_of_upsert l1 (upsert_lock l2 t) Hnd2) as (r21 & Hr21 & He21).
    change (target_key l2) with (target_key l1) in *.
    change (expires_at l2) with e2 in *.
    rewrite Hr1 in He12. rewrite Hr2 in He21.
    exists r12, r21. split; [exact Hr12|]. split; [exact Hr21|].
    rewrite He12, He21, He1, He2.
    destruct (rows_of (target_key l1) t) as [|r0 ?]; lia.
Qed.

Lemma one_lock_per_target_key_witness :
  let first := {| target_key := "ip:203.0.113.7"; rule_id := 1; expires_at := 300 |} in
  let second := {| target_key := "ip:203.0.113.7"; rule_id := 1; expires_at := 360 |} in
  let t := execute (Insert second) (execute (Upsert first) []) in
  reachable t
  /\ t = [first]
  /\ (List.length (active_locks "ip:203.0.113.7" 100 t) <= 1)%nat
  /\ rows_of "ip:203.0.113.7" (execute (Upsert second) t) = [second].
Proof.
  intros first second t.
  assert (Hr : reachable t) by (repeat constructor).
  destruct (one_lock_per_target_key t Hr) as (_ & Hactive & _).
  split; [exact Hr|]. split; [reflexivity|].
  split; [apply Hactive | reflexivity].
Defined.

(* ===================================================================== *)
(** * Part II, continued: properties of the rest of the files             *)
(* ===================================================================== *)

(** ** Digits *)

Lemma sixteen_cases (d : Z) :
  0 <= d < 16 ->
  d = 0 \/ d = 1 \/ d = 2 \/ d = 3 \/ d = 4 \/ d = 5 \/ d = 6 \/ d = 7
  \/ d = 8 \/ d = 9 \/ d = 10 \/ d = 11 \/ d = 12 \/ d = 13 \/ d = 14
  \/ d = 15.
Proof. lia. Qed.

Ltac each_of_sixteen d H :=
  destruct (sixteen_cases d H)
    as [->|[->|[->|[->|[->|[->|[->|[->|[->|[->|[->|[->|[->|[->|[->| ->]]]]]]]]]]]]]]].

Lemma hex_digit_value_hex_digit (d : Z) :
  0 <= d < 16 -> hex_digit_value (hex_digit d) = Some d.
Proof. intros H. each_of_sixteen d H; reflexivity. Qed.

Lemma hex_digit_value_hex_digit_upper (d : Z) :
  0 <= d < 16 -> hex_digit_value (hex_digit_upper d) = Some d.
Proof. intros H. each_of_sixteen d H; reflexivity. Qed.

Lemma hex_digit_is_lower_hex (d : Z) :
  0 <= d < 16 -> is_lower_hex (hex_digit d) = true.
Proof. intros H. each_of_sixteen d H; reflexivity. Qed.

Lemma byte_nibbles (b : Z) :
  is_byte b -> 0 <= b / 16 < 16 /\ 0 <= b mod 16 < 16
               /\ 16 * (b / 16) + b mod 16 = b.
Proof.
  unfold is_byte. intros H.
  pose proof (Z.div_mod b 16 ltac:(lia)).
  pose proof (Z.mod_pos_bound b 16 ltac:(lia)).
  assert (0 <= b / 16) by (apply Z.div_pos; lia).
  assert (b / 16 < 16) by (apply Z.div_lt_upper_bound; lia).
  lia.
Qed.

(** [b.toString(16).padStart(2, '0')] is the two hexadecimal digits of a
    byte. *)
Lemma padStart2_toString16 (b : Z) :
  is_byte b ->
  padStart2 (toString16 b) = [hex_digit (b / 16); hex_digit (b mod 16)].
Proof.
  intros Hb. destruct (byte_nibbles b Hb) as (Hh & Hl & Hsum).
  unfold toString16. cbn [hex_digits].
  destruct (b <? 16) eqn:E.
  - apply Z.ltb_lt in E. unfold is_byte in Hb.
    rewrite (Z.div_small b 16), (Z.mod_small b 16) by lia. reflexivity.
  - apply Z.ltb_ge in E.
    assert (Hfuel : exists f, Z.to_nat b = S f).
    { exists (Nat.pred (Z.to_nat b)). lia. }
    destruct Hfuel as [f ->]. cbn [hex_digits].
    assert (Hq : (b / 16 <? 16) = true) by (apply Z.ltb_lt; lia).
    rewrite Hq. reflexivity.
Qed.

Lemma is_digit_of (d : Z) : 0 <= d < 10 -> is_digit (0x30 + d) = true.
Proof.
  intros H. unfold is_digit. apply andb_true_iff.
  split; apply Z.leb_le; lia.
Qed.

Lemma decimal_digits_facts (fuel : nat) :
  forall n, 0 <= n -> (Z.to_nat n < fuel)%nat ->
  forallb is_digit (decimal_digits fuel n) = true
  /\ decimal_value (decimal_digits fuel n) = n
  /\ decimal_digits fuel n <> [].
Proof.
  induction fuel as [|fuel IH]; intros n Hn Hfuel; [lia|].
  cbn [decimal_digits]. destruct (n <? 10) eqn:E.
  - apply Z.ltb_lt in E. repeat split.
    + cbn [forallb]. rewrite is_digit_of by lia. reflexivity.
    + unfold decimal_value. cbn [fold_left]. lia.
    + discriminate.
  - apply Z.ltb_ge in E.
    pose proof (Z.div_mod n 10 ltac:(lia)).
    pose proof (Z.mod_pos_bound n 10 ltac:(lia)).
    assert (Hq : 0 <= n / 10) by (apply Z.div_pos; lia).
    assert (Hlt : n / 10 < n) by (apply Z.div_lt; lia).
    destruct (IH (n / 10) Hq ltac:(lia)) as (A1 & A2 & A3).
    repeat split.
    + rewrite forallb_app, A1. cbn [forallb andb].
      rewrite is_digit_of by lia. reflexivity.
    + unfold decimal_value in *. rewrite fold_left_app, A2.
      cbn [fold_left]. lia.
    + intros Hnil. apply app_eq_nil in Hnil as [_ Hnil]. discriminate.
Qed.

(** The text of a length is a decimal numeral, and reads back as the
    length. *)
Lemma Number_toString_decimal (n : Z) :
  0 <= n ->
  forallb is_digit (Number_toString n) = true
  /\ decimal_value (Number_toString n) = n
  /\ Number_toString n <> [].
Proof.
  intros Hn. unfold Number_toString. apply decimal_digits_facts; lia.
Qed.

(** ** Percent-encoding and its decoding *)

Lemma percent_unescape_encoded_byte (upper : bool) (b : Z) (rest : Buffer) :
  is_byte b ->
  percent_unescape (percent_encode_byte upper b ++ rest)
  = b :: percent_unescape rest.
Proof.
  intros Hb. destruct (byte_nibbles b Hb) as (Hh & Hl & Hsum).
  unfold percent_encode_byte. cbn [app]. destruct upper.
  - rewrite (percent_unescape_triplet _ _ (b / 16) (b mod 16))
      by now apply hex_digit_value_hex_digit_upper.
    now rewrite Hsum.
  - rewrite (percent_unescape_triplet _ _ (b / 16) (b mod 16))
      by now apply hex_digit_value_hex_digit.
    now rewrite Hsum.
Qed.

(** X1.  Whatever a client leaves unescaped, as long as it escapes [%]
    itself, and whichever case it uses for the digits, unescaping gives
    back the bytes it encoded. *)
Theorem percent_unescape_inverts_percent_encode
    (keep : Z -> bool) (upper : bool) (bs : Buffer) :
  keep 0x25 = false -> Forall is_byte bs ->
  percent_unescape (percent_encode keep upper bs) = bs.
Proof.
  intros Hkeep Hbytes. induction Hbytes as [|b rest Hb _ IH]; [reflexivity|].
  unfold percent_encode in *. cbn [flat_map].
  destruct (keep b) eqn:Ek.
  - cbn [app]. rewrite percent_unescape_literal, IH; [reflexivity|].
    intros ->. congruence.
  - now rewrite percent_unescape_encoded_byte, IH.
Qed.

Lemma percent_unescape_inverts_percent_encode_witness :
  let keep := fun b => ((0x30 <=? b) && (b <=? 0x39))
                       || ((0x61 <=? b) && (b <=? 0x7A)) in
  let bs := [0x83; 0x65; 0x25; 0x26; 0x3D; 0x2B; 0x61; 0x39; 0x00; 0xFF] in
  keep 0x25 = false /\ Forall is_byte bs
  /\ percent_encode keep true bs = bytes_of "%83e%25%26%3D%2Ba9%00%FF"
  /\ percent_unescape (percent_encode keep true bs) = bs.
Proof.
  intros keep bs.
  assert (Hk : keep 0x25 = false) by reflexivity.
  assert (Hb : Forall is_byte bs) by (repeat constructor; unfold is_byte; lia).
  split; [exact Hk|]. split; [exact Hb|]. split; [reflexivity|].
  exact (percent_unescape_inverts_percent_encode keep true bs Hk Hb).
Defined.

(** X2.  A field that has no [%] is left byte for byte as it is. *)
Theorem percent_unescape_without_percent (buffer : Buffer) :
  ~ In 0x25 buffer -> percent_unescape buffer = buffer.
Proof.
  induction buffer as [|b rest IH]; intros H; [reflexivity|].
  rewrite percent_unescape_literal.
  - f_equal. apply IH. intros Hin. apply H. now right.
  - intros ->. apply H. now left.
Qed.

Lemma percent_unescape_without_percent_witness :
  ~ In 0x25 (bytes_of "MESSAGE=abc") 
  /\ percent_unescape (bytes_of "MESSAGE=abc") = bytes_of "MESSAGE=abc".
Proof.
  assert (H : ~ In 0x25 (bytes_of "MESSAGE=abc")) by not_in_text.
  split; [exact H|]. exact (percent_unescape_without_percent _ H).
Defined.

(** X3.  With an [iconv.decode] that returns on every buffer, as that of
    iconv-lite does, the decoder callback is the percent-unescaping of the
    text, one Shift_JIS decoding of all the bytes, and [he.decode]: the
    byte-by-byte loop passes nothing through. *)
Theorem decoder_with_an_iconv_that_returns
    {I : IconvLite} {E : Entities} (str : jsstring) :
  (forall buffer, exists s, iconv_decode buffer = Returns s) ->
  exists s,
    iconv_decode
      (Buffer_from_array (percent_unescape (Buffer_from_latin1 str)))
    = Returns s
    /\ decodeURIComponent str = he_decode s.
Proof.
  intros Htotal.
  destruct (Htotal (Buffer_from_array
                      (percent_unescape (Buffer_from_latin1 str))))
    as [s Hs].
  exists s. split; [exact Hs|].
  now apply decodeURIComponent_when_iconv_returns.
Qed.

Lemma sjis_katakana_lenient_returns (bs : Buffer) :
  exists s, sjis_katakana false bs = Returns s.
Proof.
  assert (H : forall n bs, (List.length bs <= n)%nat ->
            exists s, sjis_katakana false bs = Returns s).
  { clear bs. induction n as [|n IH]; intros bs Hn.
    - destruct bs; [now exists [] | simpl in Hn; lia].
    - destruct bs as [|b rest]; [now exists []|]. simpl in Hn.
      assert (Hrest : exists s, sjis_katakana false rest = Returns s)
        by (apply IH; lia).
      cbn [sjis_katakana].
      destruct (b <? 0x80).
      { destruct Hrest as [s ->]. cbn [obind]. eexists. reflexivity. }
      destruct ((0xA1 <=? b) && (b <=? 0xDF)).
      { destruct Hrest as [s ->]. cbn [obind]. eexists. reflexivity. }
      destruct rest as [|t rest']; [eexists; reflexivity|].
      simpl in Hn.
      assert (Hrest' : exists s, sjis_katakana false rest' = Returns s)
        by (apply IH; lia).
      destruct ((b =? 0x83) && (0x40 <=? t) && (t <=? 0x7E)).
      { destruct Hrest' as [s ->]. cbn [obind]. eexists. reflexivity. }
      destruct ((b =? 0x83) && (0x80 <=? t) && (t <=? 0x96)).
      { destruct Hrest' as [s ->]. cbn [obind]. eexists. reflexivity. }
      destruct (is_sjis_lead b && is_sjis_trail t).
      { destruct Hrest' as [s ->]. cbn [obind]. eexists. reflexivity. }
      destruct Hrest as [s ->]. cbn [obind]. eexists. reflexivity. }
  apply (H (List.length bs)). lia.
Qed.

Lemma decoder_with_an_iconv_that_returns_witness :
  exists s,
    @iconv_decode iconv_lenient
      (Buffer_from_array (percent_unescape (Buffer_from_latin1 emoji_field)))
    = Returns s
    /\ @decodeURIComponent iconv_lenient entities_plain emoji_field
       = @he_decode entities_plain s.
Proof.
  apply (@decoder_with_an_iconv_that_returns iconv_lenient entities_plain).
  exact sjis_katakana_lenient_returns.
Defined.

(** ** POST: what it answers and what it forwards *)

Section PostAnswers.
Context {I : IconvLite} {E : Entities} {J : JsRuntime}.
Variable backend : ApiRequest -> outcome ApiResponse.
Variable PUBLIC_API_BASE_URL : jsstring.

(** An error page is the checked [Response] of its text and status; it
    sends no request. *)
Lemma createCgiErrorResponse_answer (defaultMessage boardId origin : jsstring)
    (apiResponse : option ApiResponse) (tr : list Effect) :
  exists tr',
    createCgiErrorResponse defaultMessage boardId apiResponse origin tr
    = (new_Response
         (iconv_encode
            (errorHtml (errorMessageOf defaultMessage apiResponse origin)))
         (errorStatus apiResponse) html_headers, tr')
    /\ api_calls tr' = api_calls tr.
Proof.
  unfold createCgiErrorResponse, set_cookies, bind, ret, lift.
  destruct apiResponse as [a|]; [destruct (setCookieHeader a)|];
    (eexists; split; [reflexivity|]);
    rewrite ?api_calls_app; cbn; now rewrite ?app_nil_r.
Qed.

Lemma createCgiSuccessResponse_answer (message boardId threadKey : jsstring)
    (apiResponse : ApiResponse) (tr : list Effect) :
  exists r tr',
    createCgiSuccessResponse message boardId threadKey apiResponse tr
    = (Returns r, tr')
    /\ status r = 200 /\ headers r = html_headers
    /\ api_calls tr' = api_calls tr.
Proof.
  unfold createCgiSuccessResponse, set_cookies, bind, ret, lift.
  rewrite new_Response_returns by (lia || reflexivity).
  destruct (setCookieHeader apiResponse);
    (do 2 eexists; split; [reflexivity|]); cbn [status headers];
    repeat split; rewrite ?api_calls_app; cbn; now rewrite ?app_nil_r.
Qed.

(** The error page for an answer of the backend: it carries the status of
    the answer, or [new Response] has refused the status. *)
Lemma error_answers_truthfully (defaultMessage boardId origin : jsstring)
    (req : ApiRequest) (resp : ApiResponse) (tr : list Effect) :
  In req (api_calls tr) -> backend req = Returns resp ->
  400 <= statusCode resp ->
  exists out tr',
    createCgiErrorResponse defaultMessage boardId (Some resp) origin tr
    = (out, tr')
    /\ api_calls tr' = api_calls tr /\ answers_truthfully backend out tr'.
Proof.
  intros Hin Hback Hs.
  destruct (createCgiErrorResponse_answer defaultMessage boardId origin
              (Some resp) tr) as (tr' & -> & Hc).
  do 2 eexists. split; [reflexivity|]. split; [exact Hc|].
  cbn [errorStatus].
  destruct (new_Response _ (statusCode resp) html_headers) as [r|] eqn:Hr;
    [|exact Logic.I].
  pose proof Hr as Hh. unfold new_Response in Hh. cbv zeta in Hh.
  destruct ((statusCode resp mod 65536 <? 200)
            || (599 <? statusCode resp mod 65536)); [discriminate|].
  destruct (null_body_status (statusCode resp mod 65536)); [discriminate|].
  injection Hh as <-. cbn [headers status].
  apply new_Response_status in Hr as (Hst & Hrange & _). cbn [status] in *.
  split; [reflexivity|]. split; [exact Hrange|].
  right. left. exists req, resp. rewrite Hc. auto.
Qed.

(** The page of a validation error. *)
Lemma validation_answers_truthfully (defaultMessage boardId origin : jsstring)
    (tr : list Effect) :
  exists out tr',
    createCgiErrorResponse defaultMessage boardId None origin tr = (out, tr')
    /\ answers_truthfully backend out tr'.
Proof.
  rewrite validation_error. do 2 eexists. split; [reflexivity|].
  cbn. split; [reflexivity|]. split; [lia|]. now left.
Qed.

Lemma createThread_answers (request : Request)
    (bbs subject message author fingerprint : jsstring) (tr : list Effect) :
  exists out tr',
    createThread backend PUBLIC_API_BASE_URL request bbs subject message
      author fingerprint tr = (out, tr')
    /\ answers_truthfully backend out tr'.
Proof.
  unfold createThread, bind.
  set (req := threadRequest PUBLIC_API_BASE_URL request bbs subject message
                author fingerprint).
  destruct (nativeHttpRequest_calls backend req tr) as [-> Hcalls].
  assert (Hsent : In req (api_calls (tr ++ [ApiCall req]))).
  { rewrite Hcalls. apply in_or_app. right. now left. }
  destruct (backend req) as [apiResponse|] eqn:Hback;
    [|do 2 eexists; split; [reflexivity | exact Logic.I]].
  destruct (400 <=? statusCode apiResponse) eqn:Hst.
  - apply Z.leb_le in Hst.
    destruct (error_answers_truthfully (js "スレッドの作成に失敗しました。")
                bbs (url_origin request) req apiResponse
                (tr ++ [ApiCall req]) Hsent Hback Hst)
      as (out & tr' & -> & _ & Hans).
    eauto.
  - apply Z.leb_gt in Hst. unfold lift.
    destruct (JSON_parse (api_body apiResponse)) as [createdPost|];
      [|do 2 eexists; split; [reflexivity | exact Logic.I]].
    destruct (get_prop createdPost (js "id")) as [id|];
      [|do 2 eexists; split; [reflexivity | exact Logic.I]].
    destruct (createCgiSuccessResponse_answer (js "スレッドを作成しました。")
                bbs (String_ id) apiResponse (tr ++ [ApiCall req]))
      as (r & tr' & -> & Hs & Hh & Hc).
    do 2 eexists. split; [reflexivity|]. cbn. split; [exact Hh|].
    split; [lia|].
    right. right. split; [exact Hs|]. exists req, apiResponse.
    rewrite Hc. repeat split; auto.
Qed.

Lemma createComment_answers (request : Request)
    (bbs key message author fingerprint : jsstring) (tr : list Effect) :
  exists out tr',
    createComment backend PUBLIC_API_BASE_URL request bbs key message
      author fingerprint tr = (out, tr')
    /\ answers_truthfully backend out tr'.
Proof.
  unfold createComment.
  destruct (is_empty key); [apply validation_answers_truthfully|].
  unfold bind.
  set (lookup := lookupRequest PUBLIC_API_BASE_URL request bbs key).
  destruct (nativeHttpRequest_calls backend lookup tr) as [-> Hcalls1].
  assert (Hsent1 : In lookup (api_calls (tr ++ [ApiCall lookup]))).
  { rewrite Hcalls1. apply in_or_app. right. now left. }
  destruct (backend lookup) as [postRes|] eqn:Hlookup;
    [|do 2 eexists; split; [reflexivity | exact Logic.I]].
  destruct (400 <=? statusCode postRes) eqn:Hst.
  - apply Z.leb_le in Hst.
    destruct (error_answers_truthfully
                (if statusCode postRes =? 404
                 then js "該当のスレッドが見つかりません。"
                 else js "スレッド情報の取得に失敗しました。")
                bbs (url_origin request) lookup postRes
                (tr ++ [ApiCall lookup]) Hsent1 Hlookup Hst)
      as (out & tr' & -> & _ & Hans).
    eauto.
  - unfold lift.
    destruct (JSON_parse (api_body postRes)) as [targetPost|];
      [|do 2 eexists; split; [reflexivity | exact Logic.I]].
    destruct (get_prop targetPost (js "id")) as [id|];
      [|do 2 eexists; split; [reflexivity | exact Logic.I]].
    set (req := commentRequest PUBLIC_API_BASE_URL request id message author
                  fingerprint).
    destruct (nativeHttpRequest_calls backend req (tr ++ [ApiCall lookup]))
      as [-> Hcalls].
    assert (Hsent : In req (api_calls ((tr ++ [ApiCall lookup])
                                       ++ [ApiCall req]))).
    { rewrite Hcalls. apply in_or_app. right. now left. }
    destruct (backend req) as [apiResponse|] eqn:Hback;
      [|do 2 eexists; split; [reflexivity | exact Logic.I]].
    destruct (400 <=? statusCode apiResponse) eqn:Hst2.
    + apply Z.leb_le in Hst2.
      destruct (error_answers_truthfully (js "レスの投稿に失敗しました。")
                  bbs (url_origin request) req apiResponse
                  ((tr ++ [ApiCall lookup]) ++ [ApiCall req])
                  Hsent Hback Hst2)
        as (out & tr' & -> & _ & Hans).
      eauto.
    + apply Z.leb_gt in Hst2.
      destruct (createCgiSuccessResponse_answer (js "レスを投稿しました。")
                  bbs key apiResponse
                  ((tr ++ [ApiCall lookup]) ++ [ApiCall req]))
        as (r & tr' & -> & Hs & Hh & Hc).
      do 2 eexists. split; [reflexivity|]. cbn. split; [exact Hh|].
      split; [lia|].
      right. right. split; [exact Hs|]. exists req, apiResponse.
      rewrite Hc. repeat split; auto.
Qed.

(** X4.  From the reading of the body on, POST does not throw: whenever
    the requests it sends to the backend settle (the source sets no
    timeout), whatever the answers are (a refused connection, any status,
    a body that is not JSON) and whatever the body of the request is, POST
    returns a page, with the one header [Content-Type] and a status within
    200..599.  [new Response] throws for a status outside 200..599 and for
    204, 205 and 304 with a body; the catch block of POST then answers
    with its own page, status 400.  So the page has the status 400 of the
    gateway's own errors; or it is an error page with the status of an
    answer of the backend that was 400 or more, as [Response] keeps it;
    or it is the success page with status 200, and then a creating request
    was sent and the backend answered it below 400: POST does not report a
    success the backend did not give. *)
Theorem POST_always_answers (request : Request) :
  exists r tr',
    POST backend PUBLIC_API_BASE_URL request [] = (Returns r, tr')
    /\ headers r = html_headers
    /\ 200 <= status r <= 599
    /\ (status r = 400
        \/ (exists req resp,
              In req (api_calls tr')
              /\ backend req = Returns resp /\ 400 <= statusCode resp
              /\ status r = statusCode resp mod 65536)
        \/ (status r = 200
            /\ exists req resp,
                 In req (api_calls tr') /\ req_method req = POST_
                 /\ backend req = Returns resp /\ statusCode resp < 400)).
Proof.
  unfold POST. rewrite formData_returns.
  set (fd := URLSearchParams_of_record _).
  unfold dispatch. cbv zeta.
  assert (Hbranch : exists out tr',
            (if is_empty (field fd "bbs") || is_empty (field fd "MESSAGE")
             then createCgiErrorResponse (js "板IDまたは本文がありません。")
                    (field fd "bbs") None (url_origin request)
             else if negb (is_empty (field fd "subject"))
                  then createThread backend PUBLIC_API_BASE_URL request
                         (field fd "bbs") (field fd "subject")
                         (field fd "MESSAGE") (field fd "FROM")
                         (fingerprintOf request)
                  else createComment backend PUBLIC_API_BASE_URL request
                         (field fd "bbs") (field fd "key")
                         (field fd "MESSAGE") (field fd "FROM")
                         (fingerprintOf request)) [] = (out, tr')
            /\ answers_truthfully backend out tr').
  { destruct (is_empty (field fd "bbs") || is_empty (field fd "MESSAGE")).
    - apply validation_answers_truthfully.
    - destruct (negb (is_empty (field fd "subject"))).
      + apply createThread_answers.
      + apply createComment_answers. }
  destruct Hbranch as (out & tr' & Hrun & Hans).
  unfold try_catchM. rewrite Hrun. destruct out as [r|].
  - exists r, tr'. split; [reflexivity|]. exact Hans.
  - unfold unexpectedError. rewrite validation_error.
    do 2 eexists. split; [reflexivity|]. cbn. split; [reflexivity|].
    split; [lia|]. now left.
Qed.

(** A status [new Response] refuses: the backend answers the creation of
    a thread with 600, and what the client gets is the page of the catch
    block, status 400. *)
Lemma refused_status_is_answered_by_the_catch_block :
  let request := bare_request "bbs=1&MESSAGE=hi&subject=t" in
  let refused :=
    {| statusCode := 600; setCookieHeader := None; api_body := [] |} in
  fst (@POST iconv_lenient entities_plain runtime_strings
         (fun _ => Returns refused) (js "http://backend") request [])
  = Returns {| status := 400;
               headers := html_headers;
               body := @iconv_encode iconv_lenient
                         (errorHtml
                            (js "サーバーで予期せぬエラーが発生しました。")) |}.
Proof. now vm_compute. Qed.

(** Every request POST sends is one of three. *)
Lemma POST_requests (request : Request) :
  forall req,
  In req (requests_of_POST backend PUBLIC_API_BASE_URL request) ->
  (exists bbs subject message author,
     req = threadRequest PUBLIC_API_BASE_URL request bbs subject message
             author (fingerprintOf request))
  \/ (exists bbs key, req = lookupRequest PUBLIC_API_BASE_URL request bbs key)
  \/ (exists id message author,
        req = commentRequest PUBLIC_API_BASE_URL request id message author
                (fingerprintOf request)).
Proof.
  intros req. unfold requests_of_POST, POST. rewrite formData_returns.
  set (fd := URLSearchParams_of_record _).
  unfold dispatch. cbv zeta.
  destruct (is_empty (field fd "bbs") || is_empty (field fd "MESSAGE")).
  { unfold try_catchM. rewrite validation_error. intros []. }
  destruct (is_empty (field fd "subject")) eqn:Hsub; cbn [negb].
  - destruct (is_empty (field fd "key")) eqn:Hkey.
    + unfold createComment. rewrite Hkey. unfold try_catchM.
      rewrite validation_error. intros [].
    + apply is_empty_false in Hkey.
      destruct (createComment_calls backend PUBLIC_API_BASE_URL request
                  (field fd "bbs") (field fd "key") (field fd "MESSAGE")
                  (field fd "FROM") (fingerprintOf request) [] Hkey)
        as (out & tr' & Hc & Hcalls).
      destruct (try_catch_unexpected_calls request (field fd "bbs") _ _ _ _ Hc)
        as (r & tr'' & -> & Hcalls'').
      cbn [snd]. rewrite Hcalls''.
      destruct Hcalls as [->|(postRes & targetPost & id & _ & _ & _ & _ & ->)];
        cbn [api_calls flat_map app].
      * intros [<-|[]]. right. left. eauto.
      * intros [<-|[<-|[]]]; right; [left | right]; eauto.
  - destruct (createThread_calls backend PUBLIC_API_BASE_URL request
                (field fd "bbs") (field fd "subject") (field fd "MESSAGE")
                (field fd "FROM") (fingerprintOf request) [])
      as (out & tr' & Hc & Hcalls).
    destruct (try_catch_unexpected_calls request (field fd "bbs") _ _ _ _ Hc)
      as (r & tr'' & -> & Hcalls'').
    cbn [snd]. rewrite Hcalls'', Hcalls. cbn [api_calls flat_map app].
    intros [<-|[]]. left. eauto 6.
Qed.

Lemma fingerprintOf_not_empty (request : Request) : fingerprintOf request <> [].
Proof.
  unfold fingerprintOf.
  destruct (user_agent request) as [ua|].
  - destruct ua as [|c ua']; cbn [is_empty]; [|discriminate].
    intros H. vm_compute in H. discriminate.
  - intros H. vm_compute in H. discriminate.
Qed.

End PostAnswers.


(** ** [createSjisResponse] *)

(** The record that [createSjisResponse] builds: the encoded text, the
    status, the charset in the content type, a [Content-Length] that is
    the decimal numeral of the number of bytes, and one [set-cookie] for
    each cookie text. *)
Lemma createSjisResponse_record {I : IconvLite}
    (text contentType : jsstring) (st : Z) (cookies : list jsstring) :
  let r := createSjisResponse text contentType st cookies in
  body r = iconv_encode text
  /\ status r = st
  /\ headers_get (headers r) (js "Content-Type")
     = Some (contentType ++ js "; charset=Shift_JIS")
  /\ (exists contentLength,
        headers_get (headers r) (js "content-length") = Some contentLength
        /\ contentLength <> []
        /\ forallb is_digit contentLength = true
        /\ decimal_value contentLength = Z.of_nat (List.length (body r)))
  /\ skipn 2 (headers r)
     = map (fun cookie => (js "set-cookie", cookie)) cookies.
Proof.
  intros r. subst r. unfold createSjisResponse. cbn [body status headers].
  split; [reflexivity|]. split; [reflexivity|]. split; [reflexivity|].
  split; [|reflexivity].
  exists (Number_toString (Z.of_nat (List.length (iconv_encode text)))).
  destruct (Number_toString_decimal
              (Z.of_nat (List.length (iconv_encode text))) ltac:(lia))
    as (Hd & Hv & Hn).
  repeat split; auto.
Qed.

(** ** [sha256]: the hexadecimal text of the digest *)

Lemma join_empty_separator (parts : list jsstring) :
  join [] parts = concat parts.
Proof.
  induction parts as [|p rest IH]; [reflexivity|].
  cbn [join concat]. destruct rest as [|q rest'].
  - now rewrite app_nil_r.
  - cbn [app]. now rewrite IH.
Qed.

Lemma hex_text_of_bytes (bs : Buffer) :
  Forall is_byte bs ->
  concat (map (fun b => padStart2 (toString16 b)) bs)
  = flat_map (fun b => [hex_digit (b / 16); hex_digit (b mod 16)]) bs.
Proof.
  induction 1 as [|b rest Hb _ IH]; [reflexivity|].
  cbn [map concat flat_map]. now rewrite padStart2_toString16, IH.
Qed.

Lemma hex_digit_injective (d e : Z) :
  0 <= d < 16 -> 0 <= e < 16 -> hex_digit d = hex_digit e -> d = e.
Proof.
  intros Hd He H.
  pose proof (hex_digit_value_hex_digit d Hd) as Vd.
  pose proof (hex_digit_value_hex_digit e He) as Ve.
  rewrite H in Vd. congruence.
Qed.

Lemma hex_text_injective (bs cs : Buffer) :
  Forall is_byte bs -> Forall is_byte cs ->
  flat_map (fun b => [hex_digit (b / 16); hex_digit (b mod 16)]) bs
  = flat_map (fun b => [hex_digit (b / 16); hex_digit (b mod 16)]) cs ->
  bs = cs.
Proof.
  intros Hbs. revert cs. induction Hbs as [|b rest Hb _ IH]; intros cs Hcs H.
  - destruct Hcs; [reflexivity | discriminate].
  - destruct Hcs as [|c rest' Hc Hcs]; [discriminate|].
    cbn [flat_map app] in H. injection H as Hh Hl Hrest.
    destruct (byte_nibbles b Hb) as (B1 & B2 & B3).
    destruct (byte_nibbles c Hc) as (C1 & C2 & C3).
    apply hex_digit_injective in Hh; [|assumption..].
    apply hex_digit_injective in Hl; [|assumption..].
    f_equal; [lia | now apply IH].
Qed.

(** X7.  The text [sha256] returns is the digest written out: two
    lower-case hexadecimal digits for each byte, so 64 characters for the
    32 bytes of SHA-256, and two messages get the same text only when they
    have the same digest. *)
Theorem sha256_is_the_digest_in_hex {C : Crypto} (message other : jsstring) :
  Forall is_byte (subtle_digest_SHA256 (TextEncoder_encode message)) ->
  Forall is_byte (subtle_digest_SHA256 (TextEncoder_encode other)) ->
  List.length (sha256 message)
  = (2 * List.length (subtle_digest_SHA256 (TextEncoder_encode message)))%nat
  /\ forallb is_lower_hex (sha256 message) = true
  /\ (sha256 message = sha256 other ->
      subtle_digest_SHA256 (TextEncoder_encode message)
      = subtle_digest_SHA256 (TextEncoder_encode other)).
Proof.
  intros Hm Ho. unfold sha256.
  rewrite !join_empty_separator, !hex_text_of_bytes by assumption.
  split; [|split].
  - clear Ho. induction Hm as [|b rest Hb _ IH]; [reflexivity|].
    cbn [flat_map app List.length]. rewrite IH. lia.
  - clear Ho. induction Hm as [|b rest Hb _ IH]; [reflexivity|].
    destruct (byte_nibbles b Hb) as (B1 & B2 & _).
    cbn [flat_map app forallb].
    now rewrite !hex_digit_is_lower_hex, IH by assumption.
  - now apply hex_text_injective.
Qed.

Lemma sha256_is_the_digest_in_hex_witness :
  Forall is_byte
    (@subtle_digest_SHA256 crypto_firstn (@TextEncoder_encode crypto_firstn (js ";;")))
  /\ List.length (@sha256 crypto_firstn (js ";;")) = 64%nat.
Proof.
  assert (H : Forall is_byte
                (@subtle_digest_SHA256 crypto_firstn
                   (@TextEncoder_encode crypto_firstn (js ";;")))).
  { vm_compute. repeat constructor; discriminate. }
  split; [exact H|].
  destruct (@sha256_is_the_digest_in_hex crypto_firstn (js ";;") (js ";;") H H)
    as [Hlen _].
  rewrite Hlen. reflexivity.
Defined.

(** ** Texts, lines and separators *)

Lemma occurrences_app (c : Z) (a b : jsstring) :
  occurrences c (a ++ b) = (occurrences c a + occurrences c b)%nat.
Proof. unfold occurrences. now rewrite filter_app, length_app. Qed.

Lemma occurrences_none (c : Z) (s : jsstring) :
  ~ In c s -> occurrences c s = 0%nat.
Proof.
  unfold occurrences. induction s as [|x s IH]; intros H; [reflexivity|].
  cbn [filter]. destruct (c =? x) eqn:E.
  - apply Z.eqb_eq in E. subst x. exfalso. apply H. now left.
  - apply IH. intros Hin. apply H. now right.
Qed.

Lemma not_in_app (c : Z) (a b : jsstring) :
  ~ In c a -> ~ In c b -> ~ In c (a ++ b).
Proof. intros Ha Hb H. apply in_app_iff in H. tauto. Qed.

Lemma digits_are_not (c : Z) (s : jsstring) :
  is_digit c = false -> forallb is_digit s = true -> ~ In c s.
Proof.
  intros Hc Hs Hin. rewrite forallb_forall in Hs.
  specialize (Hs c Hin). congruence.
Qed.

(** The numeral of an integer is made of digits and a minus sign. *)
Lemma Integer_toString_chars (c : Z) (z : Z) :
  is_digit c = false -> c <> 0x2D -> ~ In c (Integer_toString z).
Proof.
  intros Hc Hm. unfold Integer_toString. destruct (z <? 0) eqn:E.
  - apply Z.ltb_lt in E.
    destruct (Number_toString_decimal (- z) ltac:(lia)) as (Hd & _ & _).
    intros [H|H]; [congruence|]. now apply (digits_are_not c _ Hc Hd).
  - apply Z.ltb_ge in E.
    destruct (Number_toString_decimal z E) as (Hd & _ & _).
    now apply digits_are_not.
Qed.

Lemma Number_or_NaN_toString_chars (c : Z) (n : option Z) :
  is_digit c = false -> c <> 0x2D -> ~ In c (js "NaN") ->
  ~ In c (Number_or_NaN_toString n).
Proof.
  intros Hc Hm Hn. destruct n as [z|]; [|exact Hn].
  now apply Integer_toString_chars.
Qed.

(** No field the escaper produces has a raw [<] or an LF. *)
Lemma escapeDatField_clean (text : option jsstring) :
  ~ In 0x3C (escapeDatField text) /\ ~ In 0xA (escapeDatField text).
Proof.
  destruct text as [t|]; [|split; intros []].
  unfold escapeDatField. destruct t as [|c r]; [split; intros []|].
  cbn [is_empty].
  change (replace_newlines (js " ")
            (replace_char 0x3C (js "&lt;")
               (replace_char 0x26 (js "&amp;") (c :: r))))
    with (three_passes (c :: r)).
  rewrite three_passes_one_pass.
  destruct (escape_in_one_pass_facts (c :: r)) as (H1 & H2 & _). now split.
Qed.

Lemma split_on_clean (sep : Z) (a : jsstring) :
  ~ In sep a -> split_on sep a = [a].
Proof.
  induction a as [|c a IH]; intros H; [reflexivity|].
  cbn [split_on]. destruct (c =? sep) eqn:E.
  - apply Z.eqb_eq in E. subst c. exfalso. apply H. now left.
  - rewrite IH; [reflexivity|]. intros Hin. apply H. now right.
Qed.

Lemma split_on_app_clean (sep : Z) (a b : jsstring) :
  ~ In sep a -> split_on sep (a ++ sep :: b) = a :: split_on sep b.
Proof.
  induction a as [|c a IH]; intros H.
  - cbn [app split_on]. now rewrite Z.eqb_refl.
  - cbn [app split_on]. destruct (c =? sep) eqn:E.
    + apply Z.eqb_eq in E. subst c. exfalso. apply H. now left.
    + rewrite IH; [reflexivity|]. intros Hin. apply H. now right.
Qed.

(** Lines that have no line end in them are what a reader of the joined
    text gets back, with the empty text after the last line end. *)
Lemma split_on_joined_lines (sep : Z) (line : jsstring) (lines : list jsstring) :
  Forall (fun l => ~ In sep l) (line :: lines) ->
  split_on sep (join [sep] (line :: lines) ++ [sep]) = (line :: lines) ++ [[]].
Proof.
  revert line. induction lines as [|l lines IH]; intros line H.
  - inversion H as [|? ? H1 _]; subst. cbn [join app].
    now rewrite split_on_app_clean.
  - inversion H as [|? ? H1 H2]; subst.
    change (join [sep] (line :: l :: lines))
      with (line ++ [sep] ++ join [sep] (l :: lines)).
    rewrite <- !app_assoc. cbn [app].
    rewrite split_on_app_clean by exact H1.
    change (join [sep] (l :: lines) ++ [sep])
      with (join [sep] (l :: lines) ++ [sep]).
    now rewrite IH.
Qed.

(** ** [generateSubjectTxt] *)

Lemma subjectLine_shape (post : Post) :
  occurrences 0x3C (subjectLine post) = 1%nat /\ ~ In 0xA (subjectLine post).
Proof.
  unfold subjectLine. cbv zeta.
  destruct (escapeDatField_clean (post_title post)) as [T1 T2].
  set (timestamp := Number_or_NaN_toString (timestamp_of (post_entity post))).
  set (count := Integer_toString
                  match response_count post with Some n => n | None => 1 end).
  assert (N1 : ~ In 0x3C timestamp).
  { apply Number_or_NaN_toString_chars;
      [reflexivity | discriminate | not_in_text]. }
  assert (N2 : ~ In 0xA timestamp).
  { apply Number_or_NaN_toString_chars;
      [reflexivity | discriminate | not_in_text]. }
  assert (C1 : ~ In 0x3C count)
    by (apply Integer_toString_chars; [reflexivity | discriminate]).
  assert (C2 : ~ In 0xA count)
    by (apply Integer_toString_chars; [reflexivity | discriminate]).
  split.
  - rewrite !occurrences_app.
    rewrite (occurrences_none _ _ N1), (occurrences_none _ _ T1),
      (occurrences_none _ _ C1).
    reflexivity.
  - repeat apply not_in_app; auto; not_in_text.
Qed.

(** X8.  subject.txt has one line for each entry that is not [null], has a
    number as its id and a text as its title, in the order of the entries,
    and every line ends with a line feed: a reader who splits the text at
    the line feeds gets these lines back and the empty text after the last
    one.  No title can add a line or a field: a line has no line feed in
    it, and its only [<] is that of the separator after the file name. *)
Theorem generateSubjectTxt_one_line_per_thread (posts : list (option Post)) :
  split_on 0xA (generateSubjectTxt posts)
  = match kept_posts posts with
    | [] => [[]; []]
    | threads => map subjectLine threads ++ [[]]
    end
  /\ Forall (fun line => occurrences 0x3C line = 1%nat /\ ~ In 0xA line)
       (map subjectLine (kept_posts posts)).
Proof.
  assert (H : Forall (fun line => occurrences 0x3C line = 1%nat
                                  /\ ~ In 0xA line)
                (map subjectLine (kept_posts posts))).
  { apply Forall_forall. intros line Hin. apply in_map_iff in Hin.
    destruct Hin as (post & <- & _). apply subjectLine_shape. }
  split; [|exact H].
  unfold generateSubjectTxt.
  destruct (kept_posts posts) as [|post threads]; [reflexivity|].
  cbn [map]. apply split_on_joined_lines.
  apply Forall_forall. intros line Hin.
  rewrite Forall_forall in H. now apply H.
Qed.

(** ** [generateSettingTxt] and [generateBbsmenuHtml] *)

Lemma or_default_not_empty (x : option jsstring) (d : jsstring) :
  d <> [] -> or_default x d <> [].
Proof.
  intros Hd. destruct x as [[|c s]|]; cbn [or_default is_empty];
    [exact Hd | discriminate | exact Hd].
Qed.

Lemma generateSettingTxt_shape (board : Board) :
  exists title noname,
    title <> [] /\ noname <> []
    /\ generateSettingTxt board
       = js "BBS_TITLE=" ++ title ++ [0xA]
         ++ js "BBS_NONAME_NAME=" ++ noname ++ [0xA]
         ++ js "BBS_LINE_NUMBER=20" ++ [0xA]
         ++ js "BBS_SUBJECT_COUNT=400" ++ [0xA]
         ++ js "BBS_NAME_COUNT=40" ++ [0xA]
         ++ js "BBS_MAIL_COUNT=20" ++ [0xA]
         ++ js "BBS_MESSAGE_COUNT=3000" ++ [0xA].
Proof.
  exists (or_default (board_name board)
            (js "名称未設定の板: " ++ Integer_toString (board_id board))),
         (or_default (board_default_name board) (js "野球民")).
  split; [|split].
  - apply or_default_not_empty.
    assert (E : exists c r, js "名称未設定の板: " = c :: r)
      by (vm_compute; eauto).
    destruct E as (c & r & ->). discriminate.
  - apply or_default_not_empty. now vm_compute.
  - unfold generateSettingTxt, settingsOf. cbn [map join fst snd].
    rewrite <- !app_assoc. reflexivity.
Qed.

(** X9.  SETTING.TXT always has the seven settings, one to a line, in the
    same order, and neither the title of the board nor the default name is
    ever empty, whatever the board: a name that is missing or empty is
    replaced.  For the board that stands in for one that could not be
    fetched, the text does not depend on the id that was asked for. *)
Theorem generateSettingTxt_names_never_empty (board : Board) (boardId : jsstring) :
  (exists title noname,
     title <> [] /\ noname <> []
     /\ generateSettingTxt board
        = js "BBS_TITLE=" ++ title ++ [0xA]
          ++ js "BBS_NONAME_NAME=" ++ noname ++ [0xA]
          ++ js "BBS_LINE_NUMBER=20" ++ [0xA]
          ++ js "BBS_SUBJECT_COUNT=400" ++ [0xA]
          ++ js "BBS_NAME_COUNT=40" ++ [0xA]
          ++ js "BBS_MAIL_COUNT=20" ++ [0xA]
          ++ js "BBS_MESSAGE_COUNT=3000" ++ [0xA])
  /\ generateSettingTxt (createFallbackBoard boardId)
     = generateSettingTxt (createFallbackBoard []).
Proof.
  split; [apply generateSettingTxt_shape | vm_compute; reflexivity].
Qed.

Lemma boardLink_shape (board : Board) :
  occurrences 0x3C
    (js "<A HREF=" ++ dq ++ js "/boards/"
     ++ Integer_toString (board_id board) ++ js "/" ++ dq ++ js ">"
     ++ escapeDatField (board_name board) ++ js "</A>") = 2%nat.
Proof.
  destruct (escapeDatField_clean (board_name board)) as [T1 _].
  assert (N1 : ~ In 0x3C (Integer_toString (board_id board)))
    by (apply Integer_toString_chars; [reflexivity | discriminate]).
  rewrite !occurrences_app.
  rewrite (occurrences_none _ _ N1), (occurrences_none _ _ T1).
  vm_compute. reflexivity.
Qed.

Lemma occurrences_joined {A : Type} (c : Z) (sep : jsstring)
    (f : A -> jsstring) (k m : nat) (xs : list A) :
  (forall x, occurrences c (f x) = k) -> occurrences c sep = m ->
  occurrences c (join sep (map f xs))
  = (k * List.length xs + m * pred (List.length xs))%nat.
Proof.
  intros Hf Hsep. induction xs as [|x rest IH]; [cbn; lia|].
  destruct rest as [|y rest'].
  - cbn [map join List.length]. rewrite Hf. cbn. lia.
  - change (join sep (map f (x :: y :: rest')))
      with (f x ++ sep ++ join sep (map f (y :: rest'))).
    rewrite !occurrences_app, IH, Hf, Hsep.
    cbn [List.length pred]. lia.
Qed.

(** X10.  The board menu has one link for each board and a line break
    between two links, and no board name can add a tag: the number of [<]
    in the page is that of its frame, two for each link and one for each
    line break. *)
Theorem generateBbsmenuHtml_tags (boards : list Board) :
  occurrences 0x3C (generateBbsmenuHtml boards)
  = (11 + 2 * List.length boards + pred (List.length boards))%nat.
Proof.
  unfold generateBbsmenuHtml. cbv zeta.
  rewrite !occurrences_app.
  rewrite (occurrences_joined 0x3C _ _ 2 1 boards boardLink_shape)
    by (vm_compute; reflexivity).
  assert (E1 : occurrences 0x3C
                 (js "<HTML><HEAD><TITLE>BBS MENU</TITLE></HEAD><BODY>")
               = 6%nat) by (vm_compute; reflexivity).
  assert (E2 : occurrences 0x3C (js "<B>カテゴリ</B><br>") = 3%nat)
    by (vm_compute; reflexivity).
  assert (E3 : occurrences 0x3C (js "</BODY></HTML>") = 2%nat)
    by (vm_compute; reflexivity).
  rewrite E1, E2, E3.
  change (occurrences 0x3C [0xA]) with 0%nat.
  lia.
Qed.

(** ** The content of a dat line *)

Lemma replace_newlines_no_lf (by_ s : jsstring) :
  ~ In 0xA by_ -> ~ In 0xA (replace_newlines by_ s).
Proof.
  intros Hby.
  assert (H : forall n s, (List.length s <= n)%nat ->
            ~ In 0xA (replace_newlines by_ s)).
  { clear s. induction n as [|n IH]; intros s Hn.
    - destruct s; [intros [] | simpl in Hn; lia].
    - destruct s as [|c r]; [intros []|]. simpl in Hn.
      cbn [replace_newlines].
      destruct (c =? 0xA) eqn:E1.
      { apply not_in_app; [exact Hby | apply IH; lia]. }
      apply Z.eqb_neq in E1.
      destruct (c =? 0xD) eqn:E2.
      + destruct r as [|d r'].
        * intros [H|[]]. congruence.
        * simpl in Hn. destruct (d =? 0xA).
          -- apply not_in_app; [exact Hby | apply IH; lia].
          -- intros [H|H]; [congruence|]. revert H. apply IH. simpl. lia.
      + intros [H|H]; [congruence|]. revert H. apply IH. lia. }
  apply (H (List.length s)). lia.
Qed.

Lemma replace_newlines_without_lf (by_ s : jsstring) :
  ~ In 0xA s -> replace_newlines by_ s = s.
Proof.
  induction s as [|c r IH]; intros H; [reflexivity|].
  assert (Hc : c <> 0xA) by (intros ->; apply H; now left).
  assert (Hr : ~ In 0xA r) by (intros Hin; apply H; now right).
  cbn [replace_newlines]. apply Z.eqb_neq in Hc. rewrite Hc.
  destruct (c =? 0xD).
  - destruct r as [|d r']; [reflexivity|].
    assert (Hd : d <> 0xA) by (intros ->; apply Hr; now left).
    apply Z.eqb_neq in Hd. rewrite Hd. now rewrite IH.
  - now rewrite IH.
Qed.

Lemma ends_with_refl (s : jsstring) : ends_with s s.
Proof. now exists []. Qed.

Lemma ends_with_cons (c : Z) (s rest : jsstring) :
  ends_with s rest -> ends_with (c :: s) rest.
Proof. intros [b ->]. now exists (c :: b). Qed.

Lemma ends_with_trans (a b c : jsstring) :
  ends_with a b -> ends_with b c -> ends_with a c.
Proof. intros [x ->] [y ->]. exists (x ++ y). now rewrite app_assoc. Qed.

Lemma ends_with_in (x : Z) (s rest : jsstring) :
  ends_with s rest -> In x rest -> In x s.
Proof. intros [b ->] H. apply in_app_iff. now right. Qed.

Lemma trim_start_ends (s : jsstring) : ends_with s (trim_start s).
Proof.
  induction s as [|c r IH]; [apply ends_with_refl|].
  cbn [trim_start]. destruct (is_StrWhiteSpaceChar c).
  - now apply ends_with_cons.
  - apply ends_with_refl.
Qed.

Lemma match_br_ends (s rest : jsstring) :
  match_br s = Some rest -> ends_with s rest.
Proof.
  unfold match_br. destruct s as [|lt [|b [|r s1]]]; try discriminate.
  destruct ((lt =? 0x3C) && ((b =? 0x62) || (b =? 0x42))
            && ((r =? 0x72) || (r =? 0x52))); [|discriminate].
  intros H. do 3 apply ends_with_cons.
  apply (ends_with_trans _ _ _ (trim_start_ends s1)).
  destruct (trim_start s1) as [|c t] eqn:Es; [discriminate|].
  assert (Hgt : forall u, match u with
                          | c' :: t' => if c' =? 0x3E then Some (trim_start t')
                                        else None
                          | [] => None
                          end = Some rest -> ends_with u rest).
  { intros [|c' t']; [discriminate|]. destruct (c' =? 0x3E); [|discriminate].
    intros [= <-]. apply ends_with_cons, trim_start_ends. }
  destruct (c =? 0x2F).
  - apply ends_with_cons. now apply Hgt.
  - now apply Hgt.
Qed.

Lemma match_brs_ends (fuel : nat) (s : jsstring) :
  ends_with s (snd (match_brs fuel s)).
Proof.
  revert s. induction fuel as [|fuel IH]; intros s; [apply ends_with_refl|].
  cbn [match_brs]. destruct (match_br s) as [rest|] eqn:E.
  - specialize (IH rest). destruct (match_brs fuel rest) as [n after].
    cbn [snd] in *. apply match_br_ends in E.
    now apply (ends_with_trans _ _ _ E).
  - apply ends_with_refl.
Qed.

(** Collapsing the line breaks brings no character in that the text or
    [<br>] does not have. *)
Lemma collapse_brs_upto_chars (x : Z) (fuel : nat) (s : jsstring) :
  In x (collapse_brs_upto fuel s) -> In x s \/ In x (js "<br>").
Proof.
  revert s. induction fuel as [|fuel IH]; intros s; [now left|].
  cbn [collapse_brs_upto]. destruct s as [|c r]; [now left|].
  pose proof (match_brs_ends (List.length (c :: r)) (c :: r)) as Hends.
  destruct (match_brs (List.length (c :: r)) (c :: r)) as [n after].
  cbn [snd] in Hends. destruct (2 <=? n)%nat.
  - intros H. apply in_app_iff in H. destruct H as [H|H]; [now right|].
    destruct (IH _ H) as [H'|H']; [|now right].
    left. now apply (ends_with_in x _ _ Hends).
  - intros [H|H]; [left; now left|].
    destruct (IH _ H) as [H'|H']; [|now right]. left. now right.
Qed.

(** X11.  No line feed of a body reaches the dat line: whatever the body
    is, its content has none. *)
Theorem datContent_has_no_line_feed (body : option jsstring) :
  ~ In 0xA (datContent body).
Proof.
  unfold datContent, collapse_brs. cbv zeta. intros H.
  apply collapse_brs_upto_chars in H. destruct H as [H|H].
  - revert H. apply replace_newlines_no_lf. not_in_text.
  - revert H. not_in_text.
Qed.

Lemma strip_prefix_other_head (c : Z) (p s : jsstring) :
  ~ In c s -> strip_prefix (c :: p) s = None.
Proof.
  intros H. destruct s as [|y s']; [reflexivity|]. cbn [strip_prefix].
  destruct (c =? y) eqn:E; [|reflexivity].
  apply Z.eqb_eq in E. subst y. exfalso. apply H. now left.
Qed.

Lemma amp_lt_text : js "&lt;" = 0x26 :: js "lt;".
Proof. now vm_compute. Qed.

Lemma amp_amp_text : js "&amp;" = 0x26 :: js "amp;".
Proof. now vm_compute. Qed.

Lemma decode_tags_upto_without_amp (fuel : nat) (s : jsstring) :
  ~ In 0x26 s -> decode_tags_upto fuel s = s.
Proof.
  revert s. induction fuel as [|fuel IH]; intros s H; [reflexivity|].
  destruct s as [|c r]; [reflexivity|]. cbn [decode_tags_upto].
  unfold match_escaped_tag. rewrite amp_lt_text.
  rewrite (strip_prefix_other_head _ _ _ H).
  rewrite IH; [reflexivity|]. intros Hin. apply H. now right.
Qed.

Lemma replace_text_upto_without_head (fuel : nat) (c : Z) (p by_ s : jsstring) :
  ~ In c s -> replace_text_upto fuel (c :: p) by_ s = s.
Proof.
  revert s. induction fuel as [|fuel IH]; intros s H; [reflexivity|].
  destruct s as [|x r]; [reflexivity|]. cbn [replace_text_upto].
  rewrite (strip_prefix_other_head _ _ _ H).
  rewrite IH; [reflexivity|]. intros Hin. apply H. now right.
Qed.

Lemma match_br_other_head (s : jsstring) :
  ~ In 0x3C s -> match_br s = None.
Proof.
  intros H. unfold match_br. destruct s as [|lt [|b [|r s1]]]; try reflexivity.
  destruct (lt =? 0x3C) eqn:E; [|reflexivity].
  apply Z.eqb_eq in E. subst lt. exfalso. apply H. now left.
Qed.

Lemma collapse_brs_upto_without_lt (fuel : nat) (s : jsstring) :
  ~ In 0x3C s -> collapse_brs_upto fuel s = s.
Proof.
  revert s. induction fuel as [|fuel IH]; intros s H; [reflexivity|].
  destruct s as [|c r]; [reflexivity|]. cbn [collapse_brs_upto].
  cbn [List.length match_brs]. rewrite (match_br_other_head _ H).
  cbn [Nat.leb]. rewrite IH; [reflexivity|]. intros Hin. apply H. now right.
Qed.

(** X12.  A body that has no [&], no [<] and no line feed is the content
    of its dat line as it is: nothing is decoded, replaced or collapsed. *)
Theorem datContent_keeps_plain_text (body : jsstring) :
  ~ In 0x26 body -> ~ In 0x3C body -> ~ In 0xA body ->
  datContent (Some body) = body.
Proof.
  intros Hamp Hlt Hlf.
  unfold datContent, decode_tags, replace_text, collapse_brs. cbv zeta.
  cbn [or_empty].
  rewrite (decode_tags_upto_without_amp _ _ Hamp).
  rewrite amp_amp_text.
  rewrite (replace_text_upto_without_head _ _ _ _ _ Hamp).
  rewrite (replace_newlines_without_lf _ _ Hlf).
  now apply collapse_brs_upto_without_lt.
Qed.

Lemma datContent_keeps_plain_text_witness :
  datContent (Some (js ">>1 ok")) = js ">>1 ok".
Proof.
  apply datContent_keeps_plain_text; not_in_text.
Defined.

(** ** [formatDatDate], [formatDatLine] and [generateDat] *)

Lemma split_on_not_nil (sep : Z) (s : jsstring) : split_on sep s <> [].
Proof.
  destruct s as [|c r]; [discriminate|]. cbn [split_on].
  destruct (c =? sep); [discriminate|].
  destruct (split_on sep r); discriminate.
Qed.

(** A text with the separator in it has two parts at least. *)
Lemma split_on_second (sep : Z) (s : jsstring) :
  In sep s -> exists a b rest, split_on sep s = a :: b :: rest.
Proof.
  induction s as [|c r IH]; intros H; [destruct H|].
  cbn [split_on]. destruct (c =? sep) eqn:E.
  - destruct (split_on sep r) as [|b rest] eqn:Er.
    + now destruct (split_on_not_nil sep r).
    + now exists [], b, rest.
  - destruct H as [H|H]; [subst c; rewrite Z.eqb_refl in E; discriminate|].
    destruct (IH H) as (a & b & rest & ->). now exists (c :: a), b, rest.
Qed.

(** The parts of a text are made of its characters. *)
Lemma split_on_chars (sep x : Z) (s part : jsstring) :
  In part (split_on sep s) -> In x part -> In x s.
Proof.
  revert part. induction s as [|c r IH]; intros part Hp Hx.
  - destruct Hp as [<-|[]]. destruct Hx.
  - cbn [split_on] in Hp. destruct (c =? sep).
    + destruct Hp as [<-|Hp]; [destruct Hx|]. right. now apply (IH part).
    + destruct (split_on sep r) as [|seg segs] eqn:Er.
      * destruct Hp as [<-|[]]. destruct Hx as [<-|[]]. now left.
      * destruct Hp as [<-|Hp].
        -- destruct Hx as [<-|Hx]; [now left|]. right.
           apply (IH seg); [now left | exact Hx].
        -- right. apply (IH part); [now right | exact Hx].
Qed.

Lemma element_text_chars (sep x : Z) (s : jsstring) (n : nat) :
  ~ In x s -> ~ In x (js "undefined") ->
  ~ In x (element_text (split_on sep s) n).
Proof.
  intros Hs Hu. unfold element_text.
  destruct (nth_in_or_default n (split_on sep s) (js "undefined")) as [H|H].
  - intros Hx. apply Hs. now apply (split_on_chars sep x s _ H).
  - now rewrite H.
Qed.

Lemma firstn_chars (x : Z) (n : nat) (s : jsstring) :
  ~ In x s -> ~ In x (firstn n s).
Proof.
  intros H Hin. apply H. rewrite <- (firstn_skipn n s).
  apply in_app_iff. now left.
Qed.

Lemma centiseconds_text_no_lf (time : option Z) :
  ~ In 0xA (centiseconds_text time).
Proof.
  unfold centiseconds_text. cbv zeta. apply firstn_chars.
  unfold padStart0. apply not_in_app.
  - intros H. apply repeat_spec in H. discriminate.
  - destruct time as [ms|]; [|not_in_text].
    destruct (Number_toString_decimal (ms mod 1000)
                ltac:(apply Z.mod_pos_bound; lia)) as (Hd & _ & _).
    now apply digits_are_not.
Qed.

Ltac split_apps :=
  repeat match goal with |- ~ In _ (_ ++ _) => apply not_in_app end.

Section DatLines.
Context {L : Intl}.
Hypothesis locale_has_space : forall time, In 0x20 (toLocaleString_ja_JP time).
Hypothesis locale_has_no_lf : forall time, ~ In 0xA (toLocaleString_ja_JP time).

Lemma formatDatDate_returns (time : option Z) :
  exists date, formatDatDate time = Returns date /\ ~ In 0xA date.
Proof.
  unfold formatDatDate. cbv zeta.
  pose proof (locale_has_no_lf time) as Hlf.
  destruct (split_on_second 0x20 _ (locale_has_space time))
    as (datePart & timePart & rest & E).
  pose proof (split_on_chars 0x20 0xA (toLocaleString_ja_JP time)) as Hparts.
  rewrite E in Hparts |- *. cbn [nth nth_error].
  assert (Hd : ~ In 0xA datePart).
  { intros Hx. apply Hlf. apply (Hparts datePart); [now left | exact Hx]. }
  assert (Ht : ~ In 0xA timePart).
  { intros Hx. apply Hlf.
    apply (Hparts timePart); [right; now left | exact Hx]. }
  assert (Hu : ~ In 0xA (js "undefined")) by not_in_text.
  eexists. split; [reflexivity|].
  split_apps;
    try (apply element_text_chars; assumption);
    try apply centiseconds_text_no_lf;
    not_in_text.
Qed.

Lemma getLevelDisplayString_no_lf (entity : option Entity) :
  ~ In 0xA (getLevelDisplayString entity).
Proof.
  assert (Hn : forall z, ~ In 0xA (Integer_toString z))
    by (intros z; apply Integer_toString_chars; [reflexivity | discriminate]).
  assert (Hlv : ~ In 0xA (js "Lv:")) by not_in_text.
  assert (Har : ~ In 0xA (js "→")) by not_in_text.
  assert (Haq : ~ In 0xA (js "→?")) by not_in_text.
  unfold getLevelDisplayString.
  destruct entity as [entity|]; [|intros []].
  destruct (level_at_creation entity) as [created|]; [|intros []].
  cbv zeta.
  destruct (level entity) as [current|];
    [destruct (negb (current =? created))|];
    try destruct (is_current_level_hidden entity);
    split_apps; try apply Hn; assumption.
Qed.

Lemma datNameAndId_no_lf (entity : Entity) :
  ~ In 0xA (or_empty (display_user_id entity)) ->
  ~ In 0xA (fst (datNameAndId entity)) /\ ~ In 0xA (snd (datNameAndId entity)).
Proof.
  intros Hid. unfold datNameAndId. cbv zeta.
  destruct (escapeDatField_clean
              (Some (or_default (author_name entity) (js "名無しさん"))))
    as [_ Hname].
  assert (Hu : ~ In 0xA (js "undefined")) by not_in_text.
  assert (Hq : ~ In 0xA (js "????")) by not_in_text.
  assert (Ho : ~ In 0xA (js " (")) by not_in_text.
  assert (Hm : ~ In 0xA (js "-")) by not_in_text.
  assert (Hc : ~ In 0xA (js ")")) by not_in_text.
  destruct (List.length (split_on 0x2D (or_empty (display_user_id entity)))
            =? 3)%nat; cbn [fst snd]; split.
  - split_apps; auto; now apply element_text_chars.
  - now apply element_text_chars.
  - split_apps; auto.
    destruct (display_user_id entity) as [[|c s]|];
      cbn [or_default is_empty or_empty] in *; auto.
  - exact Hq.
Qed.

Lemma escapedTitle_no_lf (title : option jsstring) :
  ~ In 0xA (escapedTitle title).
Proof.
  unfold escapedTitle. destruct title as [t|]; [|intros []].
  destruct (is_empty t); [intros []|]. apply escapeDatField_clean.
Qed.

Lemma formatDatLine_returns (entity : Entity) (title : option jsstring) :
  ~ In 0xA (or_empty (display_user_id entity)) ->
  exists line, formatDatLine entity title = Returns line /\ ~ In 0xA line.
Proof.
  intros Hid. unfold formatDatLine.
  destruct (datNameAndId_no_lf entity Hid) as [Hname Hidd].
  destruct (datNameAndId entity) as [name idForDate]. cbn [fst snd] in *.
  destruct (formatDatDate_returns (created_at entity)) as (date & -> & Hdate).
  cbn [obind]. cbv zeta. eexists. split; [reflexivity|].
  assert (Hcontent : ~ In 0xA (datContent (entity_body entity))).
  { unfold datContent, collapse_brs. cbv zeta. intros H.
    apply collapse_brs_upto_chars in H. destruct H as [H|H].
    - revert H. apply replace_newlines_no_lf. not_in_text.
    - revert H. not_in_text. }
  split_apps; auto;
    try apply getLevelDisplayString_no_lf;
    try apply escapedTitle_no_lf;
    not_in_text.
Qed.

Lemma formatDatLines_returns (comments : list Entity) :
  Forall (fun c => ~ In 0xA (or_empty (display_user_id c))) comments ->
  exists lines,
    formatDatLines comments = Returns lines
    /\ List.length lines = List.length comments
    /\ Forall (fun l => ~ In 0xA l) lines.
Proof.
  induction 1 as [|comment rest Hc _ IH].
  - exists []. repeat split; constructor.
  - destruct IH as (lines & E & Hlen & Hall).
    destruct (formatDatLine_returns comment None Hc) as (line & El & Hl).
    exists (line :: lines). cbn [formatDatLines]. rewrite El. cbn [obind].
    rewrite E. cbn [obind List.length]. repeat split; auto.
Qed.

(** X13.  When the locale text of a date has a space and no line feed,
    and no display id has a line feed, [generateDat] returns a text with
    one line for the thread and one for each comment, every one of them
    ended by a line feed: a reader who splits the text at the line feeds
    gets as many lines as there are posts, then the empty text.  No name,
    body or title can add a line. *)
Theorem generateDat_one_line_per_post (post : Post) (comments : list Entity) :
  ~ In 0xA (or_empty (display_user_id (post_entity post))) ->
  Forall (fun c => ~ In 0xA (or_empty (display_user_id c))) comments ->
  exists out line lines,
    generateDat post comments = Returns out
    /\ split_on 0xA out = (line :: lines) ++ [[]]
    /\ formatDatLine (post_entity post) (post_title post) = Returns line
    /\ List.length lines = List.length comments.
Proof.
  intros Hpost Hcomments. unfold generateDat.
  destruct (formatDatLine_returns (post_entity post) (post_title post) Hpost)
    as (line & El & Hl).
  destruct (formatDatLines_returns comments Hcomments)
    as (lines & E & Hlen & Hall).
  rewrite El, E. cbn [obind].
  exists (join [0xA] (line :: lines) ++ [0xA]), line, lines.
  split; [reflexivity|]. split; [|now split].
  apply split_on_joined_lines. now constructor.
Qed.
End DatLines.

Lemma existsb_in (c : Z) (s : jsstring) :
  existsb (Z.eqb c) s = true -> In c s.
Proof.
  intros H. apply existsb_exists in H. destruct H as (x & Hin & E).
  apply Z.eqb_eq in E. now subst x.
Qed.

Lemma generateDat_one_line_per_post_witness :
  exists out line lines,
    @generateDat intl_fixed sample_post [sample_comment] = Returns out
    /\ split_on 0xA out = (line :: lines) ++ [[]]
    /\ @formatDatLine intl_fixed (post_entity sample_post)
         (post_title sample_post) = Returns line
    /\ List.length lines = 1%nat.
Proof.
  apply (@generateDat_one_line_per_post intl_fixed).
  - intros time. apply existsb_in. vm_compute. reflexivity.
  - intros time. not_in_text.
  - intros [].
  - constructor; [not_in_text | constructor].
Defined.

(** ** [Headers], [Response] and [createSjisResponse] with their checks *)

Lemma strip_leading_head (c : Z) (s : jsstring) :
  is_http_whitespace c = false -> strip_leading (c :: s) = c :: s.
Proof. intros E. cbn [strip_leading]. now rewrite E. Qed.

Lemma strip_without_whitespace (s : jsstring) :
  forallb (fun c => negb (is_http_whitespace c)) s = true ->
  strip_http_whitespace s = s.
Proof.
  intros Hs. unfold strip_http_whitespace.
  assert (Hl : forall t, forallb (fun c => negb (is_http_whitespace c)) t = true ->
                         strip_leading t = t).
  { intros [|c t] Ht; [reflexivity|]. cbn [forallb] in Ht.
    apply andb_true_iff in Ht as [Hc _]. apply negb_true_iff in Hc.
    now apply strip_leading_head. }
  rewrite (Hl s Hs). rewrite Hl; [apply rev_involutive|].
  rewrite forallb_forall in *. intros x Hx. apply Hs. now apply in_rev.
Qed.

Lemma header_value_digits (s : jsstring) :
  forallb is_digit s = true -> header_value s = Returns s.
Proof.
  intros Hd. rewrite forallb_forall in Hd. unfold header_value.
  assert (H1 : forallb (fun c => c <=? 255) s = true).
  { apply forallb_forall. intros c Hc. specialize (Hd c Hc).
    unfold is_digit in Hd. lia. }
  assert (H2 : forallb (fun c => negb (is_http_whitespace c)) s = true).
  { apply forallb_forall. intros c Hc. specialize (Hd c Hc).
    unfold is_digit, is_http_whitespace in *. lia. }
  assert (H3 : forallb (fun c => negb ((c =? 0) || (c =? 0xA) || (c =? 0xD))) s
               = true).
  { apply forallb_forall. intros c Hc. specialize (Hd c Hc).
    unfold is_digit in Hd. lia. }
  rewrite H1. cbv zeta. rewrite (strip_without_whitespace s H2). now rewrite H3.
Qed.

Lemma createSjisResponse_checked_returns {I : IconvLite}
    (text contentType : jsstring) (st : Z) (cookies : list jsstring) :
  200 <= st <= 599 -> null_body_status st = false ->
  header_value (contentType ++ js "; charset=Shift_JIS")
  = Returns (contentType ++ js "; charset=Shift_JIS") ->
  header_values cookies = Returns cookies ->
  createSjisResponse_checked text contentType st cookies
  = Returns (createSjisResponse text contentType st cookies).
Proof.
  intros Hst Hnull Hct Hcs. unfold createSjisResponse_checked. cbv zeta.
  rewrite Hct. cbn [obind].
  destruct (Number_toString_decimal
              (Z.of_nat (List.length (iconv_encode text))) ltac:(lia))
    as (Hd & _ & _).
  rewrite (header_value_digits _ Hd). cbn [obind]. rewrite Hcs. cbn [obind].
  now rewrite new_Response_returns.
Qed.

Lemma text_plain_value :
  header_value (js "text/plain" ++ js "; charset=Shift_JIS")
  = Returns (js "text/plain" ++ js "; charset=Shift_JIS").
Proof. now vm_compute. Qed.

Lemma plain_response {I : IconvLite} (text : jsstring) (st : Z) :
  200 <= st <= 599 -> null_body_status st = false ->
  createSjisResponse_checked text (js "text/plain") st []
  = Returns (createSjisResponse text (js "text/plain") st []).
Proof.
  intros Hst Hnull.
  apply createSjisResponse_checked_returns;
    [exact Hst | exact Hnull | apply text_plain_value | reflexivity].
Qed.

Lemma createSjisResponse_checked_status {I : IconvLite}
    (text contentType : jsstring) (st : Z) (cookies : list jsstring)
    (r : Response) :
  createSjisResponse_checked text contentType st cookies = Returns r ->
  status r = st mod 65536 /\ 200 <= status r <= 599
  /\ null_body_status (status r) = false /\ body r = iconv_encode text.
Proof.
  unfold createSjisResponse_checked. cbv zeta.
  destruct (header_value (contentType ++ js "; charset=Shift_JIS"));
    [|discriminate].
  cbn [obind]. destruct (header_value _); [|discriminate]. cbn [obind].
  destruct (header_values cookies); [|discriminate]. cbn [obind].
  apply new_Response_status.
Qed.

(** X6.  With a status within 200..599 that allows a body, a content type
    and cookie texts that [Headers] stores as they are, [createSjisResponse]
    returns a response that has the text encoded as its body, carries the
    given status, names the charset in its content type, and has a
    [Content-Length] that is a decimal numeral whose value is the number
    of bytes of the body.  Every given cookie text is a [set-cookie] header
    of its own, in the given order, and there are no other headers. *)
Theorem createSjisResponse_checked_headers {I : IconvLite}
    (text contentType : jsstring) (st : Z) (cookies : list jsstring) :
  200 <= st <= 599 -> null_body_status st = false ->
  header_value (contentType ++ js "; charset=Shift_JIS")
  = Returns (contentType ++ js "; charset=Shift_JIS") ->
  header_values cookies = Returns cookies ->
  exists r,
    createSjisResponse_checked text contentType st cookies = Returns r
    /\ body r = iconv_encode text
    /\ status r = st
    /\ headers_get (headers r) (js "Content-Type")
       = Some (contentType ++ js "; charset=Shift_JIS")
    /\ (exists contentLength,
          headers_get (headers r) (js "content-length") = Some contentLength
          /\ contentLength <> []
          /\ forallb is_digit contentLength = true
          /\ decimal_value contentLength = Z.of_nat (List.length (body r)))
    /\ skipn 2 (headers r)
       = map (fun cookie => (js "set-cookie", cookie)) cookies.
Proof.
  intros Hst Hnull Hct Hcs.
  exists (createSjisResponse text contentType st cookies).
  split; [now apply createSjisResponse_checked_returns|].
  apply createSjisResponse_record.
Qed.

Lemma createSjisResponse_checked_headers_witness :
  exists r,
    @createSjisResponse_checked iconv_lenient (js "abc") (js "text/plain") 404
      [js "sid=1; Path=/"] = Returns r
    /\ status r = 404.
Proof.
  destruct (@createSjisResponse_checked_headers iconv_lenient (js "abc")
              (js "text/plain") 404 [js "sid=1; Path=/"])
    as (r & Hr & _ & Hs & _);
    [lia | reflexivity | now vm_compute | now vm_compute |].
  exists r. now split.
Defined.

(** ** The read endpoints *)

Lemma text_plain_charset :
  js "text/plain" ++ js "; charset=Shift_JIS" = js "text/plain; charset=Shift_JIS".
Proof. now vm_compute. Qed.

Lemma plain_response_facts {I : IconvLite} (text : jsstring) (st : Z) :
  status (createSjisResponse text (js "text/plain") st []) = st
  /\ body (createSjisResponse text (js "text/plain") st []) = iconv_encode text
  /\ headers_get (headers (createSjisResponse text (js "text/plain") st []))
       (js "Content-Type") = Some (js "text/plain; charset=Shift_JIS").
Proof.
  destruct (createSjisResponse_record text (js "text/plain") st [])
    as (Hb & Hs & Hct & _).
  rewrite text_plain_charset in Hct. now repeat split.
Qed.

Section ReadEndpointFacts.
Context {I : IconvLite} {L : Intl} {U : Upstream}.
Variable PUBLIC_API_BASE_URL : jsstring.

End ReadEndpointFacts.

Lemma server_error_text :
  js "BBS_TITLE=サーバーエラー" ++ [0xA]
  = js "BBS_TITLE=" ++ js "サーバーエラー" ++ [0xA] ++ [].
Proof. now vm_compute. Qed.

Section SettingAndDat.
Context {I : IconvLite} {L : Intl} {U : Upstream}.
Variable PUBLIC_API_BASE_URL : jsstring.

(** The settings of the board that stands in for one that could not be
    fetched. *)
Lemma fallback_settings (boardId : jsstring) :
  generateSettingTxt (createFallbackBoard boardId)
  = js "BBS_TITLE=（板が見つかりません）" ++ [0xA]
    ++ js "BBS_NONAME_NAME=野球民" ++ [0xA]
    ++ js "BBS_LINE_NUMBER=20" ++ [0xA]
    ++ js "BBS_SUBJECT_COUNT=400" ++ [0xA]
    ++ js "BBS_NAME_COUNT=40" ++ [0xA]
    ++ js "BBS_MAIL_COUNT=20" ++ [0xA]
    ++ js "BBS_MESSAGE_COUNT=3000" ++ [0xA].
Proof.
  unfold generateSettingTxt, settingsOf, createFallbackBoard.
  cbn [board_name board_default_name board_id].
  assert (Hname : forall d,
            or_default (Some (js "（板が見つかりません）")) d
            = js "（板が見つかりません）") by (intros d; now vm_compute).
  assert (Hnoname : forall d, or_default (Some (js "野球民")) d = js "野球民")
    by (intros d; now vm_compute).
  rewrite Hname, Hnoname. now vm_compute.
Qed.

(** X15.  The SETTING.TXT endpoint answers every request, and what it
    answers is decided by the backend alone.  When the request to the
    backend is rejected, and when the backend answers with a status within
    200..299 and a body that cannot be read, is not JSON or has no board,
    the answer has status 500 and the one line [BBS_TITLE=サーバーエラー].
    When the backend answers with a failing status, the answer has status
    200 and the settings of the stand-in board, which do not depend on the
    board that was asked for.  When the backend answers with a board, the
    answer has status 200 and the settings of that board.  Every text
    the endpoint sends begins with [BBS_TITLE=]. *)
Theorem GET_setting_cases (boardId : jsstring) :
  exists r cache text,
    GET_setting PUBLIC_API_BASE_URL boardId None = (Returns r, cache)
    /\ body r = iconv_encode text
    /\ headers_get (headers r) (js "Content-Type")
       = Some (js "text/plain; charset=Shift_JIS")
    /\ (exists rest, text = js "BBS_TITLE=" ++ rest)
    /\ match fetch (PUBLIC_API_BASE_URL ++ js "/boards/" ++ boardId) with
       | Throws =>
           status r = 500 /\ text = js "BBS_TITLE=サーバーエラー" ++ [0xA]
       | Returns res =>
           if fetched_ok res then
             match (responseText <- fetched_text res ;;
                    board_of_json responseText) with
             | Returns (Some board) =>
                 status r = 200 /\ text = generateSettingTxt board
             | Returns None | Throws =>
                 status r = 500
                 /\ text = js "BBS_TITLE=サーバーエラー" ++ [0xA]
             end
           else
             status r = 200
             /\ text = generateSettingTxt (createFallbackBoard boardId)
             /\ text = js "BBS_TITLE=（板が見つかりません）" ++ [0xA]
                       ++ js "BBS_NONAME_NAME=野球民" ++ [0xA]
                       ++ js "BBS_LINE_NUMBER=20" ++ [0xA]
                       ++ js "BBS_SUBJECT_COUNT=400" ++ [0xA]
                       ++ js "BBS_NAME_COUNT=40" ++ [0xA]
                       ++ js "BBS_MAIL_COUNT=20" ++ [0xA]
                       ++ js "BBS_MESSAGE_COUNT=3000" ++ [0xA]
       end.
Proof.
  set (url := PUBLIC_API_BASE_URL ++ js "/boards/" ++ boardId).
  assert (Hfailed : forall (cache : option jsstring) (P : Z -> jsstring -> Prop),
            P 500 (js "BBS_TITLE=サーバーエラー" ++ [0xA]) ->
            exists r cache' text,
              hlift (createSjisResponse_checked
                       (js "BBS_TITLE=サーバーエラー" ++ [0xA])
                       (js "text/plain") 500 []) cache = (Returns r, cache')
              /\ body r = iconv_encode text
              /\ headers_get (headers r) (js "Content-Type")
                 = Some (js "text/plain; charset=Shift_JIS")
              /\ (exists rest, text = js "BBS_TITLE=" ++ rest)
              /\ P (status r) text).
  { intros cache P HP. unfold hlift.
    rewrite plain_response by (lia || reflexivity).
    destruct (plain_response_facts (js "BBS_TITLE=サーバーエラー" ++ [0xA]) 500)
      as (Hs & Hb & Hct).
    eexists; eexists. exists (js "BBS_TITLE=サーバーエラー" ++ [0xA]).
    split; [reflexivity|]. rewrite Hs. repeat split; auto.
    exists (js "サーバーエラー" ++ [0xA] ++ []). apply server_error_text. }
  assert (Hboard : forall (cache : option jsstring) board
                     (P : Z -> jsstring -> Prop),
            P 200 (generateSettingTxt board) ->
            exists r cache' text,
              (Returns (createSjisResponse (generateSettingTxt board)
                          (js "text/plain") 200 []), cache)
              = (Returns r, cache')
              /\ body r = iconv_encode text
              /\ headers_get (headers r) (js "Content-Type")
                 = Some (js "text/plain; charset=Shift_JIS")
              /\ (exists rest, text = js "BBS_TITLE=" ++ rest)
              /\ P (status r) text).
  { intros cache board P HP.
    destruct (plain_response_facts (generateSettingTxt board) 200)
      as (Hs & Hb & Hct).
    destruct (generateSettingTxt_shape board) as (title & noname & _ & _ & E).
    eexists; eexists. exists (generateSettingTxt board).
    split; [reflexivity|]. rewrite Hs. repeat split; auto.
    rewrite E. eexists. reflexivity. }
  unfold GET_setting, try_catchH, hbind. fold url.
  unfold hlift at 1.
  destruct (fetch url) as [res|] eqn:Efetch;
    [|apply (Hfailed None (fun st text =>
                st = 500 /\ text = js "BBS_TITLE=サーバーエラー" ++ [0xA]));
      now split].
  cbn [setHeaders].
  destruct (fetched_ok res) eqn:Eok; cbn [negb].
  - unfold hlift at 1. destruct (fetched_text res) as [responseText|];
      cbn [obind];
      [|apply (Hfailed _ (fun st text =>
                  st = 500 /\ text = js "BBS_TITLE=サーバーエラー" ++ [0xA]));
        now split].
    unfold hlift at 1.
    destruct (board_of_json responseText) as [[board|]|]; cbv beta iota.
    + unfold hlift at 1. rewrite plain_response by (lia || reflexivity).
      apply (Hboard _ board (fun st text =>
               st = 200 /\ text = generateSettingTxt board)).
      now split.
    + unfold hlift at 1.
      apply (Hfailed _ (fun st text =>
               st = 500 /\ text = js "BBS_TITLE=サーバーエラー" ++ [0xA])).
      now split.
    + apply (Hfailed _ (fun st text =>
               st = 500 /\ text = js "BBS_TITLE=サーバーエラー" ++ [0xA])).
      now split.
  - unfold hret. cbv beta iota.
    unfold hlift at 1. rewrite plain_response by (lia || reflexivity).
    apply (Hboard _ (createFallbackBoard boardId)
             (fun st text =>
                st = 200
                /\ text = generateSettingTxt (createFallbackBoard boardId)
                /\ text = js "BBS_TITLE=（板が見つかりません）" ++ [0xA]
                          ++ js "BBS_NONAME_NAME=野球民" ++ [0xA]
                          ++ js "BBS_LINE_NUMBER=20" ++ [0xA]
                          ++ js "BBS_SUBJECT_COUNT=400" ++ [0xA]
                          ++ js "BBS_NAME_COUNT=40" ++ [0xA]
                          ++ js "BBS_MAIL_COUNT=20" ++ [0xA]
                          ++ js "BBS_MESSAGE_COUNT=3000" ++ [0xA])).
    split; [reflexivity|]. split; [reflexivity|]. apply fallback_settings.
Qed.

End SettingAndDat.


(** ** From subject.txt to the dat file *)

Lemma digit_is_no_whitespace (c : Z) :
  is_digit c = true -> is_StrWhiteSpaceChar c = false.
Proof. unfold is_digit, is_StrWhiteSpaceChar. lia. Qed.

Lemma parse_decimal_prefix_digits (s : jsstring) :
  forallb is_digit s = true ->
  forall acc,
    parse_decimal_prefix (Some acc) s
    = Some (fold_left (fun a c => 10 * a + (c - 0x30)) s acc).
Proof.
  induction s as [|c r IH]; intros Hs acc; [reflexivity|].
  cbn [forallb] in Hs. apply andb_true_iff in Hs as [Hc Hr].
  cbn [parse_decimal_prefix fold_left]. rewrite Hc. now rewrite IH.
Qed.

Lemma parse_decimal_numeral (s : jsstring) :
  forallb is_digit s = true -> s <> [] ->
  parse_decimal_prefix None s = Some (decimal_value s).
Proof.
  intros Hs Hn. destruct s as [|c r]; [contradiction|].
  cbn [forallb] in Hs. apply andb_true_iff in Hs as [Hc Hr].
  cbn [parse_decimal_prefix]. rewrite Hc.
  rewrite (parse_decimal_prefix_digits r Hr). reflexivity.
Qed.

Lemma parseInt10_digits (s : jsstring) :
  forallb is_digit s = true -> s <> [] ->
  parseInt10 s = Some (decimal_value s).
Proof.
  intros Hs Hn. pose proof (parse_decimal_numeral s Hs Hn) as Hp.
  destruct s as [|c r]; [contradiction|].
  pose proof Hs as Hs'. cbn [forallb] in Hs'.
  apply andb_true_iff in Hs' as [Hc _].
  unfold parseInt10. cbn [trim_start].
  rewrite (digit_is_no_whitespace c Hc). cbv zeta.
  assert (E1 : (c =? 0x2D) = false) by (unfold is_digit in Hc; lia).
  assert (E2 : (c =? 0x2B) = false) by (unfold is_digit in Hc; lia).
  rewrite E1, E2. cbn [orb]. rewrite Hp. cbn [option_map].
  f_equal. lia.
Qed.

(** The numeral of an integer reads back as the integer. *)
Lemma parseInt10_Integer_toString (z : Z) :
  parseInt10 (Integer_toString z) = Some z.
Proof.
  unfold Integer_toString. destruct (z <? 0) eqn:E.
  - apply Z.ltb_lt in E.
    destruct (Number_toString_decimal (- z) ltac:(lia)) as (Hd & Hv & Hn).
    pose proof (parse_decimal_numeral _ Hd Hn) as Hp.
    unfold parseInt10. cbn [trim_start].
    change (is_StrWhiteSpaceChar 0x2D) with false. cbv zeta. cbv iota.
    change (0x2D =? 0x2D) with true. cbn [orb]. cbv iota. rewrite Hp, Hv.
    cbn [option_map]. f_equal. lia.
  - apply Z.ltb_ge in E.
    destruct (Number_toString_decimal z E) as (Hd & Hv & Hn).
    now rewrite (parseInt10_digits _ Hd Hn), Hv.
Qed.

Lemma strip_prefix_self (p : jsstring) : strip_prefix p p = Some [].
Proof.
  induction p as [|c p IH]; [reflexivity|].
  cbn [strip_prefix]. now rewrite Z.eqb_refl.
Qed.

Lemma replace_first_at_end (c : Z) (p a : jsstring) :
  ~ In c a -> replace_first (c :: p) [] (a ++ c :: p) = a.
Proof.
  induction a as [|x a IH]; intros H.
  - cbn [app]. destruct p; cbn [replace_first];
      rewrite (strip_prefix_self (c :: _)); reflexivity.
  - assert (Hx : (c =? x) = false).
    { apply Z.eqb_neq. intros ->. apply H. now left. }
    cbn [app replace_first strip_prefix]. rewrite Hx.
    rewrite IH; [reflexivity|]. intros Hin. apply H. now right.
Qed.

Lemma replace_first_absent (c : Z) (p a : jsstring) :
  ~ In c a -> replace_first (c :: p) [] a = a.
Proof.
  induction a as [|x a IH]; intros H; [reflexivity|].
  assert (Hx : (c =? x) = false).
  { apply Z.eqb_neq. intros ->. apply H. now left. }
  cbn [replace_first strip_prefix]. rewrite Hx.
  rewrite IH; [reflexivity|]. intros Hin. apply H. now right.
Qed.

Lemma dat_suffix_text : js ".dat" = 0x2E :: js "dat".
Proof. now vm_compute. Qed.

Lemma dat_separator_text : js ".dat<>" = js ".dat" ++ js "<>".
Proof. now vm_compute. Qed.

(** The lookup on a list that has a thread with the timestamp: it stops
    at the first such thread, or at a [null] entry before it. *)
Lemma find_post_first (requested : Z) (posts : list (option Post)) (p : Post) :
  In (Some p) posts -> timestamp_of (post_entity p) = Some requested ->
  exists before after,
    Forall (fun x => timestamp_of (post_entity x) <> Some requested) before
    /\ ((posts = map Some before ++ None :: after
         /\ find_post requested posts = Throws)
        \/ exists q,
             posts = map Some before ++ Some q :: after
             /\ timestamp_of (post_entity q) = Some requested
             /\ find_post requested posts = Returns (Some q)).
Proof.
  induction posts as [|[x|] rest IH]; intros Hin Hp; [destruct Hin| |].
  - cbn [find_post].
    assert (Hrest : timestamp_of (post_entity x) <> Some requested ->
              exists before after,
                Forall (fun x => timestamp_of (post_entity x) <> Some requested)
                  before
                /\ ((Some x :: rest = map Some before ++ None :: after
                     /\ find_post requested rest = Throws)
                    \/ exists q,
                         Some x :: rest = map Some before ++ Some q :: after
                         /\ timestamp_of (post_entity q) = Some requested
                         /\ find_post requested rest = Returns (Some q))).
    { intros Hx. destruct Hin as [[= ->]|Hin]; [congruence|].
      destruct (IH Hin Hp) as (before & after & Hb & Hcases).
      exists (x :: before), after. split; [now constructor|].
      destruct Hcases as [[-> Hf]|(q & -> & Hq & Hf)].
      - left. now split.
      - right. exists q. now repeat split. }
    destruct (timestamp_of (post_entity x)) as [t|] eqn:Et.
    + destruct (t =? requested) eqn:E.
      * apply Z.eqb_eq in E. subst t. exists [], rest.
        split; [constructor|]. right. exists x. now repeat split.
      * apply Hrest. intros [= ->]. rewrite Z.eqb_refl in E. discriminate.
    + apply Hrest. discriminate.
  - exists [], rest. split; [constructor|]. left. now split.
Qed.

Lemma kept_posts_in (posts : list (option Post)) (p : Post) :
  In p (kept_posts posts) -> In (Some p) posts.
Proof.
  unfold kept_posts. intros H. apply in_flat_map in H as ([x|] & Hx & Hin);
    [|destruct Hin].
  destruct (post_id x); [|destruct Hin].
  destruct (post_title x); [|destruct Hin].
  destruct Hin as [->|[]]. exact Hx.
Qed.

(** X17.  The file name under which subject.txt lists a thread with a
    valid date is one that the dat endpoint reads back as the timestamp of
    the thread, with or without the [.dat] at its end.  With that
    timestamp the lookup of the endpoint goes through the list the backend
    sent, entries that subject.txt leaves out included: it returns the
    first thread created in that second, which is the thread itself when
    no thread before it shares the second; it throws when the list has a
    [null] entry before every such thread. *)
Theorem listed_thread_is_found (posts : list (option Post)) (p : Post) (ms : Z) :
  In p (kept_posts posts) -> created_at (post_entity p) = Some ms ->
  exists name rest before after,
    subjectLine p = name ++ js ".dat" ++ js "<>" ++ rest
    /\ requestedTimestamp (name ++ js ".dat") = Some (ms / 1000)
    /\ requestedTimestamp name = Some (ms / 1000)
    /\ Forall (fun x => timestamp_of (post_entity x) <> Some (ms / 1000))
         before
    /\ ((posts = map Some before ++ None :: after
         /\ find_post (ms / 1000) posts = Throws)
        \/ exists q,
             posts = map Some before ++ Some q :: after
             /\ timestamp_of (post_entity q) = Some (ms / 1000)
             /\ find_post (ms / 1000) posts = Returns (Some q)).
Proof.
  intros Hin Hms. apply kept_posts_in in Hin.
  assert (Ht : timestamp_of (post_entity p) = Some (ms / 1000))
    by (unfold timestamp_of; now rewrite Hms).
  destruct (find_post_first (ms / 1000) posts p Hin Ht)
    as (before & after & Hb & Hcases).
  assert (Hdot : ~ In 0x2E (Integer_toString (ms / 1000)))
    by (apply Integer_toString_chars; [reflexivity | discriminate]).
  exists (Integer_toString (ms / 1000)).
  eexists. exists before, after.
  split; [|split; [|split; [|now split]]].
  - unfold subjectLine. cbv zeta. rewrite Ht. cbn [Number_or_NaN_toString].
    rewrite dat_separator_text. rewrite <- !app_assoc. reflexivity.
  - unfold requestedTimestamp. rewrite dat_suffix_text.
    rewrite (replace_first_at_end _ _ _ Hdot).
    apply parseInt10_Integer_toString.
  - unfold requestedTimestamp. rewrite dat_suffix_text.
    rewrite (replace_first_absent _ _ _ Hdot).
    apply parseInt10_Integer_toString.
Qed.

(** A list with a [null] entry before the listed thread: subject.txt lists
    the thread, and the lookup of the dat endpoint throws. *)
Lemma listed_thread_is_found_witness :
  let posts := [None; Some sample_post] in
  In sample_post (kept_posts posts)
  /\ find_post (1722059000000 / 1000) posts = Throws
  /\ exists name rest before after,
       subjectLine sample_post = name ++ js ".dat" ++ js "<>" ++ rest
       /\ requestedTimestamp (name ++ js ".dat") = Some (1722059000000 / 1000)
       /\ requestedTimestamp name = Some (1722059000000 / 1000)
       /\ Forall (fun x => timestamp_of (post_entity x)
                           <> Some (1722059000000 / 1000)) before
       /\ ((posts = map Some before ++ None :: after
            /\ find_post (1722059000000 / 1000) posts = Throws)
           \/ exists q,
                posts = map Some before ++ Some q :: after
                /\ timestamp_of (post_entity q)
                   = Some (1722059000000 / 1000)
                /\ find_post (1722059000000 / 1000) posts
                   = Returns (Some q)).
Proof.
  intros posts.
  assert (Hin : In sample_post (kept_posts posts)) by now left.
  split; [exact Hin|]. split; [reflexivity|].
  apply (listed_thread_is_found posts sample_post 1722059000000).
  - exact Hin.
  - reflexivity.
Defined.

(** ** Escaping and its undoing (lib/utils/html.ts) *)

Lemma strip_prefix_length (p s rest : jsstring) :
  strip_prefix p s = Some rest ->
  List.length s = (List.length p + List.length rest)%nat.
Proof.
  revert s. induction p as [|x p IH]; intros s H.
  - cbn in H. injection H as <-. reflexivity.
  - destruct s as [|y s]; [discriminate|]. cbn [strip_prefix] in H.
    destruct (x =? y); [|discriminate]. cbn [List.length].
    now rewrite (IH _ H).
Qed.

Lemma replace_text_upto_enough (x : Z) (p by_ : jsstring) (n m : nat) :
  forall s, (List.length s <= n)%nat -> (List.length s <= m)%nat ->
  replace_text_upto n (x :: p) by_ s = replace_text_upto m (x :: p) by_ s.
Proof.
  revert m. induction n as [|n IH]; intros m s Hn Hm.
  - destruct s; [|simpl in Hn; lia]. now destruct m.
  - destruct m as [|m]; [destruct s; [reflexivity | simpl in Hm; lia]|].
    destruct s as [|c r]; [reflexivity|]. cbn [replace_text_upto].
    cbn [List.length] in Hn, Hm.
    destruct (strip_prefix (x :: p) (c :: r)) as [rest|] eqn:E.
    + apply strip_prefix_length in E. cbn [List.length] in E.
      f_equal. apply IH; lia.
    + f_equal. apply IH; lia.
Qed.

Lemma replace_text_cons (x : Z) (p by_ : jsstring) (c : Z) (r : jsstring) :
  replace_text (x :: p) by_ (c :: r)
  = match strip_prefix (x :: p) (c :: r) with
    | Some rest => by_ ++ replace_text (x :: p) by_ rest
    | None => c :: replace_text (x :: p) by_ r
    end.
Proof.
  unfold replace_text. cbn [List.length replace_text_upto].
  destruct (strip_prefix (x :: p) (c :: r)) as [rest|] eqn:E.
  - apply strip_prefix_length in E. cbn [List.length] in E.
    f_equal. apply replace_text_upto_enough; lia.
  - reflexivity.
Qed.

Lemma replace_text_other (x : Z) (p by_ : jsstring) (c : Z) (r : jsstring) :
  c <> x ->
  replace_text (x :: p) by_ (c :: r) = c :: replace_text (x :: p) by_ r.
Proof.
  intros H. rewrite replace_text_cons. cbn [strip_prefix].
  apply Z.eqb_neq in H. rewrite Z.eqb_sym in H. now rewrite H.
Qed.

(** A pass that replaces a text that begins with [&], on a text in which
    the three characters have been replaced: it is enough to know what the
    pass does to each of the three replacements. *)
Lemma replace_text_escape_with (p by_ a l g a' l' g' : jsstring) :
  (forall rest, replace_text (0x26 :: p) by_ (a ++ rest)
                = a' ++ replace_text (0x26 :: p) by_ rest) ->
  (forall rest, replace_text (0x26 :: p) by_ (l ++ rest)
                = l' ++ replace_text (0x26 :: p) by_ rest) ->
  (forall rest, replace_text (0x26 :: p) by_ (g ++ rest)
                = g' ++ replace_text (0x26 :: p) by_ rest) ->
  forall t,
    replace_text (0x26 :: p) by_ (escape_with a l g t) = escape_with a' l' g' t.
Proof.
  intros Ha Hl Hg. induction t as [|c t IH]; [reflexivity|].
  unfold escape_with in *. cbn [flat_map].
  destruct (c =? 0x26) eqn:E1; [now rewrite Ha, IH|].
  destruct (c =? 0x3C); [now rewrite Hl, IH|].
  destruct (c =? 0x3E); [now rewrite Hg, IH|].
  cbn [app]. apply Z.eqb_neq in E1.
  now rewrite replace_text_other, IH.
Qed.

(** The three replacements of one character each, one after the other,
    are one pass. *)
Lemma replace_chars_one_pass (a l g t : jsstring) :
  ~ In 0x3C a -> ~ In 0x3E a -> ~ In 0x3E l ->
  replace_char 0x3E g (replace_char 0x3C l (replace_char 0x26 a t))
  = escape_with a l g t.
Proof.
  intros H1 H2 H3.
  assert (Hkeep : forall x by_ s, ~ In x s -> replace_char x by_ s = s).
  { intros x by_ s. unfold replace_char.
    induction s as [|y s IHs]; intros H; [reflexivity|].
    cbn [flat_map]. destruct (y =? x) eqn:E.
    - apply Z.eqb_eq in E. subst y. exfalso. apply H. now left.
    - cbn [app]. rewrite IHs; [reflexivity|]. intros Hin. apply H. now right. }
  assert (Happ : forall x by_ s s',
            replace_char x by_ (s ++ s')
            = replace_char x by_ s ++ replace_char x by_ s').
  { intros. unfold replace_char. apply flat_map_app. }
  induction t as [|c t IH]; [reflexivity|].
  unfold escape_with in *. unfold replace_char at 3. cbn [flat_map].
  fold (replace_char 0x26 a t).
  destruct (c =? 0x26) eqn:E1.
  { rewrite !Happ, IH. rewrite (Hkeep 0x3C l a H1), (Hkeep 0x3E g a H2).
    reflexivity. }
  cbn [app]. unfold replace_char at 2. cbn [flat_map].
  fold (replace_char 0x3C l (replace_char 0x26 a t)).
  destruct (c =? 0x3C) eqn:E2.
  { rewrite Happ, IH. now rewrite (Hkeep 0x3E g l H3). }
  cbn [app]. unfold replace_char at 1. cbn [flat_map].
  fold (replace_char 0x3E g (replace_char 0x3C l (replace_char 0x26 a t))).
  rewrite IH. destruct (c =? 0x3E); reflexivity.
Qed.

Lemma escape_with_app (a l g s s' : jsstring) :
  escape_with a l g (s ++ s') = escape_with a l g s ++ escape_with a l g s'.
Proof. unfold escape_with. apply flat_map_app. Qed.

Lemma escape_with_twice (a l g t : jsstring) :
  escape_with a l g (escape_with a l g t)
  = escape_with (escape_with a l g a) (escape_with a l g l)
      (escape_with a l g g) t.
Proof.
  induction t as [|c t IH]; [reflexivity|].
  change (escape_with a l g (c :: t))
    with ((if c =? 0x26 then a else if c =? 0x3C then l
           else if c =? 0x3E then g else [c]) ++ escape_with a l g t).
  rewrite escape_with_app, IH.
  change (escape_with (escape_with a l g a) (escape_with a l g l)
            (escape_with a l g g) (c :: t))
    with ((if c =? 0x26 then escape_with a l g a
           else if c =? 0x3C then escape_with a l g l
           else if c =? 0x3E then escape_with a l g g else [c])
          ++ escape_with (escape_with a l g a) (escape_with a l g l)
               (escape_with a l g g) t).
  f_equal.
  destruct (c =? 0x26) eqn:E1; [reflexivity|].
  destruct (c =? 0x3C) eqn:E2; [reflexivity|].
  destruct (c =? 0x3E) eqn:E3; [reflexivity|].
  unfold escape_with. cbn [flat_map]. now rewrite E1, E2, E3.
Qed.

Lemma escapeHtml_one_pass (t : jsstring) :
  escapeHtml (Some t) = escape_with (js "&amp;") (js "&lt;") (js "&gt;") t.
Proof.
  unfold escapeHtml. destruct t as [|c r]; [reflexivity|]. cbn [is_empty].
  apply replace_chars_one_pass; not_in_text.
Qed.

Lemma escape_with_identity (t : jsstring) :
  escape_with [0x26] [0x3C] [0x3E] t = t.
Proof.
  induction t as [|c t IH]; [reflexivity|].
  unfold escape_with in *. cbn [flat_map]. rewrite IH.
  destruct (c =? 0x26) eqn:E1; [apply Z.eqb_eq in E1; now subst|].
  destruct (c =? 0x3C) eqn:E2; [apply Z.eqb_eq in E2; now subst|].
  destruct (c =? 0x3E) eqn:E3; [apply Z.eqb_eq in E3; now subst|].
  reflexivity.
Qed.

Lemma lit_amp : js "&amp;" = [0x26; 0x61; 0x6D; 0x70; 0x3B].
Proof. now vm_compute. Qed.

Lemma lit_lt : js "&lt;" = [0x26; 0x6C; 0x74; 0x3B].
Proof. now vm_compute. Qed.

Lemma lit_gt : js "&gt;" = [0x26; 0x67; 0x74; 0x3B].
Proof. now vm_compute. Qed.

Lemma lit_amp_amp : js "&amp;amp;" = [0x26; 0x61; 0x6D; 0x70; 0x3B; 0x61; 0x6D; 0x70; 0x3B].
Proof. now vm_compute. Qed.

Lemma lit_amp_lt : js "&amp;lt;" = [0x26; 0x61; 0x6D; 0x70; 0x3B; 0x6C; 0x74; 0x3B].
Proof. now vm_compute. Qed.

Lemma lit_amp_gt : js "&amp;gt;" = [0x26; 0x61; 0x6D; 0x70; 0x3B; 0x67; 0x74; 0x3B].
Proof. now vm_compute. Qed.

Lemma lit_quot : js "&quot;" = [0x26; 0x71; 0x75; 0x6F; 0x74; 0x3B].
Proof. now vm_compute. Qed.

Lemma lit_apos : js "&#39;" = [0x26; 0x23; 0x33; 0x39; 0x3B].
Proof. now vm_compute. Qed.

Lemma lit_raw_lt : js "<" = [0x3C].
Proof. now vm_compute. Qed.

Lemma lit_raw_gt : js ">" = [0x3E].
Proof. now vm_compute. Qed.

Lemma lit_raw_amp : js "&" = [0x26].
Proof. now vm_compute. Qed.

Lemma lit_raw_apos : js "'" = [0x27].
Proof. now vm_compute. Qed.

(** What a pass does to a replacement that is written out: the pass is
    run on it step by step. *)
Ltac run_words :=
  intros rest; cbn [app];
  repeat (rewrite replace_text_cons;
          cbn [strip_prefix Z.eqb Pos.eqb app]);
  reflexivity.

Ltac write_out :=
  rewrite ?lit_amp_amp, ?lit_amp_lt, ?lit_amp_gt, ?lit_amp, ?lit_lt, ?lit_gt,
    ?lit_quot, ?lit_apos, ?lit_raw_lt, ?lit_raw_gt, ?lit_raw_amp,
    ?lit_raw_apos;
  unfold dq.

Lemma fix_pass_gt (t : jsstring) :
  replace_text (js "&amp;gt;") (js "&gt;")
    (escape_with (js "&amp;amp;") (js "&amp;lt;") (js "&amp;gt;") t)
  = escape_with (js "&amp;amp;") (js "&amp;lt;") (js "&gt;") t.
Proof. write_out. apply replace_text_escape_with; run_words. Qed.

Lemma fix_pass_lt (t : jsstring) :
  replace_text (js "&amp;lt;") (js "&lt;")
    (escape_with (js "&amp;amp;") (js "&amp;lt;") (js "&gt;") t)
  = escape_with (js "&amp;amp;") (js "&lt;") (js "&gt;") t.
Proof. write_out. apply replace_text_escape_with; run_words. Qed.

Lemma fix_pass_amp (t : jsstring) :
  replace_text (js "&amp;amp;") (js "&amp;")
    (escape_with (js "&amp;amp;") (js "&lt;") (js "&gt;") t)
  = escape_with (js "&amp;") (js "&lt;") (js "&gt;") t.
Proof. write_out. apply replace_text_escape_with; run_words. Qed.

Lemma escaped_twice (t : jsstring) :
  escapeHtml (Some (escapeHtml (Some t)))
  = escape_with (js "&amp;amp;") (js "&amp;lt;") (js "&amp;gt;") t.
Proof.
  rewrite !escapeHtml_one_pass, escape_with_twice.
  assert (E1 : escape_with (js "&amp;") (js "&lt;") (js "&gt;") (js "&amp;")
               = js "&amp;amp;") by now vm_compute.
  assert (E2 : escape_with (js "&amp;") (js "&lt;") (js "&gt;") (js "&lt;")
               = js "&amp;lt;") by now vm_compute.
  assert (E3 : escape_with (js "&amp;") (js "&lt;") (js "&gt;") (js "&gt;")
               = js "&amp;gt;") by now vm_compute.
  now rewrite E1, E2, E3.
Qed.

(** X18.  [fixDoubleEscaping] takes one escaping off a text that
    [escapeHtml] has escaped twice: what is left is the text escaped
    once, whatever the text. *)
Theorem fixDoubleEscaping_undoes_one_escaping (t : jsstring) :
  fixDoubleEscaping (Some (escapeHtml (Some (escapeHtml (Some t)))))
  = escapeHtml (Some t).
Proof.
  rewrite escaped_twice, escapeHtml_one_pass. unfold fixDoubleEscaping.
  destruct (escape_with (js "&amp;amp;") (js "&amp;lt;") (js "&amp;gt;") t)
    as [|c r] eqn:E.
  - destruct t as [|x t']; [reflexivity|]. exfalso.
    unfold escape_with in E. cbn [flat_map] in E.
    destruct (x =? 0x26); [now vm_compute in E|].
    destruct (x =? 0x3C); [now vm_compute in E|].
    destruct (x =? 0x3E); [now vm_compute in E|]. discriminate.
  - cbn [is_empty]. rewrite <- E.
    now rewrite fix_pass_gt, fix_pass_lt, fix_pass_amp.
Qed.

Lemma decode_pass_gt (t : jsstring) :
  replace_text (js "&gt;") (js ">")
    (escape_with (js "&amp;") (js "&lt;") (js "&gt;") t)
  = escape_with (js "&amp;") (js "&lt;") [0x3E] t.
Proof. write_out. apply replace_text_escape_with; run_words. Qed.

Lemma decode_pass_lt (t : jsstring) :
  replace_text (js "&lt;") (js "<")
    (escape_with (js "&amp;") (js "&lt;") [0x3E] t)
  = escape_with (js "&amp;") [0x3C] [0x3E] t.
Proof. write_out. apply replace_text_escape_with; run_words. Qed.

Lemma decode_pass_quot (t : jsstring) :
  replace_text (js "&quot;") dq (escape_with (js "&amp;") [0x3C] [0x3E] t)
  = escape_with (js "&amp;") [0x3C] [0x3E] t.
Proof. write_out. apply replace_text_escape_with; run_words. Qed.

Lemma decode_pass_apos (t : jsstring) :
  replace_text (js "&#39;") (js "'") (escape_with (js "&amp;") [0x3C] [0x3E] t)
  = escape_with (js "&amp;") [0x3C] [0x3E] t.
Proof. write_out. apply replace_text_escape_with; run_words. Qed.

Lemma decode_pass_amp (t : jsstring) :
  replace_text (js "&amp;") (js "&") (escape_with (js "&amp;") [0x3C] [0x3E] t)
  = escape_with [0x26] [0x3C] [0x3E] t.
Proof. write_out. apply replace_text_escape_with; run_words. Qed.

(** X19.  On the server, where there is no [document],
    [decodeHtmlEntities] gives back the text that [escapeHtml] has
    escaped, whatever the text. *)
Theorem decodeHtmlEntities_undoes_escapeHtml (t : jsstring) :
  decodeHtmlEntities None (Some (escapeHtml (Some t))) = t.
Proof.
  rewrite escapeHtml_one_pass. unfold decodeHtmlEntities.
  destruct (escape_with (js "&amp;") (js "&lt;") (js "&gt;") t)
    as [|c r] eqn:E.
  - destruct t as [|x t']; [reflexivity|]. exfalso.
    unfold escape_with in E. cbn [flat_map] in E.
    destruct (x =? 0x26); [now vm_compute in E|].
    destruct (x =? 0x3C); [now vm_compute in E|].
    destruct (x =? 0x3E); [now vm_compute in E|]. discriminate.
  - cbn [is_empty]. rewrite <- E.
    rewrite decode_pass_gt, decode_pass_lt, decode_pass_quot,
      decode_pass_apos, decode_pass_amp.
    apply escape_with_identity.
Qed.

(** ** The tags of a dat line *)

Lemma lt_opens_tags_other (c : Z) (r : jsstring) :
  c <> 0x3C -> lt_opens_tags (c :: r) = lt_opens_tags r.
Proof.
  intros H. cbn [lt_opens_tags]. apply Z.eqb_neq in H. now rewrite H.
Qed.

Lemma lt_opens_tags_lt (h : Z) (r : jsstring) :
  lt_opens_tags (0x3C :: h :: r) = opens_tag h && lt_opens_tags (h :: r).
Proof. reflexivity. Qed.

Lemma lt_opens_tags_clean (x y : jsstring) :
  ~ In 0x3C x -> lt_opens_tags (x ++ y) = lt_opens_tags y.
Proof.
  induction x as [|c x IH]; intros H; [reflexivity|].
  cbn [app]. rewrite lt_opens_tags_other.
  - apply IH. intros Hin. apply H. now right.
  - intros ->. apply H. now left.
Qed.

Lemma lt_opens_tags_without_lt (x : jsstring) :
  ~ In 0x3C x -> lt_opens_tags x = true.
Proof.
  intros H. rewrite <- (app_nil_r x). now rewrite lt_opens_tags_clean.
Qed.

Lemma lt_opens_tags_tail (c : Z) (r : jsstring) :
  lt_opens_tags (c :: r) = true -> lt_opens_tags r = true.
Proof. cbn [lt_opens_tags]. intros H. now apply andb_true_iff in H. Qed.

Lemma lt_opens_tags_end (s rest : jsstring) :
  ends_with s rest -> lt_opens_tags s = true -> lt_opens_tags rest = true.
Proof.
  intros [before ->]. induction before as [|c b IH]; intros H; [exact H|].
  apply IH. now apply (lt_opens_tags_tail c).
Qed.

Lemma opens_tag_not_lt (h : Z) : opens_tag h = true -> h <> 0x3C.
Proof. unfold opens_tag. lia. Qed.

(** The meaning of the invariant. *)
Lemma lt_opens_tags_spec (s pre post : jsstring) :
  lt_opens_tags s = true -> s = pre ++ 0x3C :: post ->
  exists h t, post = h :: t /\ opens_tag h = true.
Proof.
  intros H ->. revert H. induction pre as [|c pre IH]; intros H.
  - cbn [app] in H. destruct post as [|h t]; [discriminate|].
    rewrite lt_opens_tags_lt in H. apply andb_true_iff in H as [Hh _].
    now exists h, t.
  - apply IH. now apply (lt_opens_tags_tail c).
Qed.

Lemma strip_prefix_ends (p s rest : jsstring) :
  strip_prefix p s = Some rest -> ends_with s rest.
Proof.
  revert s. induction p as [|x p IH]; intros s H.
  - cbn in H. injection H as <-. apply ends_with_refl.
  - destruct s as [|y s]; [discriminate|]. cbn [strip_prefix] in H.
    destruct (x =? y); [|discriminate]. apply ends_with_cons. now apply IH.
Qed.

Lemma span_not_amp_parts (s : jsstring) :
  s = fst (span_not_amp s) ++ snd (span_not_amp s).
Proof.
  induction s as [|c r IH]; [reflexivity|]. cbn [span_not_amp].
  destruct (c =? 0x26); [reflexivity|].
  destruct (span_not_amp r) as [x rest]. cbn [fst snd] in *.
  now rewrite IH at 1.
Qed.

Lemma not_in_end (x : Z) (s rest : jsstring) :
  ends_with s rest -> ~ In x s -> ~ In x rest.
Proof. intros He H Hin. apply H. now apply (ends_with_in x s rest). Qed.

(** What the pattern of line 232 matches in a text without [<]: group 1
    begins with [a], [b] or [/] and has no [<]. *)
Lemma match_escaped_tag_facts (s group1 rest : jsstring) :
  ~ In 0x3C s -> match_escaped_tag s = Some (group1, rest) ->
  ends_with s rest /\ ~ In 0x3C group1
  /\ exists h t, group1 = h :: t /\ opens_tag h = true.
Proof.
  intros Hs. unfold match_escaped_tag.
  destruct (strip_prefix (js "&lt;") s) as [s1|] eqn:E1; [|discriminate].
  apply strip_prefix_ends in E1. pose proof (not_in_end _ _ _ E1 Hs) as Hs1.
  set (split1 := match s1 with
                 | c :: r => if c =? 0x2F then ([0x2F], r) else ([], s1)
                 | [] => ([], s1)
                 end).
  assert (Hsplit : s1 = fst split1 ++ snd split1
                   /\ (fst split1 = [] \/ fst split1 = [0x2F])).
  { subst split1. destruct s1 as [|c r]; [now split; [|left]|].
    destruct (c =? 0x2F) eqn:E; [|now split; [|left]].
    apply Z.eqb_eq in E. subst c. split; [reflexivity | now right]. }
  destruct split1 as [slash s2]. cbn [fst snd] in Hsplit.
  destruct Hsplit as [Es1 Hslash].
  assert (Hs2 : ends_with s1 s2) by (now exists slash).
  pose proof (not_in_end _ _ _ Hs2 Hs1) as Hs2'.
  set (name := match s2 with
               | a :: r =>
                   if a =? 0x61 then Some ([0x61], r)
                   else match r with
                        | b :: r' =>
                            if (a =? 0x62) && (b =? 0x72)
                            then Some ([0x62; 0x72], r') else None
                        | [] => None
                        end
               | [] => None
               end).
  assert (Hname : forall tag s3, name = Some (tag, s3) ->
            s2 = tag ++ s3 /\ (tag = [0x61] \/ tag = [0x62; 0x72])).
  { subst name. intros tag s3. destruct s2 as [|a r]; [discriminate|].
    destruct (a =? 0x61) eqn:Ea.
    - apply Z.eqb_eq in Ea. subst a. intros [= <- <-].
      split; [reflexivity | now left].
    - destruct r as [|b r']; [discriminate|].
      destruct ((a =? 0x62) && (b =? 0x72)) eqn:Eb; [|discriminate].
      apply andb_true_iff in Eb as [Eb1 Eb2].
      apply Z.eqb_eq in Eb1, Eb2. subst a b. intros [= <- <-].
      split; [reflexivity | now right]. }
  destruct name as [[tag s3]|]; [|discriminate].
  destruct (Hname tag s3 eq_refl) as [Es2 Htag].
  assert (Hs3 : ends_with s2 s3) by (now exists tag).
  pose proof (not_in_end _ _ _ Hs3 Hs2') as Hs3'.
  pose proof (span_not_amp_parts s3) as Es3.
  destruct (span_not_amp s3) as [attributes s4]. cbn [fst snd] in Es3.
  assert (Hs4 : ends_with s3 s4) by (now exists attributes).
  destruct (strip_prefix (js "&gt;") s4) as [rest'|] eqn:E4; [|discriminate].
  apply strip_prefix_ends in E4. intros [= <- <-].
  assert (Hattr : ~ In 0x3C attributes).
  { intros Hin. apply Hs3'. rewrite Es3. apply in_app_iff. now left. }
  split; [|split].
  - apply (ends_with_trans _ _ _ E1).
    apply (ends_with_trans _ _ _ Hs2).
    apply (ends_with_trans _ _ _ Hs3).
    now apply (ends_with_trans _ _ _ Hs4).
  - intros Hin. apply in_app_iff in Hin. destruct Hin as [Hin|Hin].
    + destruct Hslash as [->| ->]; [destruct Hin|].
      destruct Hin as [Hin|[]]. discriminate.
    + apply in_app_iff in Hin. destruct Hin as [Hin|Hin]; [|now apply Hattr].
      destruct Htag as [->| ->].
      * destruct Hin as [Hin|[]]. discriminate.
      * destruct Hin as [Hin|[Hin|[]]]; discriminate.
  - destruct Hslash as [->| ->].
    + destruct Htag as [->| ->]; eexists; eexists; split;
        try reflexivity; reflexivity.
    + eexists; eexists; split; [reflexivity | reflexivity].
Qed.

Lemma decode_tags_upto_opens (fuel : nat) (s : jsstring) :
  ~ In 0x3C s -> lt_opens_tags (decode_tags_upto fuel s) = true.
Proof.
  revert s. induction fuel as [|fuel IH]; intros s Hs;
    [now apply lt_opens_tags_without_lt|].
  destruct s as [|c r]; [reflexivity|]. cbn [decode_tags_upto].
  destruct (match_escaped_tag (c :: r)) as [[group1 rest]|] eqn:E.
  - destruct (match_escaped_tag_facts _ _ _ Hs E)
      as (Hrest & Hg & h & t & -> & Hh).
    rewrite lit_raw_lt, lit_raw_gt. cbn [app].
    rewrite lt_opens_tags_lt, Hh. cbn [andb].
    change (h :: t ++ 0x3E :: decode_tags_upto fuel rest)
      with ((h :: t) ++ 0x3E :: decode_tags_upto fuel rest).
    rewrite (lt_opens_tags_clean _ _ Hg).
    rewrite lt_opens_tags_other by discriminate.
    apply IH. now apply (not_in_end _ _ _ Hrest).
  - rewrite lt_opens_tags_other.
    + apply IH. intros Hin. apply Hs. now right.
    + intros ->. apply Hs. now left.
Qed.

(** A pass that looks for a text that begins with [&] keeps a first
    character that opens a tag. *)
Lemma replace_text_upto_head (fuel : nat) (p by_ : jsstring) (h : Z)
    (r : jsstring) :
  opens_tag h = true ->
  exists t, replace_text_upto fuel (0x26 :: p) by_ (h :: r) = h :: t.
Proof.
  intros Hh. destruct fuel as [|fuel]; [now exists r|].
  cbn [replace_text_upto strip_prefix].
  assert (E : (0x26 =? h) = false) by (unfold opens_tag in Hh; lia).
  rewrite E. eexists. reflexivity.
Qed.

Lemma replace_text_upto_opens (fuel : nat) (p by_ : jsstring) (s : jsstring) :
  ~ In 0x3C by_ ->
  lt_opens_tags s = true ->
  lt_opens_tags (replace_text_upto fuel (0x26 :: p) by_ s) = true.
Proof.
  intros Hby. revert s. induction fuel as [|fuel IH]; intros s Hs; [exact Hs|].
  destruct s as [|c r]; [reflexivity|]. cbn [replace_text_upto].
  destruct (strip_prefix (0x26 :: p) (c :: r)) as [rest|] eqn:E.
  - rewrite (lt_opens_tags_clean _ _ Hby). apply IH.
    apply strip_prefix_ends in E. now apply (lt_opens_tags_end _ _ E).
  - pose proof (IH r (lt_opens_tags_tail _ _ Hs)) as Hr.
    destruct (Z.eq_dec c 0x3C) as [->|Hc];
      [|now rewrite lt_opens_tags_other].
    destruct r as [|h r']; [discriminate|].
    rewrite lt_opens_tags_lt in Hs. apply andb_true_iff in Hs as [Hh _].
    destruct (replace_text_upto_head fuel p by_ h r' Hh) as [t Et].
    rewrite Et in Hr |- *. rewrite lt_opens_tags_lt, Hh. exact Hr.
Qed.

Lemma br_opens :
  forall x, lt_opens_tags (js "<br>" ++ x) = lt_opens_tags x.
Proof.
  intros x. assert (E : js "<br>" = [0x3C; 0x62; 0x72; 0x3E]) by now vm_compute.
  rewrite E. cbn [app]. rewrite lt_opens_tags_lt.
  change (opens_tag 0x62) with true. cbn [andb].
  now rewrite !lt_opens_tags_other by discriminate.
Qed.

Lemma replace_newlines_opens (s : jsstring) :
  lt_opens_tags s = true ->
  lt_opens_tags (replace_newlines (js "<br>") s) = true.
Proof.
  assert (H : forall n s, (List.length s <= n)%nat ->
            lt_opens_tags s = true ->
            lt_opens_tags (replace_newlines (js "<br>") s) = true
            /\ forall h r, s = h :: r -> opens_tag h = true ->
                 exists t, replace_newlines (js "<br>") s = h :: t).
  { clear s. induction n as [|n IH]; intros s Hn Hs.
    - destruct s; [|simpl in Hn; lia]. split; [reflexivity|]. discriminate.
    - destruct s as [|c r]; [split; [reflexivity | discriminate]|].
      simpl in Hn. pose proof (lt_opens_tags_tail _ _ Hs) as Hr.
      assert (Hn' : (List.length r <= n)%nat) by lia.
      destruct (IH r Hn' Hr) as [IHr IHhead].
      cbn [replace_newlines].
      destruct (c =? 0xA) eqn:E1.
      { split; [now rewrite br_opens|].
        intros h r0 [= <- <-] Hh. unfold opens_tag in Hh. lia. }
      destruct (c =? 0xD) eqn:E2.
      { destruct r as [|d r'].
        { split; [exact Hs|]. intros h r0 [= <- <-] _. now exists []. }
        destruct (d =? 0xA).
        + split.
          * rewrite br_opens. apply IH; [simpl in Hn'; lia|].
            now apply (lt_opens_tags_tail d).
          * intros h r0 [= <- <-] Hh. unfold opens_tag in Hh. lia.
        + split.
          * rewrite lt_opens_tags_other by lia. exact IHr.
          * intros h r0 [= <- <-] _. eexists. reflexivity. }
      split; [|intros h r0 [= <- <-] _; eexists; reflexivity].
      destruct (Z.eq_dec c 0x3C) as [->|Hc];
        [|now rewrite lt_opens_tags_other].
      destruct r as [|h r']; [discriminate|].
      rewrite lt_opens_tags_lt in Hs. apply andb_true_iff in Hs as [Hh _].
      destruct (IHhead h r' eq_refl Hh) as [t Et].
      rewrite Et in IHr |- *. rewrite lt_opens_tags_lt, Hh. exact IHr. }
  intros Hs. apply (H (List.length s) s); [lia | exact Hs].
Qed.

Lemma collapse_brs_upto_head (fuel : nat) (h : Z) (r : jsstring) :
  opens_tag h = true ->
  exists t, collapse_brs_upto fuel (h :: r) = h :: t.
Proof.
  intros Hh. destruct fuel as [|fuel]; [now exists r|].
  cbn [collapse_brs_upto List.length match_brs].
  assert (E : match_br (h :: r) = None).
  { unfold match_br. destruct r as [|b [|x s1]]; try reflexivity.
    assert (E : (h =? 0x3C) = false) by (unfold opens_tag in Hh; lia).
    now rewrite E. }
  rewrite E. cbn [Nat.leb]. eexists. reflexivity.
Qed.

Lemma collapse_brs_upto_opens (fuel : nat) (s : jsstring) :
  lt_opens_tags s = true -> lt_opens_tags (collapse_brs_upto fuel s) = true.
Proof.
  revert s. induction fuel as [|fuel IH]; intros s Hs; [exact Hs|].
  destruct s as [|c r]; [reflexivity|]. cbn [collapse_brs_upto].
  pose proof (match_brs_ends (List.length (c :: r)) (c :: r)) as Hends.
  destruct (match_brs (List.length (c :: r)) (c :: r)) as [n after].
  cbn [snd] in Hends. destruct (2 <=? n)%nat.
  - rewrite br_opens. apply IH. now apply (lt_opens_tags_end _ _ Hends).
  - pose proof (IH r (lt_opens_tags_tail _ _ Hs)) as Hr.
    destruct (Z.eq_dec c 0x3C) as [->|Hc];
      [|now rewrite lt_opens_tags_other].
    destruct r as [|h r']; [discriminate|].
    rewrite lt_opens_tags_lt in Hs. apply andb_true_iff in Hs as [Hh _].
    destruct (collapse_brs_upto_head fuel h r' Hh) as [t Et].
    rewrite Et in Hr |- *. rewrite lt_opens_tags_lt, Hh. exact Hr.
Qed.

(** X20.  When the body has no [<] of its own, every [<] of the content of
    its dat line is followed by [a], [b] or [/]: the only tags that the
    content gets are those that the decoding of line 232 lets through and
    the [<br>] of the line ends.  No [<] is followed by [>], so the body
    cannot put the separator of the fields of a dat line into the
    content. *)
Theorem datContent_opens_only_tags (body pre post : jsstring) :
  ~ In 0x3C body ->
  datContent (Some body) = pre ++ 0x3C :: post ->
  exists h t,
    post = h :: t /\ (h = 0x61 \/ h = 0x62 \/ h = 0x2F) /\ h <> 0x3E.
Proof.
  intros Hbody Hcontent.
  assert (H : lt_opens_tags (datContent (Some body)) = true).
  { unfold datContent, decode_tags, replace_text, collapse_brs. cbv zeta.
    cbn [or_empty]. apply collapse_brs_upto_opens, replace_newlines_opens.
    rewrite lit_amp. apply replace_text_upto_opens.
    - rewrite lit_raw_amp. intros [H|[]]. discriminate.
    - now apply decode_tags_upto_opens. }
  destruct (lt_opens_tags_spec _ _ _ H Hcontent) as (h & t & -> & Hh).
  exists h, t. split; [reflexivity|]. unfold opens_tag in Hh. lia.
Qed.

Lemma datContent_opens_only_tags_witness :
  exists h t,
    js "a href=q>y" = h :: t /\ (h = 0x61 \/ h = 0x62 \/ h = 0x2F)
    /\ h <> 0x3E.
Proof.
  apply (datContent_opens_only_tags (js "x&lt;a href=q&gt;y") (js "x")
           (js "a href=q>y")).
  - not_in_text.
  - now vm_compute.
Defined.
